(** * Freezer X controller: compressor state machine and record log

    A shallow embedding of [src/main.cpp]: the checksum, the storage-card
    transport and block driver with the initialisation of the card, the
    dual-counter record log, the compressor control state machine, the
    configuration menu and the ring of the home screen, with the properties
    of the specification and further properties of the code stated and
    proved over them. *)

From Stdlib Require Import ZArith List Bool Lia.
From Stdlib Require Import Floats.SpecFloat.
Import ListNotations.
Open Scope Z_scope.

(** ** Machine integers

    [uint8_t] and [uint32_t] values are integers with the wrap-around of the
    corresponding width written out. *)

Definition uint8 (z : Z) : Z := z mod 256.
Definition uint32 (z : Z) : Z := z mod 4294967296.

Definition is_byte (b : Z) : Prop := 0 <= b < 256.

(** The 256 values of a byte, for properties checked by enumeration. *)
Definition all_bytes : list Z := map Z.of_nat (seq 0 256).

(** ** Checksum *)

Module Crc.

(** One round of the inner loop of [calculate_crc8]:
    [if (crc & 0x80) crc = (crc << 1) ^ 0x07; else crc <<= 1;]
    with the truncation of the assignment to [uint8_t]. *)
Definition crc8_shift (crc : Z) : Z :=
  if Z.eqb (Z.land crc 0x80) 0
  then uint8 (Z.shiftl crc 1)
  else uint8 (Z.lxor (Z.shiftl crc 1) 0x07).

(** The body of the outer loop: [crc ^= data[i]], then eight rounds. *)
Definition crc8_byte (crc b : Z) : Z :=
  Nat.iter 8 crc8_shift (Z.lxor crc b).

Fixpoint crc8_loop (data : list Z) (crc : Z) : Z :=
  match data with
  | [] => crc
  | b :: rest => crc8_loop rest (crc8_byte crc b)
  end.

(** [calculate_crc8 data len]: the span [data[0..len)] is the list. *)
Definition calculate_crc8 (data : list Z) : Z := crc8_loop data 0.

(** *** Reference: remainder of the message polynomial

    Following the specification's words: CRC-8, generator
    x^8 + x^2 + x + 1 (0x07 once the leading term is dropped), message taken
    most significant bit first, register initially zero. The checksum is the
    remainder of M(x) * x^8 divided by the generator, computed by long
    division one coefficient at a time. *)

Definition generator : Z := 0x107.

(** Bring down the next coefficient and subtract the generator when the
    degree reaches 8. *)
Definition rem_step (r : Z) (b : bool) : Z :=
  let r' := 2 * r + (if b then 1 else 0) in
  if Z.testbit r' 8 then Z.lxor r' generator else r'.

Definition poly_rem (r : Z) (coeffs : list bool) : Z :=
  fold_left rem_step coeffs r.

(** Coefficients of one byte, most significant first. *)
Definition msb_first (b : Z) : list bool :=
  map (fun k => Z.testbit b (Z.of_nat k)) (rev (seq 0 8)).

Definition message_bits (data : list Z) : list bool :=
  flat_map msb_first data.

Definition crc8_reference (data : list Z) : Z :=
  poly_rem 0 (message_bits data ++ repeat false 8).

(** Flip bit [j] of the byte at index [i]. *)
Fixpoint flip_bit (data : list Z) (i : nat) (j : Z) : list Z :=
  match data, i with
  | [], _ => []
  | b :: rest, O => Z.lxor b (Z.shiftl 1 j) :: rest
  | b :: rest, S i' => b :: flip_bit rest i' j
  end.

(** Left inverse of [crc8_shift] on bytes: the low bit of the result tells
    whether the generator was subtracted. *)
Definition crc8_unshift (r : Z) : Z :=
  if Z.odd r
  then Z.lor (Z.shiftr (Z.lxor r 0x07) 1) 0x80
  else Z.shiftr r 1.

End Crc.

(** ** Storage-card transport and block driver

    The SPI bus is modelled from the firmware's side. What the card shifts
    out, and the value [millis()] has once a given number of bytes have been
    exchanged, belong to the environment; the firmware's own effects are the
    bytes it shifts out and the level of the chip-select pin. A loop that the
    source does not bound runs on fuel: [None] means the loop has not returned
    within the fuel given. *)

Module SdCard.

Record bus := {
  miso : nat -> Z;       (* byte shifted out by the card during transfer n *)
  clock : nat -> Z;      (* millisecond counter once n transfers are done *)
  transfers : nat;       (* transfers made so far *)
  mosi : list Z;         (* bytes shifted out by the firmware, latest first *)
  cs : bool              (* level of MICRO_SD_CS *)
}.

Definition SD_BLOCK_SIZE : nat := 512.

(** [millis()] *)
Definition millis (b : bus) : Z := uint32 (clock b (transfers b)).

(** [SPI.transfer(x)] *)
Definition transfer (x : Z) (b : bus) : Z * bus :=
  (uint8 (miso b (transfers b)),
   {| miso := miso b; clock := clock b; transfers := S (transfers b);
      mosi := uint8 x :: mosi b; cs := cs b |}).

(** [digitalWrite(MICRO_SD_CS, level)] *)
Definition set_cs (level : bool) (b : bus) : bus :=
  {| miso := miso b; clock := clock b; transfers := transfers b;
     mosi := mosi b; cs := level |}.

(** The [for(;;)] loop of [wait_card_busy]. *)
Fixpoint wait_card_busy_loop (fuel : nat) (start_time : Z) (b : bus)
  : option (bool * bus) :=
  match fuel with
  | O => None
  | S fuel' =>
    let '(r_byte, b1) := transfer 0xFF b in
    if r_byte =? 0xFF then Some (true, b1)
    else if uint32 (millis b1 - start_time) >? 300 then Some (false, b1)
    else wait_card_busy_loop fuel' start_time b1
  end.

Definition wait_card_busy (fuel : nat) (b : bus) : option (bool * bus) :=
  wait_card_busy_loop fuel (millis b) b.

(** The six bytes of a command frame, in the order they are shifted out. *)
Definition command_frame (cmd arg crc : Z) : list Z :=
  [ uint8 (Z.lor 0x40 cmd);
    uint8 (Z.shiftr arg 24); uint8 (Z.shiftr arg 16); uint8 (Z.shiftr arg 8);
    uint8 arg;
    uint8 crc ].

(** Shift out a list of bytes, ignoring what comes back. *)
Fixpoint send_bytes (bytes : list Z) (b : bus) : bus :=
  match bytes with
  | [] => b
  | x :: rest => send_bytes rest (snd (transfer x b))
  end.

(** [send_card_command]: the result of [wait_card_busy] is dropped, the
    function returns nothing. *)
Definition send_card_command (fuel : nat) (cmd arg crc : Z) (b : bus)
  : option bus :=
  match wait_card_busy fuel b with
  | None => None
  | Some (_, b1) => Some (send_bytes (command_frame cmd arg crc) b1)
  end.

Fixpoint read_card_response_loop (n : nat) (b : bus) : Z * bus :=
  match n with
  | O => (0xFF, b)
  | S n' =>
    let '(response, b1) := transfer 0xFF b in
    if negb (response =? 0xFF) then (response, b1)
    else read_card_response_loop n' b1
  end.

Definition read_card_response (b : bus) : Z * bus :=
  read_card_response_loop 10 b.

(** [while (SPI.transfer(0xFF) != 0xFE);] *)
Fixpoint wait_data_token (fuel : nat) (b : bus) : option bus :=
  match fuel with
  | O => None
  | S fuel' =>
    let '(r, b1) := transfer 0xFF b in
    if negb (r =? 0xFE) then wait_data_token fuel' b1 else Some b1
  end.

(** [while (SPI.transfer(0xFF) == 0x00);] *)
Fixpoint wait_write_done (fuel : nat) (b : bus) : option bus :=
  match fuel with
  | O => None
  | S fuel' =>
    let '(r, b1) := transfer 0xFF b in
    if r =? 0x00 then wait_write_done fuel' b1 else Some b1
  end.

(** Shift in [n] bytes, sending the idle byte. *)
Fixpoint receive_bytes (n : nat) (b : bus) : list Z * bus :=
  match n with
  | O => ([], b)
  | S n' =>
    let '(r, b1) := transfer 0xFF b in
    let '(rest, b2) := receive_bytes n' b1 in
    (r :: rest, b2)
  end.

(** [read_card_block(block_addr, buffer, buffer_size)]: the result is the
    return value with the bytes stored in the caller's buffer. *)
Definition read_card_block (fuel : nat) (block_addr : Z) (buffer_size : nat)
  (b : bus) : option (bool * list Z * bus) :=
  let b := set_cs false b in
  match send_card_command fuel 17 block_addr 0x01 b with
  | None => None
  | Some b1 =>
    let '(response, b2) := read_card_response b1 in
    if negb (response =? 0x00) then Some (false, [], set_cs true b2)
    else
      match wait_data_token fuel b2 with
      | None => None
      | Some b3 =>
        let '(block, b4) := receive_bytes SD_BLOCK_SIZE b3 in
        let b5 := send_bytes [0xFF; 0xFF] b4 in
        let b6 := set_cs true b5 in
        Some (true, firstn buffer_size block, send_bytes [0xFF] b6)
      end
  end.

(** The 512 bytes of a written block: the caller's bytes, then zeros. *)
Definition padded_block (buffer : list Z) (buffer_size : nat) : list Z :=
  map (fun i => if (i <? buffer_size)%nat then nth i buffer 0 else 0x00)
      (seq 0 SD_BLOCK_SIZE).

(** [write_card_block(block_addr, buffer, buffer_size)] *)
Definition write_card_block (fuel : nat) (block_addr : Z) (buffer : list Z)
  (buffer_size : nat) (b : bus) : option (bool * bus) :=
  let b := set_cs false b in
  match send_card_command fuel 24 block_addr 0x01 b with
  | None => None
  | Some b1 =>
    let '(response, b2) := read_card_response b1 in
    if negb (response =? 0x00) then Some (false, set_cs true b2)
    else
      let b3 := send_bytes [0xFE] b2 in
      let b4 := send_bytes (padded_block buffer buffer_size) b3 in
      let b5 := send_bytes [0xFF; 0xFF] b4 in
      let '(response, b6) := transfer 0xFF b5 in
      if negb (Z.land response 0x1F =? 0x05) then Some (false, set_cs true b6)
      else
        match wait_write_done fuel b6 with
        | None => None
        | Some b7 => Some (true, send_bytes [0xFF] (set_cs true b7))
        end
  end.

(** What an operation leaves of the environment: the card's answers and
    the clock are the same functions, and the transfers only grow. *)
Definition extends (b b' : bus) : Prop :=
  miso b' = miso b /\ clock b' = clock b /\ (transfers b <= transfers b')%nat.

(** A bus at rest, given what the card will answer and how time passes. *)
Definition idle_bus (card : nat -> Z) (time : nat -> Z) : bus :=
  {| miso := card; clock := time; transfers := 0; mosi := []; cs := true |}.

(** A data line held low: every byte read is 0x00. At 250 kHz a byte takes
    32 microseconds, so the clock below gains a millisecond every 32
    transfers. *)
Definition stuck_low : bus :=
  idle_bus (fun _ => 0x00) (fun n => Z.of_nat n / 32).

(** Bytes exchanged at that rate until the clock has gained 301 ms. *)
Definition polls_in_timeout : nat := 301 * 32.

(** A card that takes a block write (not busy, command accepted, data
    accepted) and then signals busy for ever. *)
Definition busy_forever : bus :=
  idle_bus (fun n => if (n =? 0)%nat then 0xFF
                     else if (n =? 523)%nat then 0x05 else 0x00)
           (fun n => Z.of_nat n / 32).

(** A card that answers a block read: ready, command accepted at once, one
    idle byte, the data token, then the bytes [n mod 256]. *)
Definition answering_card : bus :=
  idle_bus (fun n => if (n <? 7)%nat then 0xFF
                     else if (n =? 7)%nat then 0x00
                     else if (n =? 8)%nat then 0xFF
                     else if (n =? 9)%nat then 0xFE
                     else Z.of_nat n mod 256)
           (fun n => Z.of_nat n / 32).

End SdCard.

(** ** Record log

    [save_data_point] sits on the block driver. Here the driver is seen
    through its two operations on whole blocks, with the state of the card
    threaded through; the record log is written against that interface. *)

Class BlockDevice (card : Type) := {
  (* [read_card_block(addr, buffer, size)]: the return value, the bytes
     stored in the buffer, the card afterwards *)
  read_card_block : Z -> nat -> card -> bool * list Z * card;
  (* [write_card_block(addr, buffer, size)] *)
  write_card_block : Z -> list Z -> nat -> card -> bool * card
}.

Module RecordLog.

(** [struct sd_count_sector] *)
Record sd_count_sector := { count : Z; crc : Z }.

(** The four bytes of a [uint32_t] as they lie in memory (little-endian). *)
Definition le32 (z : Z) : list Z :=
  [ uint8 z; uint8 (Z.shiftr z 8); uint8 (Z.shiftr z 16); uint8 (Z.shiftr z 24) ].

(** [sizeof(sd_count_sector)]: the counter and the checksum, no padding. *)
Definition sizeof_sd_count_sector : nat := 5.

Definition sector_bytes (s : sd_count_sector) : list Z :=
  le32 (count s) ++ [uint8 (crc s)].

(** A zero-initialised [sd_count_sector] overwritten with the bytes read. *)
Definition sector_of_bytes (buf : list Z) : sd_count_sector :=
  {| count := nth 0 buf 0 + 256 * nth 1 buf 0 + 65536 * nth 2 buf 0
              + 16777216 * nth 3 buf 0;
     crc := nth 4 buf 0 |}.

(** [calculate_crc8((uint8_t* )&s.count, sizeof(uint32_t))] *)
Definition count_crc (s : sd_count_sector) : Z :=
  Crc.calculate_crc8 (le32 (count s)).

(** The branch taken when the two counters differ: the pair of local
    structs after the assignments. *)
Definition reconcile (count_sector_0 count_sector_1 : sd_count_sector)
  : sd_count_sector * sd_count_sector :=
  if crc count_sector_0 =? count_crc count_sector_0
  then (count_sector_0, count_sector_0)
  else if crc count_sector_1 =? count_crc count_sector_1
  then (count_sector_1, count_sector_1)
  else (count_sector_0, count_sector_0).

(** [count_sector_0.count++] followed by the recomputation of its checksum. *)
Definition advance (s : sd_count_sector) : sd_count_sector :=
  let n := uint32 (count s + 1) in
  {| count := n; crc := Crc.calculate_crc8 (le32 n) |}.

Section Append.
Context {card : Type} {dev : BlockDevice card}.

(** [save_data_point(data)]; [data] is the byte image of the record and its
    length is [sizeof(freezer_state_data_point)]. *)
Definition save_data_point (data : list Z) (c : card) : bool * card :=
  let '(ok, buf0, c) := read_card_block 0 sizeof_sd_count_sector c in
  if negb ok then (false, c) else
  let '(ok, buf1, c) := read_card_block 1 sizeof_sd_count_sector c in
  if negb ok then (false, c) else
  let count_sector_0 := sector_of_bytes buf0 in
  let count_sector_1 := sector_of_bytes buf1 in
  let '(ok, count_sector_0, c) :=
    if negb (count count_sector_0 =? count count_sector_1) then
      let '(count_sector_0, count_sector_1) :=
        reconcile count_sector_0 count_sector_1 in
      let '(ok, c) :=
        write_card_block 1 (sector_bytes count_sector_1)
                         sizeof_sd_count_sector c in
      (ok, count_sector_0, c)
    else (true, count_sector_0, c) in
  if negb ok then (false, c) else
  let count_sector_0 := advance count_sector_0 in
  let '(ok, c) :=
    write_card_block 0 (sector_bytes count_sector_0) sizeof_sd_count_sector c in
  if negb ok then (false, c) else
  let '(ok, c) :=
    write_card_block 1 (sector_bytes count_sector_0) sizeof_sd_count_sector c in
  if negb ok then (false, c) else
  let '(ok, c) :=
    write_card_block (uint32 (count count_sector_0 + 2)) data (length data) c in
  if negb ok then (false, c) else
  (true, c).

End Append.

(** *** The append as the specification words it

    Read both metadata blocks; when the counts disagree pick the side whose
    checksum matches its count (block 0 when neither does) and rewrite the
    losing block to match the winner; then increment, and write the new
    value to blocks 0 and 1 and the record to block (new count + 2). The
    result is the list of block writes, in order. *)

Definition spec_winner (s0 s1 : sd_count_sector) : sd_count_sector :=
  if crc s0 =? count_crc s0 then s0
  else if crc s1 =? count_crc s1 then s1
  else s0.

Definition spec_loser_index (s0 s1 : sd_count_sector) : Z :=
  if crc s0 =? count_crc s0 then 1
  else if crc s1 =? count_crc s1 then 0
  else 1.

Definition spec_append_writes (s0 s1 : sd_count_sector) (data : list Z)
  : list (Z * list Z) :=
  let winner := if count s0 =? count s1 then s0 else spec_winner s0 s1 in
  let repair :=
    if count s0 =? count s1 then []
    else [(spec_loser_index s0 s1, sector_bytes winner)] in
  let next := advance winner in
  repair ++ [ (0, sector_bytes next); (1, sector_bytes next);
              (uint32 (count next + 2), data) ].

(** *** A card on which every operation succeeds

    Blocks are 512 bytes; a write stores the caller's bytes padded with
    zeros and is entered in the list of writes, latest first. *)

Record ideal_card := {
  blocks : Z -> list Z;
  written : list (Z * list Z)
}.

Definition ideal_read (addr : Z) (size : nat) (c : ideal_card)
  : bool * list Z * ideal_card :=
  (true, firstn size (blocks c addr), c).

Definition ideal_write (addr : Z) (buffer : list Z) (size : nat)
  (c : ideal_card) : bool * ideal_card :=
  (true,
   {| blocks := fun a => if a =? addr
                         then SdCard.padded_block buffer size
                         else blocks c a;
      written := (addr, firstn size buffer) :: written c |}).

#[export] Instance ideal_device : BlockDevice ideal_card :=
  {| read_card_block := ideal_read; write_card_block := ideal_write |}.

(** The writes of a run, oldest first. *)
Definition writes_of (c : ideal_card) : list (Z * list Z) := rev (written c).

(** The contents of the blocks once a list of writes has been carried out
    in order. *)
Definition replay (writes : list (Z * list Z)) (store : Z -> list Z)
  : Z -> list Z :=
  fold_left
    (fun store '(addr, buffer) =>
       fun a => if a =? addr
                then SdCard.padded_block buffer (length buffer)
                else store a)
    writes store.

(** A card whose two metadata blocks hold the given sectors. *)
Definition card_with (s0 s1 : sd_count_sector) : ideal_card :=
  {| blocks := fun a => if a =? 0 then SdCard.padded_block (sector_bytes s0) 5
                        else if a =? 1 then SdCard.padded_block (sector_bytes s1) 5
                        else repeat 0 512;
     written := [] |}.

Definition valid_sector (n : Z) : sd_count_sector :=
  {| count := n; crc := Crc.calculate_crc8 (le32 n) |}.

(** A sector whose checksum does not match its count. *)
Definition torn_sector (n : Z) : sd_count_sector :=
  {| count := n; crc := uint8 (Crc.calculate_crc8 (le32 n) + 1) |}.

(** Scenario E: block 0 holds count 5 with a valid checksum, block 1 holds
    count 3 with an invalid one. *)
Definition scenario_E : ideal_card := card_with (valid_sector 5) (torn_sector 3).

(** The mirror case: block 1 is the valid side. *)
Definition block1_wins : ideal_card := card_with (torn_sector 3) (valid_sector 5).

Definition sample_record : list Z := [70; 90; 90; 88; 1; 2; 3].

End RecordLog.

(** ** Compressor control state machine *)

Module Freezer.

(** Temperatures are IEEE 754 values; on the target both [float] and
    [double] are binary32. Comparisons are those of the standard: every
    comparison with a NaN is false. *)
Definition temperature : Type := spec_float.

(** The value of an integer literal converted to floating point. *)
Definition celsius (z : Z) : temperature := binary_normalize 24 128 z 0 false.

(** [enum freezer_status] *)
Inductive freezer_status : Type :=
| off | cooling | reached_target | dead_time | compressor_max_runtime
| startup_delay | overheat.

(** [struct freezer_config] (the magic bytes, which the control loop never
    reads, are left out); the [int16_t] fields hold values in
    [-32768, 32767]. *)
Record freezer_config := {
  target_temperature : temperature;
  target_temperature_hysteresis_time : Z;   (* seconds *)
  compressor_dead_time : Z;                 (* minutes *)
  compressor_max_run_time : Z;              (* minutes *)
  compressor_max_temp : temperature;
  freezer_startup_delay : Z                 (* minutes *)
}.

(** [struct freezer_state] *)
Record freezer_state := {
  current_ntc1_temperature : temperature;
  current_ntc2_temperature : temperature;
  target_compressor_state : bool;
  actual_compressor_state : bool;
  status : freezer_status
}.

(** [struct freezer_state_data_point] *)
Record freezer_state_data_point := {
  ms_since_startup : Z;
  config : freezer_config;
  state : freezer_state;
  crc : Z
}.

Definition default_config : freezer_config :=
  {| target_temperature := celsius (-18);
     target_temperature_hysteresis_time := 60;
     compressor_dead_time := 5;
     compressor_max_run_time := 300;
     compressor_max_temp := celsius 45;
     freezer_startup_delay := 2 |}.

Definition initial_state : freezer_state :=
  {| current_ntc1_temperature := S754_zero false;
     current_ntc2_temperature := S754_zero false;
     target_compressor_state := false;
     actual_compressor_state := false;
     status := off |}.

Section Control.
Context {card : Type} {dev : BlockDevice card}.

(** The byte image of a record as the compiler lays the struct out. *)
Variable layout : freezer_state_data_point -> list Z.

(** The global variables the control loop reads and writes, the level of
    the relay pin, the millisecond counter and the card. The counter is set
    by the environment; between the validation of the readings and the
    timestamp of the record a tick computes without input or output, and
    every [millis()] of that stretch reads the same value, [millis]. *)
Record world := {
  active_config : freezer_config;
  dirty_config : freezer_config;
  config_is_dirty : bool;
  current_state : freezer_state;
  compressor_turned_on_at : Z;
  compressor_turned_off_at : Z;
  reached_target_temperature_at : Z;
  state_updated_at : Z;
  exceeded_max_runtime_at : Z;
  startup_delay_over : bool;
  logging_enabled : bool;
  compressor_relay : bool;
  millis : Z;
  sd : card
}.

Definition set_configs (a d : freezer_config) (dirty : bool) (w : world) :=
  {| active_config := a; dirty_config := d; config_is_dirty := dirty;
     current_state := current_state w;
     compressor_turned_on_at := compressor_turned_on_at w;
     compressor_turned_off_at := compressor_turned_off_at w;
     reached_target_temperature_at := reached_target_temperature_at w;
     state_updated_at := state_updated_at w;
     exceeded_max_runtime_at := exceeded_max_runtime_at w;
     startup_delay_over := startup_delay_over w;
     logging_enabled := logging_enabled w;
     compressor_relay := compressor_relay w;
     millis := millis w; sd := sd w |}.

Definition set_current_state (s : freezer_state) (w : world) :=
  {| active_config := active_config w; dirty_config := dirty_config w;
     config_is_dirty := config_is_dirty w;
     current_state := s;
     compressor_turned_on_at := compressor_turned_on_at w;
     compressor_turned_off_at := compressor_turned_off_at w;
     reached_target_temperature_at := reached_target_temperature_at w;
     state_updated_at := state_updated_at w;
     exceeded_max_runtime_at := exceeded_max_runtime_at w;
     startup_delay_over := startup_delay_over w;
     logging_enabled := logging_enabled w;
     compressor_relay := compressor_relay w;
     millis := millis w; sd := sd w |}.

(** The two timers written by [set_compressor]. *)
Definition set_compressor_timers (on_at off_at : Z) (w : world) :=
  {| active_config := active_config w; dirty_config := dirty_config w;
     config_is_dirty := config_is_dirty w;
     current_state := current_state w;
     compressor_turned_on_at := on_at;
     compressor_turned_off_at := off_at;
     reached_target_temperature_at := reached_target_temperature_at w;
     state_updated_at := state_updated_at w;
     exceeded_max_runtime_at := exceeded_max_runtime_at w;
     startup_delay_over := startup_delay_over w;
     logging_enabled := logging_enabled w;
     compressor_relay := compressor_relay w;
     millis := millis w; sd := sd w |}.

Definition set_reached_target_temperature_at (t : Z) (w : world) :=
  {| active_config := active_config w; dirty_config := dirty_config w;
     config_is_dirty := config_is_dirty w;
     current_state := current_state w;
     compressor_turned_on_at := compressor_turned_on_at w;
     compressor_turned_off_at := compressor_turned_off_at w;
     reached_target_temperature_at := t;
     state_updated_at := state_updated_at w;
     exceeded_max_runtime_at := exceeded_max_runtime_at w;
     startup_delay_over := startup_delay_over w;
     logging_enabled := logging_enabled w;
     compressor_relay := compressor_relay w;
     millis := millis w; sd := sd w |}.

Definition set_state_updated_at (t : Z) (w : world) :=
  {| active_config := active_config w; dirty_config := dirty_config w;
     config_is_dirty := config_is_dirty w;
     current_state := current_state w;
     compressor_turned_on_at := compressor_turned_on_at w;
     compressor_turned_off_at := compressor_turned_off_at w;
     reached_target_temperature_at := reached_target_temperature_at w;
     state_updated_at := t;
     exceeded_max_runtime_at := exceeded_max_runtime_at w;
     startup_delay_over := startup_delay_over w;
     logging_enabled := logging_enabled w;
     compressor_relay := compressor_relay w;
     millis := millis w; sd := sd w |}.

Definition set_exceeded_max_runtime_at (t : Z) (w : world) :=
  {| active_config := active_config w; dirty_config := dirty_config w;
     config_is_dirty := config_is_dirty w;
     current_state := current_state w;
     compressor_turned_on_at := compressor_turned_on_at w;
     compressor_turned_off_at := compressor_turned_off_at w;
     reached_target_temperature_at := reached_target_temperature_at w;
     state_updated_at := state_updated_at w;
     exceeded_max_runtime_at := t;
     startup_delay_over := startup_delay_over w;
     logging_enabled := logging_enabled w;
     compressor_relay := compressor_relay w;
     millis := millis w; sd := sd w |}.

Definition set_startup_delay_over (b : bool) (w : world) :=
  {| active_config := active_config w; dirty_config := dirty_config w;
     config_is_dirty := config_is_dirty w;
     current_state := current_state w;
     compressor_turned_on_at := compressor_turned_on_at w;
     compressor_turned_off_at := compressor_turned_off_at w;
     reached_target_temperature_at := reached_target_temperature_at w;
     state_updated_at := state_updated_at w;
     exceeded_max_runtime_at := exceeded_max_runtime_at w;
     startup_delay_over := b;
     logging_enabled := logging_enabled w;
     compressor_relay := compressor_relay w;
     millis := millis w; sd := sd w |}.

(** [digitalWrite(COMPRESSOR_RELAY, level)] *)
Definition set_compressor_relay (level : bool) (w : world) :=
  {| active_config := active_config w; dirty_config := dirty_config w;
     config_is_dirty := config_is_dirty w;
     current_state := current_state w;
     compressor_turned_on_at := compressor_turned_on_at w;
     compressor_turned_off_at := compressor_turned_off_at w;
     reached_target_temperature_at := reached_target_temperature_at w;
     state_updated_at := state_updated_at w;
     exceeded_max_runtime_at := exceeded_max_runtime_at w;
     startup_delay_over := startup_delay_over w;
     logging_enabled := logging_enabled w;
     compressor_relay := level;
     millis := millis w; sd := sd w |}.

(** The environment advances the millisecond counter. *)
Definition set_millis (t : Z) (w : world) :=
  {| active_config := active_config w; dirty_config := dirty_config w;
     config_is_dirty := config_is_dirty w;
     current_state := current_state w;
     compressor_turned_on_at := compressor_turned_on_at w;
     compressor_turned_off_at := compressor_turned_off_at w;
     reached_target_temperature_at := reached_target_temperature_at w;
     state_updated_at := state_updated_at w;
     exceeded_max_runtime_at := exceeded_max_runtime_at w;
     startup_delay_over := startup_delay_over w;
     logging_enabled := logging_enabled w;
     compressor_relay := compressor_relay w;
     millis := uint32 t; sd := sd w |}.

Definition set_sd (c : card) (w : world) :=
  {| active_config := active_config w; dirty_config := dirty_config w;
     config_is_dirty := config_is_dirty w;
     current_state := current_state w;
     compressor_turned_on_at := compressor_turned_on_at w;
     compressor_turned_off_at := compressor_turned_off_at w;
     reached_target_temperature_at := reached_target_temperature_at w;
     state_updated_at := state_updated_at w;
     exceeded_max_runtime_at := exceeded_max_runtime_at w;
     startup_delay_over := startup_delay_over w;
     logging_enabled := logging_enabled w;
     compressor_relay := compressor_relay w;
     millis := millis w; sd := c |}.

(** Updates of single fields of [current_state]. *)
Definition with_temperatures (t1 t2 : temperature) (s : freezer_state) :=
  {| current_ntc1_temperature := t1; current_ntc2_temperature := t2;
     target_compressor_state := target_compressor_state s;
     actual_compressor_state := actual_compressor_state s;
     status := status s |}.

Definition with_target (b : bool) (st : freezer_status) (s : freezer_state) :=
  {| current_ntc1_temperature := current_ntc1_temperature s;
     current_ntc2_temperature := current_ntc2_temperature s;
     target_compressor_state := b;
     actual_compressor_state := actual_compressor_state s;
     status := st |}.

Definition with_actual (b : bool) (s : freezer_state) :=
  {| current_ntc1_temperature := current_ntc1_temperature s;
     current_ntc2_temperature := current_ntc2_temperature s;
     target_compressor_state := target_compressor_state s;
     actual_compressor_state := b;
     status := status s |}.

Definition with_status (st : freezer_status) (s : freezer_state) :=
  {| current_ntc1_temperature := current_ntc1_temperature s;
     current_ntc2_temperature := current_ntc2_temperature s;
     target_compressor_state := target_compressor_state s;
     actual_compressor_state := actual_compressor_state s;
     status := st |}.

Definition set_status (st : freezer_status) (w : world) : world :=
  set_current_state (with_status st (current_state w)) w.

(** *** Conversions of the configured durations

    [(uint32_t)x] of an [int16_t] followed by unsigned multiplications. *)

Definition startup_delay_ms (c : freezer_config) : Z :=
  uint32 (uint32 (uint32 (freezer_startup_delay c) * 60) * 1000).

Definition hysteresis_ms (c : freezer_config) : Z :=
  uint32 (uint32 (target_temperature_hysteresis_time c) * 1000).

Definition max_run_time_ms (c : freezer_config) : Z :=
  uint32 (uint32 (uint32 (compressor_max_run_time c) * 1000) * 60).

Definition dead_time_ms (c : freezer_config) : Z :=
  uint32 (uint32 (uint32 (compressor_dead_time c) * 1000) * 60).

(** *** Predicates of the state machine *)

Definition is_compressor_overheating (w : world) : bool :=
  SFleb (compressor_max_temp (active_config w))
        (current_ntc2_temperature (current_state w)).

Definition is_startup_delay_over (w : world) : bool :=
  millis w >=? startup_delay_ms (active_config w).

Definition is_compressor_on (w : world) : bool :=
  actual_compressor_state (current_state w).

Definition is_within_target_temperature (w : world) : bool :=
  SFleb (current_ntc1_temperature (current_state w))
        (target_temperature (active_config w)).

Definition has_hysteresis_time_elapsed (w : world) : bool :=
  uint32 (millis w - reached_target_temperature_at w)
  >=? hysteresis_ms (active_config w).

Definition has_dead_time_elapsed (w : world) : bool :=
  if compressor_turned_off_at w =? 0 then true
  else uint32 (millis w - compressor_turned_off_at w)
       >=? dead_time_ms (active_config w).

(** [has_compressor_exceeded_max_runtime]: the answer and the world with
    [exceeded_max_runtime_at] updated. *)
Definition has_compressor_exceeded_max_runtime (w : world) : bool * world :=
  if exceeded_max_runtime_at w >? 0 then
    if has_dead_time_elapsed w
    then (false, set_exceeded_max_runtime_at 0 w)
    else (true, w)
  else
    if is_compressor_on w then
      if uint32 (millis w - compressor_turned_on_at w)
         >=? max_run_time_ms (active_config w)
      then (true, set_exceeded_max_runtime_at (millis w) w)
      else (false, set_exceeded_max_runtime_at 0 w)
    else (false, set_exceeded_max_runtime_at 0 w).

(** [set_compressor(state)] *)
Definition set_compressor (state : bool) (w : world) : world :=
  if negb (Bool.eqb state (actual_compressor_state (current_state w))) then
    let w :=
      if state
      then set_compressor_timers (millis w) 0 w
      else set_compressor_timers 0 (millis w) w in
    let w := set_compressor_relay state w in
    set_current_state (with_actual state (current_state w)) w
  else w.

(** *** Sensors

    [read_sensors]: each channel is read ten times and averaged; [ntc_1 k]
    and [ntc_2 k] are the values of the k-th conversion of this tick. *)

Definition average10 (read : nat -> temperature) : temperature :=
  SFdiv 24 128
        (fold_left (fun avg i => SFadd 24 128 avg (read i)) (seq 0 10)
                   (S754_zero false))
        (celsius 10).

Definition read_sensors (ntc_1 ntc_2 : nat -> temperature) (w : world)
  : world :=
  set_current_state
    (with_temperatures (average10 ntc_1) (average10 ntc_2) (current_state w)) w.

(** *** Halting

    [halt] ends in [for(;;);] and never returns: a run is either still
    running or halted with the error shown. *)

Inductive sensor_error : Type := N1 | N2.

Inductive machine : Type :=
| Running (w : world)
| Halted (error : sensor_error) (w : world).

Definition halt (error : sensor_error) (w : world) : machine :=
  Halted error (set_compressor false w).

(** The two range checks of [validate_temperatures]. *)
Definition ntc1_out_of_range (w : world) : bool :=
  SFltb (current_ntc1_temperature (current_state w)) (celsius (-100))
  || SFltb (celsius 100) (current_ntc1_temperature (current_state w)).

Definition ntc2_out_of_range (w : world) : bool :=
  SFltb (celsius 100) (current_ntc2_temperature (current_state w)).

Definition validate_temperatures (w : world) : machine :=
  if ntc1_out_of_range w then halt N1 w
  else if ntc2_out_of_range w then halt N2 w
  else Running w.

(** *** Telemetry *)

(** The record built by [log_state], checksum included. *)
Definition data_point_of (w : world) : freezer_state_data_point :=
  let data_point :=
    {| ms_since_startup := millis w; config := active_config w;
       state := current_state w; crc := 0 |} in
  {| ms_since_startup := millis w; config := active_config w;
     state := current_state w;
     crc := Crc.calculate_crc8 (layout data_point) |}.

(** [log_state]; the result of [save_data_point] is dropped. *)
Definition log_state (w : world) : world :=
  if negb (logging_enabled w) then w
  else
    set_sd (snd (RecordLog.save_data_point (layout (data_point_of w)) (sd w))) w.

(** *** One tick *)

(** The block headed "base decision-making". *)
Definition base_decision (w : world) : world :=
  if is_within_target_temperature w then
    let w :=
      if reached_target_temperature_at w =? 0
      then set_reached_target_temperature_at (millis w) w
      else w in
    if has_hysteresis_time_elapsed w
    then set_current_state (with_target false reached_target (current_state w)) w
    else set_current_state (with_target true cooling (current_state w)) w
  else
    let w := set_reached_target_temperature_at 0 w in
    set_current_state (with_target true cooling (current_state w)) w.

(** The block headed "overrides": the value of [override] and the world. *)
Definition overrides (w : world) : bool * world :=
  if target_compressor_state (current_state w) then
    if is_compressor_overheating w then (true, set_status overheat w)
    else
      let '(exceeded, w) := has_compressor_exceeded_max_runtime w in
      if exceeded then (true, set_status compressor_max_runtime w)
      else if negb (is_compressor_on w) && negb (has_dead_time_elapsed w)
      then (true, set_status dead_time w)
      else (false, w)
  else (false, w).

(** The decision of a tick past the startup gate, up to the actuation. *)
Definition decide (w : world) : world :=
  let w := base_decision w in
  let '(override, w) := overrides w in
  set_compressor (target_compressor_state (current_state w) && negb override) w.

(** The body of [update_state] once the sensors have been read:
    validation, the startup gate, the decision, telemetry. *)
Definition evaluate (w : world) : machine :=
  match validate_temperatures w with
  | Halted error w => Halted error w
  | Running w =>
    if negb (startup_delay_over w) then
      let w := set_startup_delay_over (is_startup_delay_over w) w in
      let w := set_status startup_delay w in
      Running (log_state w)
    else
      Running (log_state (decide w))
  end.

(** [update_state] *)
Definition update_state (ntc_1 ntc_2 : nat -> temperature) (w : world)
  : machine :=
  evaluate (read_sensors ntc_1 ntc_2 w).

(** *** The main loop *)

(** What the environment supplies to one pass of [loop]: the clock as
    read by the test at the top, during the tick (after the conversions of
    the sensors), and when the time of the tick is stored (after the record
    has been written); the conversions of the two sensors; and the
    configuration the user has just finished editing, if any. *)
Record input := {
  in_millis : Z;
  in_millis_tick : Z;
  in_millis_done : Z;
  in_ntc_1 : nat -> temperature;
  in_ntc_2 : nat -> temperature;
  in_edit : option freezer_config
}.

(** Leaving edit mode stores the edited copy and marks it dirty. *)
Definition handle_input (i : input) (w : world) : world :=
  match in_edit i with
  | Some c => set_configs (active_config w) c true w
  | None => w
  end.

(** [loop]; once halted, control never comes back to it. *)
Definition loop (i : input) (m : machine) : machine :=
  match m with
  | Halted error w => Halted error w
  | Running w =>
    if uint32 (uint32 (in_millis i) - state_updated_at w) >=? 1000 then
      let w :=
        if config_is_dirty w
        then set_configs (dirty_config w) (dirty_config w) false w
        else w in
      match update_state (in_ntc_1 i) (in_ntc_2 i)
                         (set_millis (in_millis_tick i) w) with
      | Halted error w => Halted error w
      | Running w =>
        Running (handle_input i
                   (set_state_updated_at (uint32 (in_millis_done i)) w))
      end
    else Running (handle_input i w)
  end.

Definition run (inputs : list input) (m : machine) : machine :=
  fold_left (fun m i => loop i m) inputs m.

(** The world of a machine, running or halted. *)
Definition world_of (m : machine) : world :=
  match m with Running w => w | Halted _ w => w end.

(** The globals after [setup]: the configuration loaded, logging enabled
    or not by [initialize_logging], the relay driven low. *)
Definition boot (c : freezer_config) (logging : bool) (s : card) : world :=
  {| active_config := c; dirty_config := c; config_is_dirty := false;
     current_state := initial_state;
     compressor_turned_on_at := 0; compressor_turned_off_at := 0;
     reached_target_temperature_at := 0; state_updated_at := 0;
     exceeded_max_runtime_at := 0; startup_delay_over := false;
     logging_enabled := logging; compressor_relay := false;
     millis := 0; sd := s |}.

(** The machines a run from [setup] can be in. *)
Inductive reachable : machine -> Prop :=
| reach_boot c logging s : reachable (Running (boot c logging s))
| reach_loop i m : reachable m -> reachable (loop i m).

(** *** Notions used to state the properties *)

(** The timer the target evaluation leaves, given the one it found. *)
Definition timer_after (w : world) : Z :=
  if is_within_target_temperature w
  then if reached_target_temperature_at w =? 0
       then millis w else reached_target_temperature_at w
  else 0.

(** Within target, and the dwell time has elapsed since the timer started. *)
Definition dwelled (w : world) : bool :=
  is_within_target_temperature w
  && (uint32 (millis w - timer_after w) >=? hysteresis_ms (active_config w)).

(** The relay pin and the timers agree with the recorded compressor
    state: the pin shows the state, a running compressor has no off
    timestamp, a stopped one no on timestamp, and before the startup delay
    is over the compressor is off. *)
Definition consistent (w : world) : Prop :=
  compressor_relay w = actual_compressor_state (current_state w)
  /\ (actual_compressor_state (current_state w) = true ->
      compressor_turned_off_at w = 0)
  /\ (actual_compressor_state (current_state w) = false ->
      compressor_turned_on_at w = 0)
  /\ (startup_delay_over w = false ->
      actual_compressor_state (current_state w) = false).

(** The part of the world [consistent] speaks of. *)
Definition core (w : world) : bool * bool * Z * Z * bool :=
  (compressor_relay w, actual_compressor_state (current_state w),
   compressor_turned_on_at w, compressor_turned_off_at w,
   startup_delay_over w).

(** The sensor fault of a pass of [loop], read off its input: the averaged
    primary reading below -100 or above 100, or the averaged secondary
    reading above 100. *)
Definition primary_fault (i : input) : bool :=
  SFltb (average10 (in_ntc_1 i)) (celsius (-100))
  || SFltb (celsius 100) (average10 (in_ntc_1 i)).

Definition secondary_fault (i : input) : bool :=
  SFltb (celsius 100) (average10 (in_ntc_2 i)).

(** A tick is due on this pass. *)
Definition tick_due (i : input) (w : world) : bool :=
  uint32 (uint32 (in_millis i) - state_updated_at w) >=? 1000.

End Control.

Arguments world card : clear implicits.
Arguments machine card : clear implicits.

End Freezer.

(** ** Concrete runs

    The worlds and inputs on which the scenarios of the specification are
    evaluated: the default configuration, a card whose two counters agree on
    zero, and sensors that deliver the same value ten times. *)

Module Scenario.
Import Freezer.

(** A byte image for the examples: the start marker, the milliseconds, the
    status, the two compressor flags and the checksum. *)
Definition status_code (st : freezer_status) : Z :=
  match st with
  | off => 0 | cooling => 1 | reached_target => 2 | dead_time => 3
  | compressor_max_runtime => 4 | startup_delay => 5 | overheat => 6
  end.

Definition sketch_layout (d : freezer_state_data_point) : list Z :=
  [70; 90; 90; 88] ++ RecordLog.le32 (ms_since_startup d)
  ++ [ status_code (status (state d));
       if target_compressor_state (state d) then 1 else 0;
       if actual_compressor_state (state d) then 1 else 0;
       uint8 (crc d) ].

Definition empty_card : RecordLog.ideal_card :=
  RecordLog.card_with (RecordLog.valid_sector 0) (RecordLog.valid_sector 0).

(** A sensor that reads [z] degrees at every conversion. *)
Definition steady (z : Z) : nat -> temperature := fun _ => celsius z.

(** A world past the startup gate, logging enabled, with the given
    compressor state, timers and clock. *)
Definition past_startup (on : bool) (on_at off_at reached_at exceeded_at now : Z)
  : world RecordLog.ideal_card :=
  {| active_config := default_config; dirty_config := default_config;
     config_is_dirty := false;
     current_state :=
       {| current_ntc1_temperature := celsius (-10);
          current_ntc2_temperature := celsius 30;
          target_compressor_state := on;
          actual_compressor_state := on;
          status := if on then cooling else off |};
     compressor_turned_on_at := on_at;
     compressor_turned_off_at := off_at;
     reached_target_temperature_at := reached_at;
     state_updated_at := uint32 (now - 1000);
     exceeded_max_runtime_at := exceeded_at;
     startup_delay_over := true;
     logging_enabled := true;
     compressor_relay := on;
     millis := now;
     sd := empty_card |}.

(** An input of [loop] whose tick reads the clock at [now]: the test at the
    top of the loop came 4 ms earlier, the record is on the card 30 ms
    later; the two sensors are steady. *)
Definition at_time (now primary secondary : Z) : input :=
  {| in_millis := now - 4; in_millis_tick := now; in_millis_done := now + 30;
     in_ntc_1 := steady primary;
     in_ntc_2 := steady secondary; in_edit := None |}.

(** Scenario A a millisecond before and at the end of the dwell time:
    within target since the clock read 1000, hysteresis 60 s. *)
Definition dwelling : world RecordLog.ideal_card :=
  past_startup true 500 0 1000 0 60999.

Definition dwelt : world RecordLog.ideal_card :=
  past_startup true 500 0 1000 0 61000.

(** Scenario B: running since the clock read 1000, the maximum run time of
    300 minutes reached; then one second and 300 seconds into the dead
    time that follows. *)
Definition overdue : world RecordLog.ideal_card :=
  past_startup true 1000 0 0 0 18001000.

Definition cooling_down : world RecordLog.ideal_card :=
  past_startup false 0 18001000 0 18001000 18002000.

Definition cooled_down : world RecordLog.ideal_card :=
  past_startup false 0 18001000 0 18001000 18301000.

(** Scenario C: the compressor body at 61 degrees with the maximum run time
    reached as well. *)
Definition overheated : world RecordLog.ideal_card :=
  set_current_state
    (with_temperatures (celsius (-10)) (celsius 61) (current_state overdue))
    overdue.

(** Scenario B with the counter about to wrap: running since
    2^32 - 18000000, the last tick at 2^32 - 1000, so that the maximum run
    time is reached on the tick at which the clock reads 0. *)
Definition before_wrap : world RecordLog.ideal_card :=
  past_startup true 4276967296 0 0 0 4294966296.

(** The first pass of the loop after [setup], one second in. *)
Definition fresh : world RecordLog.ideal_card :=
  boot default_config true empty_card.

(** What a run shows of a machine: halted or not, the status, the commanded
    and the actual compressor state, the relay, and the number of block
    writes the card has seen. *)
Definition observe (m : machine RecordLog.ideal_card)
  : bool * freezer_status * bool * bool * bool * nat :=
  let w := world_of m in
  (match m with Halted _ _ => true | Running _ => false end,
   status (current_state w),
   target_compressor_state (current_state w),
   actual_compressor_state (current_state w),
   compressor_relay w,
   length (RecordLog.written (sd w))).

End Scenario.

(** ** Initialisation of the storage card *)

Module SdInit.
Import SdCard.

(** The retry loop of [init_sd_card]: CMD55, then ACMD41, at most [retries]
    times. The result [false] is the [return false] inside the loop, with
    chip select driven high; [true] means that the loop has been left, by
    [break] or with the retries used up. *)
Fixpoint init_retry_loop (fuel retries : nat) (b : bus) : option (bool * bus) :=
  match retries with
  | O => Some (true, b)
  | S retries' =>
    match send_card_command fuel 55 0 0x01 b with
    | None => None
    | Some b1 =>
      let '(response, b2) := read_card_response b1 in
      if negb (response =? 0x01) then Some (false, set_cs true b2)
      else
        match send_card_command fuel 41 0x40000000 0x01 b2 with
        | None => None
        | Some b3 =>
          let '(response, b4) := read_card_response b3 in
          if response =? 0x00 then Some (true, b4)
          else init_retry_loop fuel retries' b4
        end
    end
  end.

(** [init_sd_card]. The [delay(300)] before the first transfer is time that
    passes without a transfer: it is part of what [clock] reports. *)
Definition init_sd_card (fuel : nat) (b : bus) : option (bool * bus) :=
  let b := set_cs true b in
  let b := send_bytes (repeat 0xFF 10) b in
  let b := set_cs false b in
  match send_card_command fuel 0 0 0x95 b with
  | None => None
  | Some b1 =>
    let '(response, b2) := read_card_response b1 in
    if negb (response =? 0x01) then Some (false, set_cs true b2)
    else
      match send_card_command fuel 8 0x01AA 0x87 b2 with
      | None => None
      | Some b3 =>
        let '(response, b4) := read_card_response b3 in
        if negb (response =? 0x01) then Some (false, set_cs true b4)
        else
          match init_retry_loop fuel 3 b4 with
          | None => None
          | Some (false, b5) => Some (false, b5)
          | Some (true, b5) =>
            Some (true, send_bytes [0xFF] (set_cs true b5))
          end
      end
  end.

(** [initialize_logging]: the value of [logging_enabled] afterwards. *)
Definition initialize_logging (fuel : nat) (b : bus) : option (bool * bus) :=
  match init_sd_card fuel b with
  | None => None
  | Some (ok, b') => Some (if ok then true else false, b')
  end.

(** One command and its response on a card that is ready at once and
    answers with the first byte: eight transfers. *)
Definition exchange (cmd arg crc : Z) (b : bus) : bus :=
  send_bytes (0xFF :: command_frame cmd arg crc ++ [0xFF]) b.

(** The answer of the retry loop, read off the responses [r e] to the
    commands from the [e]-th on. *)
Fixpoint retries_pass (r : nat -> Z) (retries e : nat) : bool :=
  match retries with
  | O => true
  | S retries' =>
    (r e =? 0x01) && ((r (S e) =? 0x00) || retries_pass r retries' (S (S e)))
  end.

(** A card that takes a block write: ready, command accepted at once, data
    accepted, busy for two bytes. *)
Definition accepting_card : bus :=
  idle_bus (fun n => if (n =? 0)%nat then 0xFF
                     else if (n =? 523)%nat then 0xE5
                     else if (n <? 526)%nat then 0x00 else 0xFF)
           (fun n => Z.of_nat n / 32).

(** A card that answers every command with "illegal command". *)
Definition rejecting_card : bus :=
  idle_bus (fun n => if (n =? 7)%nat then 0x05 else 0xFF)
           (fun n => Z.of_nat n / 32).

(** A card that answers every command of [init_sd_card] with 0x01, "in idle
    state", and so never reports that it has left it. *)
Definition never_ready_card : bus :=
  idle_bus (fun n => if (n mod 8 =? 1)%nat then 0x01 else 0xFF)
           (fun n => 300 + Z.of_nat n / 32).

End SdInit.

(** ** Runs of the record log *)

Module LogRuns.
Import RecordLog.

(** The sector a metadata block of the card holds. *)
Definition sector_at (c : ideal_card) (a : Z) : sd_count_sector :=
  sector_of_bytes (firstn sizeof_sd_count_sector (blocks c a)).

(** One append per record, in order, the results dropped as [log_state]
    drops them. *)
Definition append_all (records : list (list Z)) (c : ideal_card) : ideal_card :=
  fold_left (fun c data => snd (save_data_point data c)) records c.

(** *** A card that stops answering

    The card takes [budget] more block operations and fails every one
    after that, leaving its blocks as they are. *)

Record failing_card := {
  inner : ideal_card;
  budget : nat
}.

Definition failing_read (addr : Z) (size : nat) (c : failing_card)
  : bool * list Z * failing_card :=
  match budget c with
  | O => (false, [], c)
  | S k =>
    let '(ok, buffer, s) := ideal_read addr size (inner c) in
    (ok, buffer, {| inner := s; budget := k |})
  end.

Definition failing_write (addr : Z) (buffer : list Z) (size : nat)
  (c : failing_card) : bool * failing_card :=
  match budget c with
  | O => (false, c)
  | S k =>
    let '(ok, s) := ideal_write addr buffer size (inner c) in
    (ok, {| inner := s; budget := k |})
  end.

#[export] Instance failing_device : BlockDevice failing_card :=
  {| read_card_block := failing_read; write_card_block := failing_write |}.

(** The block writes of a complete append on a card whose metadata blocks
    hold [s0] and [s1], in the order the code issues them. *)
Definition append_writes (s0 s1 : sd_count_sector) (data : list Z)
  : list (Z * list Z) :=
  let winner := if count s0 =? count s1 then s0 else spec_winner s0 s1 in
  let next := advance winner in
  (if count s0 =? count s1 then [] else [(1, sector_bytes winner)])
  ++ [ (0, sector_bytes next); (1, sector_bytes next);
       (uint32 (count next + 2), data) ].

End LogRuns.

(** ** Configuration menu

    The rotary encoder and its push button: the screens, the edit mode, the
    limits of the six configuration values, and the copy of the
    configuration kept in the EEPROM. *)

Module Menu.
Import Freezer.

(** Values of the signed integer types, with the wrap-around of a
    conversion to the type. *)
Definition int8 (z : Z) : Z := (z + 128) mod 256 - 128.
Definition int16 (z : Z) : Z := (z + 32768) mod 65536 - 32768.
Definition int32 (z : Z) : Z := (z + 2147483648) mod 4294967296 - 2147483648.

(** Conversion of a floating-point value to an integer type: the fraction
    is dropped. *)
Definition truncate (f : spec_float) : Z :=
  match f with
  | S754_finite s m e =>
    let v := if 0 <=? e then Z.pos m * 2 ^ e else Z.pos m / 2 ^ (- e) in
    if s then - v else v
  | _ => 0
  end.

(** What the [void* value] of a menu entry points to. In the table the flag
    [is_float] is set exactly for the two [float] fields, so the pointer and
    the flag together are a reference tagged with the type of the field. *)
Inductive float_field := target_temperature_field | compressor_max_temp_field.

Inductive int16_field :=
| hysteresis_time_field | dead_time_field | max_run_time_field
| startup_delay_field.

Inductive value_ref :=
| float_value (f : float_field)
| int16_value (f : int16_field).

(** [struct menu_entry] (the two strings shown on the screen are left
    out) *)
Record menu_entry := {
  value : value_ref;
  increment : spec_float;
  min : spec_float;
  max : spec_float
}.

Definition is_float (e : menu_entry) : bool :=
  match value e with float_value _ => true | int16_value _ => false end.

Definition menu_entries : list menu_entry :=
  [ {| value := float_value target_temperature_field;
       increment := celsius 1; min := celsius (-22); max := celsius (-10) |};
    {| value := int16_value hysteresis_time_field;
       increment := celsius 10; min := celsius 5; max := celsius 350 |};
    {| value := int16_value dead_time_field;
       increment := celsius 1; min := celsius 2; max := celsius 20 |};
    {| value := int16_value max_run_time_field;
       increment := celsius 10; min := celsius 60; max := celsius 600 |};
    {| value := float_value compressor_max_temp_field;
       increment := celsius 1; min := celsius 30; max := celsius 60 |};
    {| value := int16_value startup_delay_field;
       increment := celsius 1; min := celsius 0; max := celsius 20 |} ].

(** [menu_entries[i]]; [None] is an index outside the array. *)
Definition entry_at (i : Z) : option menu_entry :=
  if i <? 0 then None else nth_error menu_entries (Z.to_nat i).

Definition read_float (f : float_field) (c : freezer_config) : temperature :=
  match f with
  | target_temperature_field => target_temperature c
  | compressor_max_temp_field => compressor_max_temp c
  end.

Definition write_float (f : float_field) (v : temperature) (c : freezer_config)
  : freezer_config :=
  match f with
  | target_temperature_field =>
    {| target_temperature := v;
       target_temperature_hysteresis_time := target_temperature_hysteresis_time c;
       compressor_dead_time := compressor_dead_time c;
       compressor_max_run_time := compressor_max_run_time c;
       compressor_max_temp := compressor_max_temp c;
       freezer_startup_delay := freezer_startup_delay c |}
  | compressor_max_temp_field =>
    {| target_temperature := target_temperature c;
       target_temperature_hysteresis_time := target_temperature_hysteresis_time c;
       compressor_dead_time := compressor_dead_time c;
       compressor_max_run_time := compressor_max_run_time c;
       compressor_max_temp := v;
       freezer_startup_delay := freezer_startup_delay c |}
  end.

Definition read_int16 (f : int16_field) (c : freezer_config) : Z :=
  match f with
  | hysteresis_time_field => target_temperature_hysteresis_time c
  | dead_time_field => compressor_dead_time c
  | max_run_time_field => compressor_max_run_time c
  | startup_delay_field => freezer_startup_delay c
  end.

Definition write_int16 (f : int16_field) (v : Z) (c : freezer_config)
  : freezer_config :=
  {| target_temperature := target_temperature c;
     target_temperature_hysteresis_time :=
       match f with hysteresis_time_field => v
                  | _ => target_temperature_hysteresis_time c end;
     compressor_dead_time :=
       match f with dead_time_field => v | _ => compressor_dead_time c end;
     compressor_max_run_time :=
       match f with max_run_time_field => v | _ => compressor_max_run_time c end;
     compressor_max_temp := compressor_max_temp c;
     freezer_startup_delay :=
       match f with startup_delay_field => v | _ => freezer_startup_delay c end |}.

(** The bytes of a [freezer_config] in the EEPROM, seen through the struct:
    the magic bytes and the fields. *)
Record eeprom_image := {
  magic_bytes : list Z;
  stored : freezer_config
}.

(** "F002" *)
Definition F002 : list Z := [70; 48; 48; 50].

(** [memcmp(a, b, 4) == 0] on two arrays of four bytes. *)
Definition same_bytes (a b : list Z) : bool :=
  if list_eq_dec Z.eq_dec a b then true else false.

(** The globals the menu reads and writes, and the EEPROM. *)
Record ui := {
  screen_index : Z;
  edit_mode : bool;
  screen_should_refresh : bool;
  showing_new_screen : bool;
  last_encoder_position : Z;
  edit_mode_toggled_at : Z;
  active_config : freezer_config;
  dirty_config : freezer_config;
  config_is_dirty : bool;
  eeprom : eeprom_image
}.

Definition HOME_SCREEN : Z := 0.
Definition INFO_SCREEN : Z := 7.

(** [save_dirty_config]: a [freezer_config] in memory always carries the
    magic bytes "F002". *)
Definition save_dirty_config (u : ui) : ui :=
  {| screen_index := screen_index u; edit_mode := edit_mode u;
     screen_should_refresh := screen_should_refresh u;
     showing_new_screen := showing_new_screen u;
     last_encoder_position := last_encoder_position u;
     edit_mode_toggled_at := edit_mode_toggled_at u;
     active_config := active_config u;
     dirty_config := dirty_config u;
     config_is_dirty := config_is_dirty u;
     eeprom := {| magic_bytes := F002; stored := dirty_config u |} |}.

(** [load_config]: the two copies of the configuration and the EEPROM
    afterwards (the flash of the two LEDs on a reset is left out). *)
Definition load_config (e : eeprom_image)
  : freezer_config * freezer_config * eeprom_image :=
  if negb (same_bytes (magic_bytes e) F002)
  then (default_config, default_config,
        {| magic_bytes := F002; stored := default_config |})
  else (stored e, stored e, e).

(** The menu after [setup]. *)
Definition setup (e : eeprom_image) : ui :=
  let '(active, dirty, e') := load_config e in
  {| screen_index := 0; edit_mode := false;
     screen_should_refresh := true; showing_new_screen := true;
     last_encoder_position := 0; edit_mode_toggled_at := 0;
     active_config := active; dirty_config := dirty;
     config_is_dirty := false; eeprom := e' |}.

(** The new value of a [float] entry. *)
Definition step_float (e : menu_entry) (direction : bool) (v : temperature)
  : temperature :=
  let v := if direction then SFadd 24 128 v (increment e)
           else SFsub 24 128 v (increment e) in
  if SFltb v (min e) then max e
  else if SFltb (max e) v then min e
  else v.

(** The new value of an [int16_t] entry. *)
Definition step_int16 (e : menu_entry) (direction : bool) (v : Z) : Z :=
  let v := if direction then int16 (v + int16 (truncate (increment e)))
           else int16 (v - int16 (truncate (increment e))) in
  if v <? int16 (truncate (min e)) then int16 (truncate (max e))
  else if v >? int16 (truncate (max e)) then int16 (truncate (min e))
  else v.

(** [handle_input], given the position the encoder reports; [None] is an
    access outside [menu_entries]. *)
Definition handle_input (current_position : Z) (u : ui) : option ui :=
  if current_position =? last_encoder_position u then Some u
  else if negb (Z.rem current_position 4 =? 0) then Some u
  else
    let direction :=
      int32 (current_position - last_encoder_position u) <? 0 in
    if negb (edit_mode u) then
      let i := int8 (screen_index u + (if direction then 1 else -1)) in
      let i := if i <? 0 then 7 else if i >? 7 then 0 else i in
      Some {| screen_index := i; edit_mode := edit_mode u;
              screen_should_refresh := true; showing_new_screen := true;
              last_encoder_position := current_position;
              edit_mode_toggled_at := edit_mode_toggled_at u;
              active_config := active_config u;
              dirty_config := dirty_config u;
              config_is_dirty := config_is_dirty u; eeprom := eeprom u |}
    else
      match entry_at (screen_index u - 1) with
      | None => None
      | Some entry =>
        let dirty :=
          match value entry with
          | float_value f =>
            write_float f
              (step_float entry direction (read_float f (dirty_config u)))
              (dirty_config u)
          | int16_value f =>
            write_int16 f
              (step_int16 entry direction (read_int16 f (dirty_config u)))
              (dirty_config u)
          end in
        Some {| screen_index := screen_index u; edit_mode := edit_mode u;
                screen_should_refresh := true;
                showing_new_screen := showing_new_screen u;
                last_encoder_position := current_position;
                edit_mode_toggled_at := edit_mode_toggled_at u;
                active_config := active_config u;
                dirty_config := dirty;
                config_is_dirty := config_is_dirty u; eeprom := eeprom u |}
      end.

(** [on_button_pressed], given the value of [millis()]. *)
Definition on_button_pressed (now : Z) (u : ui) : ui :=
  if negb (screen_index u =? HOME_SCREEN) && negb (screen_index u =? INFO_SCREEN)
  then
    if uint32 (now - edit_mode_toggled_at u) <? 500 then u
    else
      let u1 := if edit_mode u then save_dirty_config u else u in
      {| screen_index := screen_index u1; edit_mode := negb (edit_mode u1);
         screen_should_refresh := true;
         showing_new_screen := showing_new_screen u1;
         last_encoder_position := last_encoder_position u1;
         edit_mode_toggled_at := uint32 now;
         active_config := active_config u1;
         dirty_config := dirty_config u1;
         config_is_dirty := if edit_mode u then true else config_is_dirty u1;
         eeprom := eeprom u1 |}
  else u.

(** The first statement of a tick in [loop]: a configuration marked dirty
    becomes the active one. *)
Definition apply_dirty_config (u : ui) : ui :=
  if config_is_dirty u then
    {| screen_index := screen_index u; edit_mode := edit_mode u;
       screen_should_refresh := screen_should_refresh u;
       showing_new_screen := showing_new_screen u;
       last_encoder_position := last_encoder_position u;
       edit_mode_toggled_at := edit_mode_toggled_at u;
       active_config := dirty_config u;
       dirty_config := dirty_config u;
       config_is_dirty := false; eeprom := eeprom u |}
  else u.

(** The two display flags are also written by the tick, which asks for a
    redraw, and by [refresh_display], which clears them. What they hold
    plays no part in what follows, so a redraw may leave any values. *)
Definition set_display_flags (refresh new_screen : bool) (u : ui) : ui :=
  {| screen_index := screen_index u; edit_mode := edit_mode u;
     screen_should_refresh := refresh;
     showing_new_screen := new_screen;
     last_encoder_position := last_encoder_position u;
     edit_mode_toggled_at := edit_mode_toggled_at u;
     active_config := active_config u;
     dirty_config := dirty_config u;
     config_is_dirty := config_is_dirty u; eeprom := eeprom u |}.

(** What happens to the menu: the encoder is polled and reports a
    position, the button interrupt is served at some time, a tick applies a
    dirty configuration, the display flags are written. Each is taken
    whole; the interrupt is served between two polls of the encoder. *)
Inductive event :=
| Polled (current_position : Z)
| Pressed (now : Z)
| Ticked
| Redrawn (refresh new_screen : bool).

Definition react (e : event) (u : ui) : option ui :=
  match e with
  | Polled current_position => handle_input current_position u
  | Pressed now => Some (on_button_pressed now u)
  | Ticked => Some (apply_dirty_config u)
  | Redrawn refresh new_screen => Some (set_display_flags refresh new_screen u)
  end.

Fixpoint reacts (events : list event) (u : ui) : option ui :=
  match events with
  | [] => Some u
  | e :: rest =>
    match react e u with
    | None => None
    | Some u' => reacts rest u'
    end
  end.

(** An entry's value lies within its limits, in the sense of the
    comparisons [handle_input] makes: not below the minimum and not above
    the maximum. *)
Definition within_limits (e : menu_entry) (c : freezer_config) : bool :=
  match value e with
  | float_value f =>
    negb (SFltb (read_float f c) (min e)) && negb (SFltb (max e) (read_float f c))
  | int16_value f =>
    (int16 (truncate (min e)) <=? read_int16 f c)
    && (read_int16 f c <=? int16 (truncate (max e)))
  end.

(** The index is one of the eight screens, and in edit mode it is one of
    the six configuration screens. *)
Definition in_bounds (u : ui) : Prop :=
  0 <= screen_index u <= 7
  /\ (edit_mode u = true -> 1 <= screen_index u <= 6).

(** Outside edit mode the EEPROM holds the edited copy, under the magic
    bytes, and once no change is pending the active configuration is that
    copy too. *)
Definition settled (u : ui) : Prop :=
  (edit_mode u = false ->
   eeprom u = {| magic_bytes := F002; stored := dirty_config u |})
  /\ (edit_mode u = false -> config_is_dirty u = false ->
      active_config u = dirty_config u).

(** An EEPROM that has never been written: every byte reads 0xFF, which
    is a NaN in the [float] fields and -1 in the [int16_t] fields. *)
Definition blank_eeprom : eeprom_image :=
  {| magic_bytes := [255; 255; 255; 255];
     stored := {| target_temperature := S754_nan;
                  target_temperature_hysteresis_time := -1;
                  compressor_dead_time := -1;
                  compressor_max_run_time := -1;
                  compressor_max_temp := S754_nan;
                  freezer_startup_delay := -1 |} |}.

(** Two detents to the hysteresis screen, each followed by the redraw,
    then the button. *)
Definition to_hysteresis : list event :=
  [Polled (-4); Redrawn false false; Polled (-8); Redrawn false false;
   Pressed 1000].

(** The menu after these events: the hysteresis time is being edited. *)
Definition editing_hysteresis : ui :=
  {| screen_index := 2; edit_mode := true;
     screen_should_refresh := true; showing_new_screen := false;
     last_encoder_position := -8; edit_mode_toggled_at := 1000;
     active_config := default_config; dirty_config := default_config;
     config_is_dirty := false;
     eeprom := {| magic_bytes := F002; stored := default_config |} |}.

(** One step up, the button again, and a tick. *)
Definition edit_and_confirm : list event :=
  to_hysteresis ++ [Polled (-12); Pressed 2000; Ticked].

Definition hysteresis_70 : freezer_config :=
  write_int16 hysteresis_time_field 70 default_config.

Definition confirmed : ui :=
  {| screen_index := 2; edit_mode := false;
     screen_should_refresh := true; showing_new_screen := false;
     last_encoder_position := -12; edit_mode_toggled_at := 2000;
     active_config := hysteresis_70; dirty_config := hysteresis_70;
     config_is_dirty := false;
     eeprom := {| magic_bytes := F002; stored := hysteresis_70 |} |}.

End Menu.

(** ** The ring around the home screen *)

Module Display.
Import Freezer Menu.

Definition LCD_CENTER : Z := 120.

Definition uint16 (z : Z) : Z := z mod 65536.

(** The three channels of a 16-bit colour held in an [int16_t]:
    [(color >> 11) & 0x1F], [(color >> 5) & 0x3F], [color & 0x1F]. *)
Definition red (color : Z) : Z := Z.land (Z.shiftr color 11) 0x1F.
Definition green (color : Z) : Z := Z.land (Z.shiftr color 5) 0x3F.
Definition blue (color : Z) : Z := Z.land color 0x1F.

(** [start + (end - start) * progress] with [progress = (float)i / 7],
    computed in [float] and stored in an [int16_t]. *)
Definition blend (start_c end_c i : Z) : Z :=
  let progress := SFdiv 24 128 (celsius i) (celsius 7) in
  int16 (truncate (SFadd 24 128 (celsius start_c)
                     (SFmul 24 128 (celsius (end_c - start_c)) progress))).

(** [draw_outer_ring]: the circles drawn around the centre of the screen,
    each with its radius and its colour, in the order they are drawn. *)
Definition draw_outer_ring (start_color end_color : Z) : list (Z * Z) :=
  let start_r := red start_color in
  let start_g := green start_color in
  let start_b := blue start_color in
  let end_r := red end_color in
  let end_g := green end_color in
  let end_b := blue end_color in
  map (fun i =>
         let r := blend start_r end_r i in
         let g := blend start_g end_g i in
         let b := blend start_b end_b i in
         let color := uint16 (Z.lor (Z.lor (Z.shiftl r 11) (Z.shiftl g 5)) b) in
         (LCD_CENTER - i, color))
      [0; 1; 2; 3; 4; 5; 6; 7].

(** The integers from 0 up to [n], for properties checked by enumeration. *)
Definition below (n : nat) : list Z := map Z.of_nat (seq 0 n).

(** A blended channel starts at the start value, ends at the end value,
    and stays between the two. *)
Definition blend_ok (s e : Z) : bool :=
  (blend s e 0 =? s) && (blend s e 7 =? e)
  && forallb (fun i => (Z.min s e <=? blend s e i) && (blend s e i <=? Z.max s e))
             (below 8).

(** Three channels put together and taken apart again. *)
Definition compose (r g b : Z) : Z :=
  uint16 (Z.lor (Z.lor (Z.shiftl r 11) (Z.shiftl g 5)) b).

End Display.

(** ** Notions of safety *)

Module Safety.
Import Freezer.

(** The compressor runs exactly when the status is Cooling. *)
Definition status_tracks_compressor {card : Type} (w : world card) : Prop :=
  actual_compressor_state (current_state w) = true
  <-> status (current_state w) = cooling.

End Safety.

(** ** A run past the startup delay *)

Module Runs.
Import Freezer Scenario RecordLog.

(** The machine two minutes after [setup]: the tick at 120 s sees the
    startup delay over, the next one takes the first decision. *)
Definition two_minutes_in : world ideal_card :=
  world_of (run sketch_layout [at_time 120004 (-10) 30; at_time 121040 (-10) 30]
                (Running fresh)).

End Runs.

(** * Properties *)

(** ** Checksum *)

Module CrcFacts.
Import Crc.

Lemma in_all_bytes (b : Z) : is_byte b -> In b all_bytes.
Proof.
  intros Hb. unfold all_bytes.
  replace b with (Z.of_nat (Z.to_nat b)) by (unfold is_byte in Hb; lia).
  apply in_map, in_seq. unfold is_byte in Hb. lia.
Qed.

(** A boolean property checked on the 256 bytes holds of every byte. *)
Lemma bytes_ind (P : Z -> bool) :
  forallb P all_bytes = true -> forall b, is_byte b -> P b = true.
Proof.
  intros H b Hb. rewrite forallb_forall in H. apply H, in_all_bytes, Hb.
Qed.

Lemma bytes_ind2 (P : Z -> Z -> bool) :
  forallb (fun a => forallb (P a) all_bytes) all_bytes = true ->
  forall a b, is_byte a -> is_byte b -> P a b = true.
Proof.
  intros H a b Ha Hb.
  apply (bytes_ind (P a)); [|exact Hb].
  apply (bytes_ind (fun a => forallb (P a) all_bytes) H a Ha).
Qed.

Lemma uint8_is_byte (z : Z) : is_byte (uint8 z).
Proof. unfold is_byte, uint8. apply Z.mod_pos_bound. lia. Qed.

Lemma crc8_shift_is_byte (c : Z) : is_byte (crc8_shift c).
Proof. unfold crc8_shift. destruct (_ =? _); apply uint8_is_byte. Qed.

Lemma lxor_is_byte (a b : Z) : is_byte a -> is_byte b -> is_byte (Z.lxor a b).
Proof.
  intros Ha Hb.
  assert (H : ((0 <=? Z.lxor a b) && (Z.lxor a b <? 256)) = true).
  { apply (bytes_ind2 (fun a b => (0 <=? Z.lxor a b) && (Z.lxor a b <? 256)));
      [vm_compute; reflexivity | exact Ha | exact Hb]. }
  apply andb_prop in H. unfold is_byte. lia.
Qed.

Lemma crc8_byte_is_byte (c b : Z) : is_byte (crc8_byte c b).
Proof. unfold crc8_byte. cbn [Nat.iter]. apply crc8_shift_is_byte. Qed.

Lemma crc8_loop_is_byte (data : list Z) :
  forall c, is_byte c -> is_byte (crc8_loop data c).
Proof.
  induction data as [|b rest IH]; intros c Hc; cbn; [exact Hc|].
  apply IH, crc8_byte_is_byte.
Qed.

(** [crc8_shift] can be undone: it is injective on bytes. *)
Lemma crc8_unshift_shift (c : Z) : is_byte c -> crc8_unshift (crc8_shift c) = c.
Proof.
  intros Hc. apply Z.eqb_eq.
  apply (bytes_ind (fun c => crc8_unshift (crc8_shift c) =? c));
    [vm_compute; reflexivity | exact Hc].
Qed.

Lemma crc8_shift_inj (c d : Z) :
  is_byte c -> is_byte d -> crc8_shift c = crc8_shift d -> c = d.
Proof.
  intros Hc Hd H.
  rewrite <- (crc8_unshift_shift c Hc), <- (crc8_unshift_shift d Hd), H.
  reflexivity.
Qed.

Lemma iter_shift_inj (n : nat) (c d : Z) :
  is_byte c -> is_byte d ->
  Nat.iter n crc8_shift c = Nat.iter n crc8_shift d -> c = d.
Proof.
  intros Hc Hd. induction n as [|n IH]; cbn; [auto|].
  intros H. apply IH. apply crc8_shift_inj; [| |exact H].
  - destruct n; cbn; [exact Hc | apply crc8_shift_is_byte].
  - destruct n; cbn; [exact Hd | apply crc8_shift_is_byte].
Qed.

Lemma lxor_cancel_r (a b c : Z) : Z.lxor a c = Z.lxor b c -> a = b.
Proof.
  intros H.
  rewrite <- (Z.lxor_0_r a), <- (Z.lxor_0_r b), <- (Z.lxor_nilpotent c).
  rewrite <- !Z.lxor_assoc. rewrite H. reflexivity.
Qed.

(** Two different registers stay different after the same byte. *)
Lemma crc8_byte_inj_reg (c d b : Z) :
  is_byte c -> is_byte d -> is_byte b ->
  crc8_byte c b = crc8_byte d b -> c = d.
Proof.
  intros Hc Hd Hb H. unfold crc8_byte in H.
  apply iter_shift_inj in H; try (apply lxor_is_byte; assumption).
  exact (lxor_cancel_r _ _ _ H).
Qed.

(** Two different bytes lead the same register to different values. *)
Lemma crc8_byte_inj_data (c a b : Z) :
  is_byte c -> is_byte a -> is_byte b ->
  crc8_byte c a = crc8_byte c b -> a = b.
Proof.
  intros Hc Ha Hb H. unfold crc8_byte in H.
  apply iter_shift_inj in H; try (apply lxor_is_byte; assumption).
  rewrite (Z.lxor_comm c a), (Z.lxor_comm c b) in H.
  exact (lxor_cancel_r _ _ _ H).
Qed.

Lemma crc8_loop_inj_reg (data : list Z) :
  Forall is_byte data ->
  forall c d, is_byte c -> is_byte d ->
  crc8_loop data c = crc8_loop data d -> c = d.
Proof.
  induction 1 as [|b rest Hb _ IH]; intros c d Hc Hd H; cbn in H; [exact H|].
  apply IH in H; try apply crc8_byte_is_byte.
  exact (crc8_byte_inj_reg _ _ _ Hc Hd Hb H).
Qed.

Lemma flipped_is_byte (b j : Z) :
  is_byte b -> 0 <= j < 8 -> is_byte (Z.lxor b (Z.shiftl 1 j)).
Proof.
  intros Hb Hj. apply lxor_is_byte; [exact Hb|].
  assert (j = 0 \/ j = 1 \/ j = 2 \/ j = 3 \/ j = 4 \/ j = 5 \/ j = 6 \/ j = 7)
    as Hc by lia.
  unfold is_byte.
  destruct Hc as [->|[->|[->|[->|[->|[->|[->| ->]]]]]]]; cbn; lia.
Qed.

Lemma flipped_differs (b j : Z) : 0 <= j -> Z.lxor b (Z.shiftl 1 j) <> b.
Proof.
  intros Hj H.
  assert (Hbit : Z.testbit (Z.lxor b (Z.shiftl 1 j)) j = Z.testbit b j)
    by (rewrite H; reflexivity).
  rewrite Z.lxor_spec, Z.shiftl_spec, Z.sub_diag in Hbit by exact Hj.
  cbn in Hbit. destruct (Z.testbit b j); discriminate.
Qed.

(** Flipping one bit of the span changes the register whatever it was
    before the span. *)
Lemma crc8_loop_flip (data : list Z) :
  Forall is_byte data ->
  forall (i : nat) (j c : Z), (i < length data)%nat -> 0 <= j < 8 -> is_byte c ->
  crc8_loop (flip_bit data i j) c <> crc8_loop data c.
Proof.
  induction 1 as [|b rest Hb Hrest IH]; intros i j c Hi Hj Hc; cbn in Hi; [lia|].
  destruct i as [|i]; cbn.
  - intros H. apply crc8_loop_inj_reg in H; try apply crc8_byte_is_byte;
      [|exact Hrest].
    apply crc8_byte_inj_data in H;
      [| exact Hc | apply flipped_is_byte; assumption | exact Hb].
    apply (flipped_differs b j); [lia | exact H].
  - apply IH; [lia | exact Hj | apply crc8_byte_is_byte].
Qed.

(** The register after a byte, in terms of the long division: feeding the
    eight coefficients of [b] and then eight zeros from remainder [r] is the
    code's step from the remainder of [r] followed by eight zeros. *)
Lemma byte_step_agrees (r b : Z) :
  is_byte r -> is_byte b ->
  poly_rem (poly_rem r (msb_first b)) (repeat false 8)
  = crc8_byte (poly_rem r (repeat false 8)) b.
Proof.
  intros Hr Hb. apply Z.eqb_eq.
  apply (bytes_ind2
           (fun r b => poly_rem (poly_rem r (msb_first b)) (repeat false 8)
                       =? crc8_byte (poly_rem r (repeat false 8)) b));
    [vm_compute; reflexivity | exact Hr | exact Hb].
Qed.

Lemma rem_step_is_byte (r : Z) (b : bool) : is_byte r -> is_byte (rem_step r b).
Proof.
  intros Hr.
  assert (H : (0 <=? rem_step r b) && (rem_step r b <? 256) = true).
  { destruct b.
    - apply (bytes_ind (fun r => (0 <=? rem_step r true) && (rem_step r true <? 256)));
        [vm_compute; reflexivity | exact Hr].
    - apply (bytes_ind (fun r => (0 <=? rem_step r false) && (rem_step r false <? 256)));
        [vm_compute; reflexivity | exact Hr]. }
  apply andb_prop in H. unfold is_byte. lia.
Qed.

Lemma poly_rem_is_byte (coeffs : list bool) :
  forall r, is_byte r -> is_byte (poly_rem r coeffs).
Proof.
  induction coeffs as [|b rest IH]; intros r Hr; cbn; [exact Hr|].
  apply IH, rem_step_is_byte, Hr.
Qed.

Lemma poly_rem_app (r : Z) (xs ys : list bool) :
  poly_rem r (xs ++ ys) = poly_rem (poly_rem r xs) ys.
Proof. unfold poly_rem. apply fold_left_app. Qed.

(** The loop of the code, started from the remainder of what was read so
    far followed by eight zeros, ends on the remainder of the whole message
    followed by eight zeros. *)
Lemma message_bits_cons (b : Z) (rest : list Z) :
  message_bits (b :: rest) = msb_first b ++ message_bits rest.
Proof. reflexivity. Qed.

Lemma crc8_loop_cons (b : Z) (rest : list Z) (c : Z) :
  crc8_loop (b :: rest) c = crc8_loop rest (crc8_byte c b).
Proof. reflexivity. Qed.

Lemma poly_rem_nil (r : Z) : poly_rem r [] = r.
Proof. reflexivity. Qed.

Lemma poly_rem_zero : poly_rem 0 (repeat false 8) = 0.
Proof. vm_compute. reflexivity. Qed.

Lemma crc8_loop_refines (data : list Z) :
  Forall is_byte data ->
  forall r, is_byte r ->
  crc8_loop data (poly_rem r (repeat false 8))
  = poly_rem (poly_rem r (message_bits data)) (repeat false 8).
Proof.
  induction 1 as [|b rest Hb _ IH]; intros r Hr.
  - change (message_bits []) with (@nil bool). rewrite poly_rem_nil.
    reflexivity.
  - rewrite message_bits_cons, crc8_loop_cons, poly_rem_app.
    rewrite <- byte_step_agrees by assumption.
    apply IH, poly_rem_is_byte, Hr.
Qed.

(** C9. [calculate_crc8] is the CRC-8 of polynomial 0x07, most significant
    bit first, zero initial value: on every span of at most 255 bytes it
    equals the remainder of the message polynomial times x^8 by
    x^8 + x^2 + x + 1; computing it twice over the same bytes gives the same
    value; and flipping any single bit of the span changes it. *)
Theorem calculate_crc8_standard_and_detects_bit_flips (data : list Z) :
  Forall is_byte data -> (length data <= 255)%nat ->
  calculate_crc8 data = crc8_reference data
  /\ (forall data', data' = data -> calculate_crc8 data' = calculate_crc8 data)
  /\ (forall (i : nat) (j : Z), (i < length data)%nat -> 0 <= j < 8 ->
      calculate_crc8 (flip_bit data i j) <> calculate_crc8 data).
Proof.
  intros Hdata _. split; [|split].
  - unfold calculate_crc8, crc8_reference.
    rewrite poly_rem_app.
    transitivity (crc8_loop data (poly_rem 0 (repeat false 8))).
    + rewrite poly_rem_zero. reflexivity.
    + apply crc8_loop_refines; [exact Hdata | unfold is_byte; lia].
  - intros data' ->. reflexivity.
  - intros i j Hi Hj. unfold calculate_crc8.
    apply crc8_loop_flip; [exact Hdata | exact Hi | exact Hj | unfold is_byte; lia].
Qed.

(** The check value of the CRC-8 catalogue entry with polynomial 0x07 and
    zero initial value: the checksum of the ASCII digits 1 to 9 is 0xF4. *)
Example calculate_crc8_check_value :
  calculate_crc8 [49; 50; 51; 52; 53; 54; 55; 56; 57] = 0xF4.
Proof. reflexivity. Qed.

Lemma calculate_crc8_witness :
  calculate_crc8 [0x05; 0x00; 0x00; 0x00] = crc8_reference [0x05; 0x00; 0x00; 0x00]
  /\ calculate_crc8 (flip_bit [0x05; 0x00; 0x00; 0x00] 0 1)
     <> calculate_crc8 [0x05; 0x00; 0x00; 0x00].
Proof.
  assert (Hb : Forall is_byte [0x05; 0x00; 0x00; 0x00])
    by (repeat constructor; unfold is_byte; lia).
  assert (Hl : (length [0x05; 0x00; 0x00; 0x00] <= 255)%nat) by (cbn; lia).
  destruct (calculate_crc8_standard_and_detects_bit_flips _ Hb Hl)
    as [Href [_ Hflip]].
  split; [exact Href|].
  apply Hflip; [cbn; lia | lia].
Defined.

End CrcFacts.

(** ** Storage-card transport and block driver *)

Module SdCardFacts.
Import SdCard.

Lemma extends_refl (b : bus) : extends b b.
Proof. unfold extends. auto. Qed.

Lemma extends_trans (a b c : bus) : extends a b -> extends b c -> extends a c.
Proof.
  unfold extends. intros (H1 & H2 & H3) (H4 & H5 & H6).
  repeat split; [congruence | congruence | lia].
Qed.

Lemma transfer_extends (x : Z) (b : bus) : extends b (snd (transfer x b)).
Proof. unfold extends. cbn. auto. Qed.

Lemma set_cs_extends (level : bool) (b : bus) : extends b (set_cs level b).
Proof. unfold extends. cbn. auto. Qed.

Lemma send_bytes_extends (bytes : list Z) :
  forall b, extends b (send_bytes bytes b).
Proof.
  induction bytes as [|x rest IH]; intros b; cbn [send_bytes].
  - apply extends_refl.
  - eapply extends_trans; [apply (transfer_extends x) | apply IH].
Qed.

Lemma send_bytes_transfers (bytes : list Z) :
  forall b, transfers (send_bytes bytes b) = (transfers b + length bytes)%nat.
Proof.
  induction bytes as [|x rest IH]; intros b; cbn [send_bytes length]; [lia|].
  rewrite IH. cbn. lia.
Qed.

Lemma send_bytes_mosi (bytes : list Z) :
  forall b, mosi (send_bytes bytes b) = rev (map uint8 bytes) ++ mosi b.
Proof.
  induction bytes as [|x rest IH]; intros b; cbn [send_bytes map rev]; [reflexivity|].
  rewrite IH. cbn [transfer snd mosi]. rewrite <- app_assoc. reflexivity.
Qed.

Lemma wait_card_busy_loop_extends (fuel : nat) :
  forall start b r b',
  wait_card_busy_loop fuel start b = Some (r, b') -> extends b b'.
Proof.
  induction fuel as [|fuel IH]; intros start b r b' H; cbn in H; [discriminate|].
  destruct (uint8 (miso b (transfers b)) =? 255).
  - inversion H; subst. apply (transfer_extends 0xFF).
  - match type of H with (if ?c then _ else _) = _ => destruct c end.
    + inversion H; subst. apply (transfer_extends 0xFF).
    + apply IH in H. eapply extends_trans; [apply (transfer_extends 0xFF b)|exact H].
Qed.

(** *** The busy-wait poll is bounded by its timeout *)

(** If the clock shows more than 300 ms since the start once [S n] further
    bytes have been exchanged, the loop has returned by then. *)
Lemma wait_card_busy_loop_returns (n : nat) :
  forall start b,
  uint32 (uint32 (clock b (transfers b + S n)) - start) > 300 ->
  exists r b',
    wait_card_busy_loop (S n) start b = Some (r, b')
    /\ (transfers b' <= transfers b + S n)%nat.
Proof.
  induction n as [|n IH]; intros start b Hlate.
  - cbn. destruct (uint8 (miso b (transfers b)) =? 255).
    + eexists _, _. split; [reflexivity | cbn; lia].
    + unfold millis. cbn [clock transfers].
      replace (transfers b + 1)%nat with (S (transfers b)) in Hlate by lia.
      destruct (Z.gtb_spec (uint32 (uint32 (clock b (S (transfers b))) - start)) 300);
        [|lia].
      eexists _, _. split; [reflexivity | cbn; lia].
  - cbn [wait_card_busy_loop].
    destruct (transfer 255 b) as [r_byte b1] eqn:Ht.
    assert (Hb1 : b1 = snd (transfer 255 b)) by (rewrite Ht; reflexivity).
    assert (Ht1 : transfers b1 = S (transfers b)) by (subst b1; reflexivity).
    assert (Hc1 : clock b1 = clock b) by (subst b1; reflexivity).
    destruct (r_byte =? 255).
    + eexists _, _. split; [reflexivity | lia].
    + destruct (uint32 (millis b1 - start) >? 300).
      * eexists _, _. split; [reflexivity | lia].
      * destruct (IH start b1) as (r & b' & Hrun & Hle).
        { rewrite Hc1, Ht1.
          replace (S (transfers b) + S n)%nat with (transfers b + S (S n))%nat by lia.
          exact Hlate. }
        exists r, b'. split; [exact Hrun | lia].
Qed.

(** What the two results of the loop mean. *)
Lemma wait_card_busy_loop_result (fuel : nat) :
  forall start b r b',
  wait_card_busy_loop fuel start b = Some (r, b') ->
  (transfers b < transfers b')%nat
  /\ if r then uint8 (miso b (pred (transfers b'))) = 0xFF
     else uint32 (millis b' - start) > 300.
Proof.
  induction fuel as [|fuel IH]; intros start b r b' H; cbn in H; [discriminate|].
  destruct (Z.eqb_spec (uint8 (miso b (transfers b))) 255) as [Hff|_].
  - inversion H; subst. cbn. auto.
  - match type of H with (if ?c then _ else _) = _ => destruct c eqn:Hc end.
    + inversion H; subst. split; [cbn; lia|]. apply Z.gtb_lt in Hc. lia.
    + apply IH in H. cbn [transfers miso] in H. destruct H as [Hlt Hr].
      split; [lia|exact Hr].
Qed.

(** X1. [wait_card_busy] returns once the clock has passed the 300 ms
    mark, and a result of [false] means that more than 300 ms have
    elapsed. *)
Theorem wait_card_busy_bounded (n : nat) (b : bus) :
  uint32 (uint32 (clock b (transfers b + S n)) - millis b) > 300 ->
  exists r b',
    wait_card_busy (S n) b = Some (r, b')
    /\ (transfers b' <= transfers b + S n)%nat
    /\ (r = false -> uint32 (millis b' - millis b) > 300).
Proof.
  intros Hlate. unfold wait_card_busy.
  destruct (wait_card_busy_loop_returns n (millis b) b Hlate) as (r & b' & Hrun & Hle).
  exists r, b'. split; [exact Hrun|]. split; [exact Hle|].
  intros ->. apply wait_card_busy_loop_result in Hrun. apply Hrun.
Qed.

Lemma wait_card_busy_bounded_witness :
  exists r b',
    wait_card_busy polls_in_timeout stuck_low = Some (r, b')
    /\ (transfers b' <= transfers stuck_low + polls_in_timeout)%nat
    /\ (r = false -> uint32 (millis b' - millis stuck_low) > 300).
Proof.
  apply (wait_card_busy_bounded (pred polls_in_timeout) stuck_low).
  vm_compute. reflexivity.
Defined.

(** *** The command frame is sent whatever the wait returned *)

Lemma send_card_command_after_wait (fuel : nat) (cmd arg crc : Z) (b b1 : bus)
  (r : bool) :
  wait_card_busy fuel b = Some (r, b1) ->
  send_card_command fuel cmd arg crc b
  = Some (send_bytes (command_frame cmd arg crc) b1).
Proof. intros H. unfold send_card_command. rewrite H. reflexivity. Qed.

Lemma command_frame_bytes (cmd arg crc : Z) :
  map uint8 (command_frame cmd arg crc) = command_frame cmd arg crc.
Proof.
  unfold command_frame. cbn [map]. unfold uint8.
  rewrite !Z.mod_mod by lia. reflexivity.
Qed.

(** C8, on the code. When [wait_card_busy] gives up after its timeout,
    [send_card_command], which has no result to return, goes on and shifts
    out the six bytes of the frame. *)
Theorem send_card_command_sends_after_timeout
  (fuel : nat) (cmd arg crc : Z) (b b1 : bus) :
  wait_card_busy fuel b = Some (false, b1) ->
  exists b2,
    send_card_command fuel cmd arg crc b = Some b2
    /\ mosi b2 = rev (command_frame cmd arg crc) ++ mosi b1
    /\ transfers b2 = (transfers b1 + 6)%nat.
Proof.
  intros H. eexists. split; [exact (send_card_command_after_wait _ _ _ _ _ _ _ H)|].
  rewrite send_bytes_mosi, send_bytes_transfers, command_frame_bytes.
  split; reflexivity.
Qed.

Lemma send_card_command_sends_after_timeout_witness :
  exists b2,
    send_card_command polls_in_timeout 17 0 0x01 stuck_low = Some b2
    /\ mosi b2 = rev (command_frame 17 0 0x01) ++ repeat 0xFF polls_in_timeout
    /\ transfers b2 = (polls_in_timeout + 6)%nat.
Proof.
  apply (send_card_command_sends_after_timeout polls_in_timeout 17 0 0x01
           stuck_low
           {| miso := fun _ => 0x00; clock := fun n => Z.of_nat n / 32;
              transfers := polls_in_timeout;
              mosi := repeat 0xFF polls_in_timeout; cs := true |}).
  vm_compute. reflexivity.
Defined.

(** *** The two waits without a timeout *)

Lemma read_card_response_loop_first (n : nat) (b : bus) :
  uint8 (miso b (transfers b)) <> 0xFF ->
  read_card_response_loop (S n) b
  = (uint8 (miso b (transfers b)), snd (transfer 0xFF b)).
Proof.
  intros H. apply Z.eqb_neq in H.
  cbn [read_card_response_loop]. unfold transfer. cbn [snd].
  rewrite H. reflexivity.
Qed.

Lemma read_card_response_first (b : bus) :
  uint8 (miso b (transfers b)) <> 0xFF ->
  read_card_response b = (uint8 (miso b (transfers b)), snd (transfer 0xFF b)).
Proof. apply read_card_response_loop_first. Qed.

(** A card that never sends the data token keeps the loop going for ever. *)
Lemma wait_data_token_never (fuel : nat) :
  forall b, (forall n, uint8 (miso b n) <> 0xFE) -> wait_data_token fuel b = None.
Proof.
  induction fuel as [|fuel IH]; intros b H; cbn; [reflexivity|].
  destruct (Z.eqb_spec (uint8 (miso b (transfers b))) 254) as [E|_];
    [destruct (H _ E)|].
  cbn. apply IH. exact H.
Qed.

(** A card that stays busy keeps the loop going for ever. *)
Lemma wait_write_done_never (fuel : nat) :
  forall b,
  (forall n, (transfers b <= n)%nat -> uint8 (miso b n) = 0x00) ->
  wait_write_done fuel b = None.
Proof.
  induction fuel as [|fuel IH]; intros b H; cbn; [reflexivity|].
  rewrite (H (transfers b)) by lia. cbn. apply IH. cbn. intros n Hn.
  apply H. lia.
Qed.

Lemma send_card_command_extends (fuel : nat) (cmd arg crc : Z) (b b1 : bus) :
  send_card_command fuel cmd arg crc b = Some b1 -> extends b b1.
Proof.
  unfold send_card_command, wait_card_busy. intros H.
  destruct (wait_card_busy_loop fuel (millis b) b) as [[r b']|] eqn:Hw;
    [|discriminate].
  assert (E : b1 = send_bytes (command_frame cmd arg crc) b') by congruence.
  rewrite E.
  apply (extends_trans b b' _ (wait_card_busy_loop_extends _ _ _ _ _ Hw)).
  apply send_bytes_extends.
Qed.

(** On a data line held low a block read never returns, whatever the fuel:
    the wait times out, the frame is sent, the first byte 0x00 is read as
    the acceptance of the command, and the data token never comes. *)
Lemma read_card_block_hangs (fuel : nat) (block_addr : Z) (buffer_size : nat)
  (b : bus) :
  (forall n, uint8 (miso b n) = 0x00) ->
  read_card_block fuel block_addr buffer_size b = None.
Proof.
  intros Hlow. unfold read_card_block.
  destruct (send_card_command fuel 17 block_addr 1 (set_cs false b))
    as [b1|] eqn:Hsend; [|reflexivity].
  assert (Hm : miso b1 = miso b).
  { apply send_card_command_extends in Hsend. destruct Hsend as [Hm _].
    exact Hm. }
  rewrite read_card_response_first by (rewrite Hm, Hlow; discriminate).
  rewrite Hm, Hlow. cbn [negb Z.eqb].
  rewrite wait_data_token_never; [reflexivity|].
  intros n. cbn [transfer snd miso]. rewrite Hm, Hlow. discriminate.
Qed.

(** A card that answers a block write up to the data response and then
    holds the line low: the write never returns. [t] is the number of
    transfers made before the call. *)
Lemma write_card_block_hangs (fuel : nat) (block_addr : Z) (buffer : list Z)
  (buffer_size : nat) (b : bus) :
  uint8 (miso b (transfers b)) = 0xFF ->
  uint8 (miso b (transfers b + 7)) = 0x00 ->
  uint8 (miso b (transfers b + 523)) = 0x05 ->
  (forall n, (transfers b + 524 <= n)%nat -> uint8 (miso b n) = 0x00) ->
  write_card_block fuel block_addr buffer buffer_size b = None.
Proof.
  intros Hready Haccept Hdata Hbusy.
  destruct fuel as [|fuel]; [reflexivity|].
  unfold write_card_block, send_card_command, wait_card_busy.
  cbn [wait_card_busy_loop].
  change (transfer 255 (set_cs false b))
    with (uint8 (miso b (transfers b)), snd (transfer 255 (set_cs false b))).
  rewrite Hready. cbn [Z.eqb Pos.eqb].
  set (b1 := send_bytes (command_frame 24 block_addr 1)
                        (snd (transfer 255 (set_cs false b)))).
  assert (Hm1 : miso b1 = miso b).
  { unfold b1. destruct (send_bytes_extends (command_frame 24 block_addr 1)
                           (snd (transfer 255 (set_cs false b)))) as [H _].
    exact H. }
  assert (Ht1 : transfers b1 = (transfers b + 7)%nat).
  { unfold b1. rewrite send_bytes_transfers. cbn. lia. }
  rewrite read_card_response_first by (rewrite Hm1, Ht1, Haccept; discriminate).
  rewrite Hm1, Ht1, Haccept. cbn [negb Z.eqb].
  set (b5 := send_bytes [255; 255]
               (send_bytes (padded_block buffer buffer_size)
                  (send_bytes [254] (snd (transfer 255 b1))))).
  assert (Hm5 : miso b5 = miso b).
  { unfold b5.
    destruct (send_bytes_extends [255; 255]
                (send_bytes (padded_block buffer buffer_size)
                   (send_bytes [254] (snd (transfer 255 b1))))) as [H _].
    rewrite H.
    destruct (send_bytes_extends (padded_block buffer buffer_size)
                (send_bytes [254] (snd (transfer 255 b1)))) as [H' _].
    rewrite H'. exact Hm1. }
  assert (Ht5 : transfers b5 = (transfers b + 523)%nat).
  { unfold b5. rewrite !send_bytes_transfers. unfold padded_block.
    rewrite length_map, length_seq. cbn [transfer snd transfers length].
    rewrite Ht1. unfold SD_BLOCK_SIZE. lia. }
  change (transfer 255 b5)
    with (uint8 (miso b5 (transfers b5)), snd (transfer 255 b5)).
  rewrite Hm5, Ht5, Hdata. cbn [Z.land Pos.land negb Z.eqb Pos.eqb].
  rewrite wait_write_done_never; [reflexivity|].
  intros n Hn. cbn [transfer snd miso transfers] in *. rewrite Hm5.
  apply Hbusy. lia.
Qed.

(** C3, on the code. A block read on a data line held low, and a block
    write to a card that accepts the data and then stays busy, never return
    and report nothing: no amount of fuel brings a result. *)
Theorem block_operations_can_block_for_ever :
  (forall fuel block_addr buffer_size,
      read_card_block fuel block_addr buffer_size stuck_low = None)
  /\ (forall fuel block_addr buffer buffer_size,
      write_card_block fuel block_addr buffer buffer_size busy_forever = None).
Proof.
  split.
  - intros. apply read_card_block_hangs. intros n. reflexivity.
  - intros. apply write_card_block_hangs.
    + reflexivity.
    + reflexivity.
    + reflexivity.
    + intros n Hn. cbn [busy_forever idle_bus miso transfers] in *.
      destruct (Nat.eqb_spec n 0); [lia|].
      destruct (Nat.eqb_spec n 523); [lia|]. reflexivity.
Qed.

(** The same driver does return when the card answers: a block read on
    [answering_card] delivers the first bytes of the block. *)
Example read_card_block_returns :
  option_map (fun '(ok, buffer, b) => (ok, buffer, transfers b, cs b))
             (read_card_block 2 0 5 answering_card)
  = Some (true, [10; 11; 12; 13; 14], 525%nat, true).
Proof. vm_compute. reflexivity. Qed.

End SdCardFacts.

(** ** Record log *)

Module RecordLogFacts.
Import RecordLog.

Lemma sector_bytes_length (s : sd_count_sector) :
  length (sector_bytes s) = sizeof_sd_count_sector.
Proof. reflexivity. Qed.

Lemma firstn_sector_bytes (s : sd_count_sector) :
  firstn sizeof_sd_count_sector (sector_bytes s) = sector_bytes s.
Proof. reflexivity. Qed.

(** The local copy [count_sector_0] after the reconciliation is the side
    the specification calls the winner. *)
Lemma reconcile_winner (s0 s1 : sd_count_sector) :
  reconcile s0 s1 = (spec_winner s0 s1, spec_winner s0 s1).
Proof.
  unfold reconcile, spec_winner.
  destruct (crc s0 =? count_crc s0); [reflexivity|].
  destruct (crc s1 =? count_crc s1); reflexivity.
Qed.

Section AnyDevice.
Context {card : Type} {dev : BlockDevice card}.

(** The append on any device, as long as the operations before the last
    succeed: the repair write goes to block 1, then the advanced counter to
    blocks 0 and 1, then the record, whose result is the result of the
    append. *)
Lemma save_data_point_steps (data buf0 buf1 : list Z) (c c1 c2 : card) :
  read_card_block 0 sizeof_sd_count_sector c = (true, buf0, c1) ->
  read_card_block 1 sizeof_sd_count_sector c1 = (true, buf1, c2) ->
  let s0 := sector_of_bytes buf0 in
  let s1 := sector_of_bytes buf1 in
  let winner := if count s0 =? count s1 then s0 else spec_winner s0 s1 in
  let next := advance winner in
  let repair :=
    write_card_block 1 (sector_bytes winner) sizeof_sd_count_sector c2 in
  let c3 := if count s0 =? count s1 then c2 else snd repair in
  let w0 := write_card_block 0 (sector_bytes next) sizeof_sd_count_sector c3 in
  let w1 :=
    write_card_block 1 (sector_bytes next) sizeof_sd_count_sector (snd w0) in
  let w2 :=
    write_card_block (uint32 (count next + 2)) data (length data) (snd w1) in
  ((count s0 =? count s1) = false -> fst repair = true) ->
  fst w0 = true -> fst w1 = true ->
  save_data_point data c = w2.
Proof.
  intros Hr0 Hr1 s0 s1 winner next repair c3 w0 w1 w2 Hrepair Hw0 Hw1.
  unfold save_data_point. rewrite Hr0. cbn [negb]. rewrite Hr1. cbn [negb].
  fold s0 s1.
  subst w2 w1 w0 c3 repair next winner.
  destruct (count s0 =? count s1) eqn:Hc; cbn [negb].
  - destruct (write_card_block 0 _ _ c2) as [ok0 c4]. cbn [fst snd] in *.
    subst ok0. cbn [negb].
    destruct (write_card_block 1 _ _ c4) as [ok1 c5]. cbn [fst snd] in *.
    subst ok1. cbn [negb].
    destruct (write_card_block _ data _ c5) as [[] c6]; reflexivity.
  - rewrite reconcile_winner.
    destruct (write_card_block 1 (sector_bytes (spec_winner s0 s1)) _ c2)
      as [okr c3].
    cbn [fst snd] in *. rewrite (Hrepair eq_refl). cbn [negb].
    destruct (write_card_block 0 _ _ c3) as [ok0 c4]. cbn [fst snd] in *.
    subst ok0. cbn [negb].
    destruct (write_card_block 1 _ _ c4) as [ok1 c5]. cbn [fst snd] in *.
    subst ok1. cbn [negb].
    destruct (write_card_block _ data _ c5) as [[] c6]; reflexivity.
Qed.

(** A failed read of a metadata block ends the append with [false] before
    anything is written. *)
Lemma save_data_point_read_failure (data buf0 : list Z) (c c1 : card) :
  read_card_block 0 sizeof_sd_count_sector c = (false, buf0, c1) ->
  save_data_point data c = (false, c1).
Proof. intros H. unfold save_data_point. rewrite H. reflexivity. Qed.

End AnyDevice.

(** The writes of one append on a card where every operation succeeds. *)
Lemma save_data_point_ideal (data : list Z) (c : ideal_card) :
  let s0 := sector_of_bytes (firstn sizeof_sd_count_sector (blocks c 0)) in
  let s1 := sector_of_bytes (firstn sizeof_sd_count_sector (blocks c 1)) in
  let winner := if count s0 =? count s1 then s0 else spec_winner s0 s1 in
  let next := advance winner in
  fst (save_data_point data c) = true
  /\ written (snd (save_data_point data c))
     = [ (uint32 (count next + 2), data); (1, sector_bytes next);
         (0, sector_bytes next) ]
       ++ (if count s0 =? count s1 then [] else [(1, sector_bytes winner)])
       ++ written c.
Proof.
  intros s0 s1 winner next.
  unfold save_data_point.
  cbn [read_card_block write_card_block ideal_device ideal_read ideal_write
       negb blocks written].
  fold s0. fold s1.
  subst next winner.
  destruct (count s0 =? count s1) eqn:Hc; cbn [negb].
  - cbn [fst snd written]. rewrite !firstn_sector_bytes, firstn_all.
    split; reflexivity.
  - rewrite reconcile_winner.
    cbn [fst snd written negb].
    rewrite !firstn_sector_bytes, firstn_all. split; reflexivity.
Qed.

Lemma save_data_point_writes_of (data : list Z) (c : ideal_card) :
  let s0 := sector_of_bytes (firstn sizeof_sd_count_sector (blocks c 0)) in
  let s1 := sector_of_bytes (firstn sizeof_sd_count_sector (blocks c 1)) in
  let winner := if count s0 =? count s1 then s0 else spec_winner s0 s1 in
  let next := advance winner in
  writes_of (snd (save_data_point data c))
  = writes_of c
    ++ (if count s0 =? count s1 then [] else [(1, sector_bytes winner)])
    ++ [ (0, sector_bytes next); (1, sector_bytes next);
         (uint32 (count next + 2), data) ].
Proof.
  intros s0 s1 winner next.
  destruct (save_data_point_ideal data c) as [_ Hw].
  unfold writes_of. fold s0 s1 winner next in Hw. rewrite Hw.
  rewrite !rev_app_distr. cbn [rev app].
  destruct (count s0 =? count s1); cbn [rev app]; rewrite <- ?app_assoc;
    reflexivity.
Qed.

(** C7, as the code has it. On a card where every operation succeeds, one
    append reads both metadata blocks; when the counts disagree it takes as
    winner the side whose checksum matches its count (block 0 when neither
    does) and writes the winner's value to block 1 -- whichever side lost;
    it then increments the agreed count, recomputes the checksum, writes the
    new value to block 0 and to block 1 and the record to block
    (new count + 2). In Scenario E block 1 is first rewritten with count 5,
    then both blocks receive count 6 and the record goes to block 8. *)
Theorem save_data_point_write_sequence :
  (forall (data : list Z) (c : ideal_card),
     let s0 := sector_of_bytes (firstn sizeof_sd_count_sector (blocks c 0)) in
     let s1 := sector_of_bytes (firstn sizeof_sd_count_sector (blocks c 1)) in
     let winner := if count s0 =? count s1 then s0 else spec_winner s0 s1 in
     let next := advance winner in
     fst (save_data_point data c) = true
     /\ writes_of (snd (save_data_point data c))
        = writes_of c
          ++ (if count s0 =? count s1 then [] else [(1, sector_bytes winner)])
          ++ [ (0, sector_bytes next); (1, sector_bytes next);
               (uint32 (count next + 2), data) ])
  /\ writes_of (snd (save_data_point sample_record scenario_E))
     = [ (1, sector_bytes (valid_sector 5));
         (0, sector_bytes (valid_sector 6));
         (1, sector_bytes (valid_sector 6));
         (8, sample_record) ].
Proof.
  split.
  - intros data c s0 s1 winner next.
    split; [apply save_data_point_ideal | apply save_data_point_writes_of].
  - vm_compute. reflexivity.
Qed.

(** X7. Whichever block the repair write goes to, the blocks end up as the
    specification's sequence of writes leaves them. *)
Lemma save_data_point_final_blocks (data : list Z) (c : ideal_card) (a : Z) :
  let s0 := sector_of_bytes (firstn sizeof_sd_count_sector (blocks c 0)) in
  let s1 := sector_of_bytes (firstn sizeof_sd_count_sector (blocks c 1)) in
  blocks (snd (save_data_point data c)) a
  = replay (spec_append_writes s0 s1 data) (blocks c) a.
Proof.
  intros s0 s1.
  unfold save_data_point.
  cbn [read_card_block write_card_block ideal_device ideal_read ideal_write
       negb blocks written].
  fold s0. fold s1. unfold spec_append_writes, replay.
  destruct (count s0 =? count s1) eqn:Hc; cbn [negb].
  - cbn [fst snd blocks app fold_left]. rewrite !sector_bytes_length.
    reflexivity.
  - rewrite reconcile_winner.
    cbn [fst snd blocks app fold_left negb]. rewrite !sector_bytes_length.
    unfold spec_loser_index.
    destruct (crc s0 =? count_crc s0);
      [|destruct (crc s1 =? count_crc s1)];
      destruct (a =? uint32 (count (advance (spec_winner s0 s1)) + 2));
      destruct (a =? 1); destruct (a =? 0); reflexivity.
Qed.

(** C7 as stated fails where block 1 is the valid side: the losing block is
    block 0, the specification's repair rewrites block 0 with count 5, and
    the code's repair writes block 1 instead; block 0 never receives the
    winner's value. *)
Lemma save_data_point_rewrites_block_1_when_block_1_wins :
  spec_loser_index (torn_sector 3) (valid_sector 5) = 0
  /\ spec_append_writes (torn_sector 3) (valid_sector 5) sample_record
     = [ (0, sector_bytes (valid_sector 5));
         (0, sector_bytes (valid_sector 6));
         (1, sector_bytes (valid_sector 6));
         (8, sample_record) ]
  /\ writes_of (snd (save_data_point sample_record block1_wins))
     = [ (1, sector_bytes (valid_sector 5));
         (0, sector_bytes (valid_sector 6));
         (1, sector_bytes (valid_sector 6));
         (8, sample_record) ]
  /\ ~ In (0, sector_bytes (valid_sector 5))
          (writes_of (snd (save_data_point sample_record block1_wins))).
Proof.
  split; [vm_compute; reflexivity|].
  split; [vm_compute; reflexivity|].
  split; [vm_compute; reflexivity|].
  vm_compute. intros [H|[H|[H|[H|[]]]]]; discriminate H.
Qed.

End RecordLogFacts.

(** ** Compressor control state machine *)

Module FreezerFacts.
Import Freezer.

Section ControlFacts.
Context {card : Type} {dev : BlockDevice card}.
Variable layout : freezer_state_data_point -> list Z.

Implicit Types w : world card.

(** Split every conditional in sight. *)
Ltac split_ifs :=
  repeat match goal with
         | |- context [if ?c then _ else _] => destruct c eqn:?
         | H : context [if ?c then _ else _] |- _ => destruct c eqn:?
         end.

(** *** What each step touches *)

Lemma set_compressor_actual (state : bool) w :
  actual_compressor_state (current_state (set_compressor state w)) = state.
Proof.
  unfold set_compressor.
  destruct state, (actual_compressor_state (current_state w)) eqn:E;
    cbn; auto.
Qed.

Lemma set_compressor_relay (state : bool) w :
  compressor_relay w = actual_compressor_state (current_state w) ->
  compressor_relay (set_compressor state w) = state.
Proof.
  unfold set_compressor. intros H.
  destruct state, (actual_compressor_state (current_state w)) eqn:E;
    cbn; auto.
Qed.

Lemma set_compressor_target (state : bool) w :
  target_compressor_state (current_state (set_compressor state w))
  = target_compressor_state (current_state w).
Proof. unfold set_compressor. split_ifs; reflexivity. Qed.

Lemma set_compressor_status (state : bool) w :
  status (current_state (set_compressor state w)) = status (current_state w).
Proof. unfold set_compressor. split_ifs; reflexivity. Qed.

Lemma set_compressor_sd (state : bool) w : sd (set_compressor state w) = sd w.
Proof. unfold set_compressor. split_ifs; reflexivity. Qed.

Lemma set_compressor_reached (state : bool) w :
  reached_target_temperature_at (set_compressor state w)
  = reached_target_temperature_at w.
Proof. unfold set_compressor. split_ifs; reflexivity. Qed.

Lemma set_compressor_exceeded (state : bool) w :
  exceeded_max_runtime_at (set_compressor state w) = exceeded_max_runtime_at w.
Proof. unfold set_compressor. split_ifs; reflexivity. Qed.

(** Asking for the state the compressor is already in changes nothing. *)
Lemma set_compressor_same w :
  set_compressor (actual_compressor_state (current_state w)) w = w.
Proof.
  unfold set_compressor. rewrite Bool.eqb_reflx. reflexivity.
Qed.

(** [log_state] writes to the card and to nothing else. *)
Lemma log_state_current_state w :
  current_state (log_state layout w) = current_state w.
Proof. unfold log_state. split_ifs; reflexivity. Qed.

Lemma log_state_relay w : compressor_relay (log_state layout w) = compressor_relay w.
Proof. unfold log_state. split_ifs; reflexivity. Qed.

Lemma log_state_timers w :
  compressor_turned_on_at (log_state layout w) = compressor_turned_on_at w
  /\ compressor_turned_off_at (log_state layout w) = compressor_turned_off_at w
  /\ reached_target_temperature_at (log_state layout w)
     = reached_target_temperature_at w
  /\ exceeded_max_runtime_at (log_state layout w) = exceeded_max_runtime_at w.
Proof. unfold log_state. split_ifs; cbn; auto. Qed.

Lemma log_state_flags w :
  startup_delay_over (log_state layout w) = startup_delay_over w
  /\ logging_enabled (log_state layout w) = logging_enabled w
  /\ active_config (log_state layout w) = active_config w
  /\ millis (log_state layout w) = millis w.
Proof. unfold log_state. split_ifs; cbn; auto. Qed.

(** The target evaluation leaves the compressor, its timers and the override
    inputs as they were. *)
Lemma base_decision_frame w :
  let w1 := base_decision w in
  actual_compressor_state (current_state w1)
  = actual_compressor_state (current_state w)
  /\ current_ntc1_temperature (current_state w1)
     = current_ntc1_temperature (current_state w)
  /\ current_ntc2_temperature (current_state w1)
     = current_ntc2_temperature (current_state w)
  /\ compressor_turned_on_at w1 = compressor_turned_on_at w
  /\ compressor_turned_off_at w1 = compressor_turned_off_at w
  /\ exceeded_max_runtime_at w1 = exceeded_max_runtime_at w
  /\ active_config w1 = active_config w
  /\ millis w1 = millis w
  /\ compressor_relay w1 = compressor_relay w
  /\ sd w1 = sd w.
Proof.
  unfold base_decision. cbv zeta. split_ifs; cbn; repeat split; reflexivity.
Qed.

(** The overrides change the status and [exceeded_max_runtime_at] only. *)
Lemma overrides_frame w :
  let w2 := snd (overrides w) in
  target_compressor_state (current_state w2)
  = target_compressor_state (current_state w)
  /\ actual_compressor_state (current_state w2)
     = actual_compressor_state (current_state w)
  /\ compressor_turned_on_at w2 = compressor_turned_on_at w
  /\ compressor_turned_off_at w2 = compressor_turned_off_at w
  /\ reached_target_temperature_at w2 = reached_target_temperature_at w
  /\ millis w2 = millis w
  /\ compressor_relay w2 = compressor_relay w
  /\ sd w2 = sd w.
Proof.
  unfold overrides, has_compressor_exceeded_max_runtime. cbv zeta.
  split_ifs; cbn; repeat split; congruence.
Qed.

(** With the compressor commanded off no override condition is looked at:
    the block returns [false] and the world it was given. *)
Lemma overrides_skipped w :
  target_compressor_state (current_state w) = false ->
  overrides w = (false, w).
Proof. intros H. unfold overrides. rewrite H. reflexivity. Qed.

(** The status the overrides leave: the one of the target evaluation when
    no override is active, otherwise that of the override. *)
Lemma overrides_status w :
  let '(override, w2) := overrides w in
  if override
  then status (current_state w2) = overheat
       \/ status (current_state w2) = compressor_max_runtime
       \/ status (current_state w2) = dead_time
  else status (current_state w2) = status (current_state w).
Proof.
  unfold overrides, has_compressor_exceeded_max_runtime.
  split_ifs; cbn; auto.
Qed.

(** The decision spelled out: the target evaluation, the overrides on its
    result, and the actuation with the conjunction of the two. *)
Lemma decide_eq w :
  decide w
  = set_compressor
      (target_compressor_state (current_state (base_decision w))
       && negb (fst (overrides (base_decision w))))
      (snd (overrides (base_decision w))).
Proof.
  unfold decide.
  pose proof (overrides_frame (base_decision w)) as Hf. cbv zeta in Hf.
  destruct Hf as [Ht _].
  destruct (overrides (base_decision w)) as [ov w2]. cbn [fst snd] in *.
  rewrite Ht. reflexivity.
Qed.

(** Reading the sensors replaces the two temperatures and nothing else. *)
Lemma read_sensors_frame (ntc_1 ntc_2 : nat -> temperature) w :
  let w0 := read_sensors ntc_1 ntc_2 w in
  startup_delay_over w0 = startup_delay_over w
  /\ reached_target_temperature_at w0 = reached_target_temperature_at w
  /\ millis w0 = millis w
  /\ active_config w0 = active_config w
  /\ compressor_turned_off_at w0 = compressor_turned_off_at w
  /\ compressor_turned_on_at w0 = compressor_turned_on_at w
  /\ exceeded_max_runtime_at w0 = exceeded_max_runtime_at w
  /\ actual_compressor_state (current_state w0)
     = actual_compressor_state (current_state w)
  /\ compressor_relay w0 = compressor_relay w
  /\ logging_enabled w0 = logging_enabled w
  /\ sd w0 = sd w.
Proof. cbv zeta. unfold read_sensors. cbn. repeat split; reflexivity. Qed.

(** *** C5 *)

Lemma base_decision_spec w :
  let w1 := base_decision w in
  reached_target_temperature_at w1 = timer_after w
  /\ target_compressor_state (current_state w1) = negb (dwelled w)
  /\ status (current_state w1)
     = if dwelled w then reached_target else cooling.
Proof.
  unfold base_decision, dwelled, timer_after, has_hysteresis_time_elapsed.
  cbv zeta.
  destruct (is_within_target_temperature w); cbn [andb].
  - destruct (reached_target_temperature_at w =? 0) eqn:E; cbn.
    + destruct (uint32 (millis w - millis w) >=? hysteresis_ms (active_config w));
        cbn; auto.
    + destruct (uint32 (millis w - reached_target_temperature_at w)
                >=? hysteresis_ms (active_config w)); cbn; auto.
  - cbn. auto.
Qed.

(** *** The branches of a tick *)

(** Readings in range: the tick returns, after the startup gate or the
    decision, through [log_state]. *)
Lemma evaluate_in_range w :
  ntc1_out_of_range w = false ->
  ntc2_out_of_range w = false ->
  evaluate layout w
  = Running
      (log_state layout
         (if startup_delay_over w
          then decide w
          else set_status startup_delay
                 (set_startup_delay_over (is_startup_delay_over w) w))).
Proof.
  intros Hn1 Hn2. unfold evaluate, validate_temperatures.
  rewrite Hn1, Hn2. destruct (startup_delay_over w); reflexivity.
Qed.

(** A reading out of range: the tick halts with the compressor switched
    off, and does nothing else. *)
Lemma evaluate_out_of_range w :
  ntc1_out_of_range w || ntc2_out_of_range w = true ->
  evaluate layout w
  = Halted (if ntc1_out_of_range w then N1 else N2) (set_compressor false w).
Proof.
  intros H. unfold evaluate, validate_temperatures, halt.
  destruct (ntc1_out_of_range w); [reflexivity|].
  cbn [orb] in H. rewrite H. reflexivity.
Qed.

Lemma evaluate_cases w :
  (ntc1_out_of_range w || ntc2_out_of_range w = true
   /\ evaluate layout w
      = Halted (if ntc1_out_of_range w then N1 else N2)
               (set_compressor false w))
  \/ (ntc1_out_of_range w = false /\ ntc2_out_of_range w = false
      /\ evaluate layout w
         = Running
             (log_state layout
                (if startup_delay_over w
                 then decide w
                 else set_status startup_delay
                        (set_startup_delay_over (is_startup_delay_over w) w)))).
Proof.
  destruct (ntc1_out_of_range w || ntc2_out_of_range w) eqn:E.
  - left. split; [reflexivity | apply evaluate_out_of_range, E].
  - right. apply orb_false_elim in E. destruct E as [E1 E2].
    split; [exact E1|]. split; [exact E2 | apply evaluate_in_range; assumption].
Qed.

(** *** C1 *)

Lemma effective_state_after_sensors w0 :
  let w1 := base_decision w0 in
  let commanded := target_compressor_state (current_state w1) in
  let override := fst (overrides w1) in
  match evaluate layout w0 with
  | Halted _ w' => actual_compressor_state (current_state w') = false
  | Running w' =>
    if startup_delay_over w0 then
      w' = log_state layout
             (set_compressor (commanded && negb override) (snd (overrides w1)))
      /\ actual_compressor_state (current_state w') = commanded && negb override
      /\ target_compressor_state (current_state w') = commanded
      /\ (commanded = false -> overrides w1 = (false, w1))
      /\ (actual_compressor_state (current_state w') = true ->
          commanded = true /\ override = false)
    else
      actual_compressor_state (current_state w')
      = actual_compressor_state (current_state w0)
  end.
Proof.
  cbv zeta.
  destruct (evaluate_cases w0) as [[_ ->]|(_ & _ & ->)];
    [apply set_compressor_actual|].
  destruct (startup_delay_over w0).
  - rewrite decide_eq.
    set (commanded := target_compressor_state (current_state (base_decision w0))).
    set (override := fst (overrides (base_decision w0))).
    assert (Hact : actual_compressor_state
                     (current_state
                        (log_state layout
                           (set_compressor (commanded && negb override)
                              (snd (overrides (base_decision w0))))))
                   = commanded && negb override).
    { rewrite log_state_current_state. apply set_compressor_actual. }
    split; [reflexivity|]. split; [exact Hact|]. split.
    { rewrite log_state_current_state, set_compressor_target.
      apply (overrides_frame (base_decision w0)). }
    split; [apply overrides_skipped|].
    rewrite Hact. intros H. apply andb_prop in H. destruct H as [Hc Hn].
    split; [exact Hc|]. destruct override; [discriminate | reflexivity].
  - rewrite log_state_current_state. reflexivity.
Qed.

(** C1. On every tick the state handed to [set_compressor] is the commanded
    state of the target evaluation AND NOT the override flag, and it is the
    actual state after the tick; the override conditions are only looked at
    when the commanded state is on; so a compressor that is on after the
    tick was commanded on with no override. The startup-gate branch does
    not actuate, and the halt branch switches off. *)
Theorem effective_state_is_commanded_and_not_override
  (ntc_1 ntc_2 : nat -> temperature) w :
  let w0 := read_sensors ntc_1 ntc_2 w in
  let w1 := base_decision w0 in
  let commanded := target_compressor_state (current_state w1) in
  let override := fst (overrides w1) in
  match update_state layout ntc_1 ntc_2 w with
  | Halted _ w' => actual_compressor_state (current_state w') = false
  | Running w' =>
    if startup_delay_over w then
      w' = log_state layout
             (set_compressor (commanded && negb override) (snd (overrides w1)))
      /\ actual_compressor_state (current_state w') = commanded && negb override
      /\ target_compressor_state (current_state w') = commanded
      /\ (commanded = false -> overrides w1 = (false, w1))
      /\ (actual_compressor_state (current_state w') = true ->
          commanded = true /\ override = false)
    else
      actual_compressor_state (current_state w')
      = actual_compressor_state (current_state w)
  end.
Proof.
  cbv zeta. unfold update_state.
  destruct (read_sensors_frame ntc_1 ntc_2 w)
    as (Hg & _ & _ & _ & _ & _ & _ & Ha & _).
  rewrite <- Hg, <- Ha.
  exact (effective_state_after_sensors (read_sensors ntc_1 ntc_2 w)).
Qed.

(** The fields the target evaluation decides, as a whole decision leaves
    them. *)
Lemma decide_fields w :
  reached_target_temperature_at (decide w) = timer_after w
  /\ target_compressor_state (current_state (decide w)) = negb (dwelled w)
  /\ status (current_state (decide w))
     = status (current_state (snd (overrides (base_decision w)))).
Proof.
  rewrite decide_eq.
  rewrite set_compressor_reached, set_compressor_target, set_compressor_status.
  destruct (overrides_frame (base_decision w)) as (Ht & _ & _ & _ & Hr & _).
  destruct (base_decision_spec w) as (Htimer & Htarget & _).
  rewrite Ht, Hr, Htimer, Htarget. auto.
Qed.

Lemma dwelled_true w :
  dwelled w = true ->
  status (current_state (snd (overrides (base_decision w)))) = reached_target.
Proof.
  intros Hd. destruct (base_decision_spec w) as (_ & Htarget & Hstatus).
  rewrite Hd in Htarget, Hstatus. cbn [negb] in Htarget.
  rewrite (overrides_skipped _ Htarget). exact Hstatus.
Qed.

Lemma overrides_inactive_status w :
  fst (overrides w) = false ->
  status (current_state (snd (overrides w))) = status (current_state w).
Proof.
  intros H. pose proof (overrides_status w) as Hs.
  destruct (overrides w) as [ov w2]. cbn [fst snd] in *. subst ov. exact Hs.
Qed.

Lemma target_evaluation_after_sensors w0 :
  startup_delay_over w0 = true ->
  ntc1_out_of_range w0 = false ->
  ntc2_out_of_range w0 = false ->
  exists w',
    evaluate layout w0 = Running w'
    /\ (is_within_target_temperature w0 = true ->
        reached_target_temperature_at w'
        = (if reached_target_temperature_at w0 =? 0
           then millis w0 else reached_target_temperature_at w0)
        /\ if uint32 (millis w0 - reached_target_temperature_at w')
              >=? hysteresis_ms (active_config w0)
           then target_compressor_state (current_state w') = false
                /\ status (current_state w') = reached_target
           else target_compressor_state (current_state w') = true
                /\ status (current_state (base_decision w0)) = cooling)
    /\ (is_within_target_temperature w0 = false ->
        reached_target_temperature_at w' = 0
        /\ target_compressor_state (current_state w') = true
        /\ status (current_state (base_decision w0)) = cooling)
    /\ target_compressor_state (current_state w')
       = target_compressor_state (current_state (base_decision w0))
    /\ (fst (overrides (base_decision w0)) = false ->
        status (current_state w')
        = status (current_state (base_decision w0))).
Proof.
  intros Hgate Hn1 Hn2.
  rewrite (evaluate_in_range _ Hn1 Hn2), Hgate.
  eexists. split; [reflexivity|].
  destruct (log_state_timers (decide w0)) as (_ & _ & -> & _).
  rewrite !log_state_current_state.
  destruct (decide_fields w0) as (-> & -> & ->).
  destruct (base_decision_spec w0) as (_ & Htarget & Hstatus).
  rewrite Htarget, Hstatus.
  pose proof (dwelled_true w0) as Hoff.
  pose proof (overrides_inactive_status (base_decision w0)) as Hon.
  rewrite Hstatus in Hon.
  unfold dwelled, timer_after in *.
  destruct (is_within_target_temperature w0); cbn [andb negb] in *.
  - split; [|split; [|split]].
    + intros _. split; [reflexivity|].
      destruct (uint32 _ >=? _); cbn [negb] in *.
      * split; [reflexivity | apply Hoff; reflexivity].
      * split; reflexivity.
    + discriminate.
    + reflexivity.
    + exact Hon.
  - split; [|split; [|split]].
    + discriminate.
    + intros _. split; [reflexivity|]. split; reflexivity.
    + reflexivity.
    + exact Hon.
Qed.

(** C5. On a tick past the startup gate with readings in range: when the
    primary temperature is at or below the target the target-reached timer
    is started unless it is running, and the commanded state is off with
    status ReachedTarget exactly when the dwell time has elapsed since the
    timer started, otherwise on with status Cooling; when it is not, the
    timer is cleared and the commanded state is on with status Cooling.
    The commanded state and the timer of the tick are those of this
    evaluation, and so is its status unless an override replaces it. *)
Theorem target_evaluation_of_a_tick (ntc_1 ntc_2 : nat -> temperature) w :
  startup_delay_over w = true ->
  let w0 := read_sensors ntc_1 ntc_2 w in
  ntc1_out_of_range w0 = false ->
  ntc2_out_of_range w0 = false ->
  let w1 := base_decision w0 in
  exists w',
    update_state layout ntc_1 ntc_2 w = Running w'
    /\ (is_within_target_temperature w0 = true ->
        reached_target_temperature_at w'
        = (if reached_target_temperature_at w =? 0
           then millis w else reached_target_temperature_at w)
        /\ if uint32 (millis w - reached_target_temperature_at w')
              >=? hysteresis_ms (active_config w)
           then target_compressor_state (current_state w') = false
                /\ status (current_state w') = reached_target
           else target_compressor_state (current_state w') = true
                /\ status (current_state w1) = cooling)
    /\ (is_within_target_temperature w0 = false ->
        reached_target_temperature_at w' = 0
        /\ target_compressor_state (current_state w') = true
        /\ status (current_state w1) = cooling)
    /\ target_compressor_state (current_state w')
       = target_compressor_state (current_state w1)
    /\ (fst (overrides w1) = false ->
        status (current_state w') = status (current_state w1)).
Proof.
  cbv zeta. unfold update_state.
  destruct (read_sensors_frame ntc_1 ntc_2 w)
    as (Hg & Hr & Hm & Hc & _).
  rewrite <- Hg, <- Hr, <- Hm, <- Hc.
  exact (target_evaluation_after_sensors (read_sensors ntc_1 ntc_2 w)).
Qed.

(** *** C10 *)

Lemma has_dead_time_elapsed_sentinel w :
  compressor_turned_off_at w = 0 -> has_dead_time_elapsed w = true.
Proof. intros H. unfold has_dead_time_elapsed. rewrite H. reflexivity. Qed.

(** The dead-time override needs a stored off-transition. *)
Lemma overrides_dead_time w :
  status (current_state (snd (overrides w))) = dead_time ->
  status (current_state w) <> dead_time ->
  compressor_turned_off_at w <> 0.
Proof.
  intros Hs Hbefore Hoff.
  unfold overrides, has_compressor_exceeded_max_runtime in Hs.
  rewrite (has_dead_time_elapsed_sentinel w Hoff) in Hs.
  destruct (target_compressor_state (current_state w)); [|contradiction].
  destruct (is_compressor_overheating w); [discriminate|].
  destruct (exceeded_max_runtime_at w >? 0); cbn [fst snd] in Hs.
  - rewrite has_dead_time_elapsed_sentinel in Hs by exact Hoff.
    destruct (negb (is_compressor_on _)); cbn in Hs; contradiction.
  - destruct (is_compressor_on w).
    + destruct (uint32 _ >=? _); cbn [fst snd] in Hs; [discriminate|].
      rewrite has_dead_time_elapsed_sentinel in Hs by exact Hoff.
      destruct (negb (is_compressor_on _)); cbn in Hs; contradiction.
    + rewrite has_dead_time_elapsed_sentinel in Hs by exact Hoff.
      destruct (negb (is_compressor_on _)); cbn in Hs; contradiction.
Qed.

Lemma base_decision_status w :
  status (current_state (base_decision w)) <> dead_time.
Proof.
  destruct (base_decision_spec w) as (_ & _ & ->).
  destruct (dwelled w); discriminate.
Qed.

Lemma no_dead_time_after_sensors w0 w' :
  compressor_turned_off_at w0 = 0 ->
  evaluate layout w0 = Running w' ->
  status (current_state w') <> dead_time.
Proof.
  intros Hoff Hrun.
  destruct (evaluate_cases w0) as [[_ E]|(_ & _ & E)]; rewrite E in Hrun;
    [discriminate|].
  injection Hrun as <-. rewrite log_state_current_state.
  destruct (startup_delay_over w0).
  - rewrite decide_eq, set_compressor_status.
    intros Hs. apply overrides_dead_time in Hs.
    + apply Hs. destruct (base_decision_frame w0) as (_ & _ & _ & _ & -> & _).
      exact Hoff.
    + apply base_decision_status.
  - discriminate.
Qed.

(** C10. The compressor-off timestamp is 0 after [setup] and after every
    turn-on edge; while it is 0 the dead-time check answers that the dead
    time has elapsed, whatever the configuration; and a tick that starts
    with the timestamp at 0 never ends with status DeadTime. *)
Theorem dead_time_needs_an_off_transition :
  (forall c logging (s : card), compressor_turned_off_at (boot c logging s) = 0)
  /\ (forall w, actual_compressor_state (current_state w) = false ->
                compressor_turned_off_at (set_compressor true w) = 0)
  /\ (forall w c d dirty, compressor_turned_off_at w = 0 ->
                          has_dead_time_elapsed (set_configs c d dirty w) = true)
  /\ (forall ntc_1 ntc_2 w w',
        compressor_turned_off_at w = 0 ->
        update_state layout ntc_1 ntc_2 w = Running w' ->
        status (current_state w') <> dead_time).
Proof.
  split; [reflexivity|]. split; [|split].
  - intros w H. unfold set_compressor. rewrite H. reflexivity.
  - intros w c d dirty H. apply has_dead_time_elapsed_sentinel. exact H.
  - intros ntc_1 ntc_2 w w' Hoff. unfold update_state.
    apply no_dead_time_after_sensors.
    destruct (read_sensors_frame ntc_1 ntc_2 w) as (_ & _ & _ & _ & -> & _).
    exact Hoff.
Qed.

(** *** The relay and the timers follow the compressor state *)

Lemma consistent_core w w' : core w' = core w -> consistent w -> consistent w'.
Proof.
  unfold core, consistent. intros E H. injection E as -> -> -> -> ->. exact H.
Qed.

Lemma core_log_state w : core (log_state layout w) = core w.
Proof. unfold log_state. destruct (negb (logging_enabled w)); reflexivity. Qed.

Lemma core_base_decision w : core (base_decision w) = core w.
Proof. unfold base_decision. split_ifs; reflexivity. Qed.

Lemma core_overrides w : core (snd (overrides w)) = core w.
Proof.
  unfold overrides, has_compressor_exceeded_max_runtime.
  split_ifs; reflexivity.
Qed.

Lemma core_read_sensors (ntc_1 ntc_2 : nat -> temperature) w :
  core (read_sensors ntc_1 ntc_2 w) = core w.
Proof. reflexivity. Qed.

Lemma core_handle_input (i : input) w : core (handle_input i w) = core w.
Proof. unfold handle_input. destruct (in_edit i); reflexivity. Qed.

Lemma set_compressor_consistent (state : bool) w :
  consistent w ->
  (state = true -> startup_delay_over w = true) ->
  consistent (set_compressor state w).
Proof.
  unfold consistent, set_compressor. intros (Hr & Hon & Hoff & Hs) Hst.
  destruct state, (actual_compressor_state (current_state w)) eqn:E; cbn;
    rewrite ?E; repeat split; auto; try discriminate.
  intros Hf. rewrite Hst in Hf by reflexivity. discriminate.
Qed.

Lemma decide_consistent w :
  startup_delay_over w = true -> consistent w -> consistent (decide w).
Proof.
  intros Hs Hc. rewrite decide_eq.
  assert (Hcore : core (snd (overrides (base_decision w))) = core w)
    by (rewrite core_overrides; apply core_base_decision).
  apply set_compressor_consistent.
  - exact (consistent_core _ _ Hcore Hc).
  - intros _. unfold core in Hcore. injection Hcore as _ _ _ _ ->. exact Hs.
Qed.

Lemma evaluate_consistent w :
  consistent w -> consistent (world_of (evaluate layout w)).
Proof.
  intros Hc.
  destruct (evaluate_cases w) as [[_ ->]|(_ & _ & ->)]; cbn [world_of].
  - apply set_compressor_consistent; [exact Hc | discriminate].
  - apply (consistent_core _ _ (core_log_state _)).
    destruct (startup_delay_over w) eqn:Hs.
    + apply decide_consistent; assumption.
    + destruct Hc as (Hr & Hon & Hoff & Hgate).
      unfold consistent. cbn. repeat split; auto.
Qed.

Lemma loop_consistent (i : input) (m : machine card) :
  consistent (world_of m) -> consistent (world_of (loop layout i m)).
Proof.
  destruct m as [w|e w]; cbn [world_of loop]; [|auto]. intros Hc.
  destruct (uint32 (uint32 (in_millis i) - state_updated_at w) >=? 1000).
  - unfold update_state.
    set (w1 := set_millis (in_millis_tick i)
                 (if config_is_dirty w
                  then set_configs (dirty_config w) (dirty_config w) false w
                  else w)).
    assert (Hc1 : consistent (read_sensors (in_ntc_1 i) (in_ntc_2 i) w1)).
    { apply (consistent_core w); [|exact Hc].
      unfold w1. destruct (config_is_dirty w); reflexivity. }
    apply evaluate_consistent in Hc1.
    destruct (evaluate layout (read_sensors (in_ntc_1 i) (in_ntc_2 i) w1))
      as [w2|e w2]; cbn [world_of] in *; [|exact Hc1].
    apply (consistent_core w2); [|exact Hc1].
    rewrite core_handle_input. reflexivity.
  - apply (consistent_core w); [|exact Hc].
    cbn [world_of]. rewrite core_handle_input. reflexivity.
Qed.

Lemma reachable_consistent (m : machine card) :
  reachable layout m -> consistent (world_of m).
Proof.
  induction 1 as [c logging s|i m _ IH].
  - unfold consistent. cbn. auto.
  - apply loop_consistent, IH.
Qed.

(** X4. Every machine a run from [setup] reaches is consistent: the relay
    pin shows the recorded compressor state, a running compressor has no
    off timestamp and a stopped one no on timestamp, and the compressor is
    off as long as the startup delay is not over. *)
Theorem every_reachable_machine_is_consistent (m : machine card) :
  reachable layout m ->
  compressor_relay (world_of m)
  = actual_compressor_state (current_state (world_of m))
  /\ (actual_compressor_state (current_state (world_of m)) = true ->
      compressor_turned_off_at (world_of m) = 0)
  /\ (actual_compressor_state (current_state (world_of m)) = false ->
      compressor_turned_on_at (world_of m) = 0)
  /\ (startup_delay_over (world_of m) = false ->
      actual_compressor_state (current_state (world_of m)) = false).
Proof. intros H. exact (reachable_consistent m H). Qed.

(** *** C2 *)

(** Once halted, no pass of the loop changes anything. *)
Lemma run_halted (inputs : list input) (error : sensor_error) w :
  run layout inputs (Halted error w) = Halted error w.
Proof.
  induction inputs as [|i rest IH]; [reflexivity|]. cbn [run fold_left loop].
  exact IH.
Qed.

Lemma out_of_range_of_input (i : input) w :
  ntc1_out_of_range (read_sensors (in_ntc_1 i) (in_ntc_2 i) w) = primary_fault i
  /\ ntc2_out_of_range (read_sensors (in_ntc_1 i) (in_ntc_2 i) w)
     = secondary_fault i.
Proof.
  unfold ntc1_out_of_range, ntc2_out_of_range, primary_fault, secondary_fault,
    read_sensors, set_current_state, with_temperatures.
  cbn [current_state current_ntc1_temperature current_ntc2_temperature].
  split; reflexivity.
Qed.

(** A pass of the loop on which a tick is due. *)
Lemma loop_tick (i : input) w :
  tick_due i w = true ->
  loop layout i (Running w)
  = match update_state layout (in_ntc_1 i) (in_ntc_2 i)
            (set_millis (in_millis_tick i)
               (if config_is_dirty w
                then set_configs (dirty_config w) (dirty_config w) false w
                else w)) with
    | Halted error w' => Halted error w'
    | Running w' =>
      Running (handle_input i
                 (set_state_updated_at (uint32 (in_millis_done i)) w'))
    end.
Proof.
  intros Hdue. unfold tick_due in Hdue. cbn [loop].
  rewrite Hdue. reflexivity.
Qed.

(** C2. If on a tick the averaged primary reading is below -100 or above
    100 degrees, or the averaged secondary reading is above 100, the pass of
    the loop ends halted with the compressor off (state and relay pin), the
    card as it was before the tick, and nothing the environment supplies
    afterwards changes the machine: no compressor change, no log append. *)
Theorem sensor_fault_halts_for_good (i : input) w (later : list input) :
  reachable layout (Running w) ->
  tick_due i w = true ->
  primary_fault i || secondary_fault i = true ->
  exists error w',
    loop layout i (Running w) = Halted error w'
    /\ error = (if primary_fault i then N1 else N2)
    /\ actual_compressor_state (current_state w') = false
    /\ compressor_relay w' = false
    /\ sd w' = sd w
    /\ run layout later (loop layout i (Running w)) = Halted error w'.
Proof.
  intros Hreach Hdue Hfault.
  apply reachable_consistent in Hreach. cbn [world_of] in Hreach.
  rewrite (loop_tick i w Hdue). unfold update_state.
  set (w1 := set_millis (in_millis_tick i)
               (if config_is_dirty w
                then set_configs (dirty_config w) (dirty_config w) false w
                else w)).
  assert (Hcore : core (read_sensors (in_ntc_1 i) (in_ntc_2 i) w1) = core w)
    by (unfold w1; destruct (config_is_dirty w); reflexivity).
  assert (Hsd : sd (read_sensors (in_ntc_1 i) (in_ntc_2 i) w1) = sd w)
    by (unfold w1; destruct (config_is_dirty w); reflexivity).
  destruct (out_of_range_of_input i w1) as [H1 H2].
  rewrite evaluate_out_of_range by (rewrite H1, H2; exact Hfault).
  rewrite H1.
  generalize dependent (read_sensors (in_ntc_1 i) (in_ntc_2 i) w1).
  intros w0 Hcore Hsd _ _.
  exists (if primary_fault i then N1 else N2), (set_compressor false w0).
  split; [reflexivity|]. split; [reflexivity|].
  split; [apply set_compressor_actual|].
  split.
  { apply set_compressor_relay. unfold core in Hcore.
    injection Hcore as -> -> _ _ _. apply Hreach. }
  split; [rewrite set_compressor_sd; exact Hsd|].
  apply run_halted.
Qed.

(** *** C6 *)

(** The decision leaves the card, the logging flag, the configuration and
    the clock alone. *)
Lemma decide_frame w :
  sd (decide w) = sd w
  /\ logging_enabled (decide w) = logging_enabled w
  /\ active_config (decide w) = active_config w
  /\ millis (decide w) = millis w.
Proof.
  unfold decide, overrides, has_compressor_exceeded_max_runtime, base_decision,
    set_compressor.
  split_ifs; cbn; repeat split; reflexivity.
Qed.

Lemma log_state_sd w :
  sd (log_state layout w)
  = if logging_enabled w
    then snd (RecordLog.save_data_point (layout (data_point_of layout w)) (sd w))
    else sd w.
Proof. unfold log_state. destruct (logging_enabled w); reflexivity. Qed.

Lemma logging_after_sensors w0 :
  match evaluate layout w0 with
  | Running w' =>
    let post :=
      if startup_delay_over w0 then decide w0
      else set_status startup_delay
             (set_startup_delay_over (is_startup_delay_over w0) w0) in
    w' = log_state layout post
    /\ sd post = sd w0
    /\ current_state w' = current_state post
    /\ state (data_point_of layout post) = current_state w'
    /\ config (data_point_of layout post) = active_config w0
    /\ sd w'
       = (if logging_enabled w0
          then snd (RecordLog.save_data_point
                      (layout (data_point_of layout post)) (sd w0))
          else sd w0)
  | Halted _ w' => sd w' = sd w0
  end.
Proof.
  destruct (evaluate_cases w0) as [[_ ->]|(_ & _ & ->)];
    [apply set_compressor_sd|].
  cbv zeta. rewrite log_state_sd, log_state_current_state.
  destruct (startup_delay_over w0).
  - destruct (decide_frame w0) as (-> & -> & Hc & _).
    repeat split; try reflexivity. exact Hc.
  - repeat split; reflexivity.
Qed.



(** *** C4: the max-runtime override *)

(** The inputs of the overrides are those the tick started with. *)
Lemma base_decision_inputs w :
  is_compressor_overheating (base_decision w) = is_compressor_overheating w
  /\ is_compressor_on (base_decision w) = is_compressor_on w
  /\ has_dead_time_elapsed (base_decision w) = has_dead_time_elapsed w
  /\ exceeded_max_runtime_at (base_decision w) = exceeded_max_runtime_at w
  /\ compressor_turned_on_at (base_decision w) = compressor_turned_on_at w
  /\ compressor_turned_off_at (base_decision w) = compressor_turned_off_at w
  /\ millis (base_decision w) = millis w
  /\ active_config (base_decision w) = active_config w.
Proof.
  unfold base_decision.
  repeat match goal with
         | |- context [if ?c then _ else _] => destruct c
         end; repeat split; reflexivity.
Qed.

Lemma overrides_max_runtime_trips w :
  target_compressor_state (current_state w) = true ->
  is_compressor_overheating w = false ->
  is_compressor_on w = true ->
  exceeded_max_runtime_at w = 0 ->
  (uint32 (millis w - compressor_turned_on_at w)
   >=? max_run_time_ms (active_config w)) = true ->
  overrides w
  = (true, set_status compressor_max_runtime
             (set_exceeded_max_runtime_at (millis w) w)).
Proof.
  intros Ht Hh Hon He Hrun.
  unfold overrides, has_compressor_exceeded_max_runtime.
  rewrite Ht, Hh, He, Hon, Hrun. reflexivity.
Qed.

Lemma overrides_max_runtime_holds w :
  target_compressor_state (current_state w) = true ->
  is_compressor_overheating w = false ->
  exceeded_max_runtime_at w > 0 ->
  has_dead_time_elapsed w = false ->
  overrides w = (true, set_status compressor_max_runtime w).
Proof.
  intros Ht Hh He Hd.
  unfold overrides, has_compressor_exceeded_max_runtime.
  rewrite Ht, Hh, Hd.
  destruct (Z.gtb_spec (exceeded_max_runtime_at w) 0); [reflexivity | lia].
Qed.

Lemma overrides_max_runtime_releases w :
  target_compressor_state (current_state w) = true ->
  is_compressor_overheating w = false ->
  exceeded_max_runtime_at w > 0 ->
  has_dead_time_elapsed w = true ->
  overrides w = (false, set_exceeded_max_runtime_at 0 w).
Proof.
  intros Ht Hh He Hd.
  unfold overrides, has_compressor_exceeded_max_runtime.
  rewrite Ht, Hh, Hd.
  destruct (Z.gtb_spec (exceeded_max_runtime_at w) 0); [|lia].
  assert (Hd' : has_dead_time_elapsed (set_exceeded_max_runtime_at 0 w) = true)
    by exact Hd.
  rewrite Hd', andb_false_r. reflexivity.
Qed.

(** X2. The max-runtime override trips. With the compressor commanded on, not
    overheating, running, the latch clear, and the run time at or over the
    configured maximum, the decision reports MaxRuntime and switches the
    compressor off in the same tick, storing the clock reading as the time
    of the off-transition and in the latch. *)
Theorem max_runtime_trips w :
  dwelled w = false ->
  is_compressor_overheating w = false ->
  is_compressor_on w = true ->
  exceeded_max_runtime_at w = 0 ->
  (uint32 (millis w - compressor_turned_on_at w)
   >=? max_run_time_ms (active_config w)) = true ->
  status (current_state (decide w)) = compressor_max_runtime
  /\ actual_compressor_state (current_state (decide w)) = false
  /\ target_compressor_state (current_state (decide w)) = true
  /\ compressor_turned_off_at (decide w) = millis w
  /\ exceeded_max_runtime_at (decide w) = millis w.
Proof.
  intros Hd Hh Hon He Hrun.
  destruct (base_decision_spec w) as (_ & Htarget & _).
  rewrite Hd in Htarget. cbn [negb] in Htarget.
  destruct (base_decision_inputs w) as (Eh & Eon & _ & Ee & Eont & _ & Em & Ec).
  rewrite decide_eq, Htarget.
  rewrite (overrides_max_runtime_trips (base_decision w)); cycle 1.
  { exact Htarget. } { rewrite Eh. exact Hh. } { rewrite Eon. exact Hon. }
  { rewrite Ee. exact He. } { rewrite Em, Eont, Ec. exact Hrun. }
  cbn [fst snd andb negb]. rewrite Em.
  unfold is_compressor_on in Eon, Hon. rewrite Hon in Eon.
  unfold set_compressor. cbn. rewrite Eon. cbn. rewrite Htarget, Em.
  repeat split; reflexivity.
Qed.

(** X3. The max-runtime override holds, then lets go. With the latch set, the
    compressor off, commanded on and not overheating: as long as the dead
    time measured from the stored off-transition has not elapsed the
    decision reports MaxRuntime and keeps the compressor off, the latch and
    the timers as they were; once it has elapsed the latch is cleared, no
    override is active, the status is Cooling and the compressor starts. *)
Theorem max_runtime_holds_until_dead_time w :
  dwelled w = false ->
  is_compressor_overheating w = false ->
  is_compressor_on w = false ->
  exceeded_max_runtime_at w > 0 ->
  if has_dead_time_elapsed w
  then status (current_state (decide w)) = cooling
       /\ actual_compressor_state (current_state (decide w)) = true
       /\ exceeded_max_runtime_at (decide w) = 0
       /\ compressor_turned_on_at (decide w) = millis w
  else status (current_state (decide w)) = compressor_max_runtime
       /\ actual_compressor_state (current_state (decide w)) = false
       /\ exceeded_max_runtime_at (decide w) = exceeded_max_runtime_at w
       /\ compressor_turned_off_at (decide w) = compressor_turned_off_at w.
Proof.
  intros Hd Hh Hon He.
  destruct (base_decision_spec w) as (_ & Htarget & Hstatus).
  rewrite Hd in Htarget, Hstatus. cbn [negb] in Htarget.
  destruct (base_decision_inputs w) as (Eh & Eon & Ed & Ee & _ & Eoff & Em & _).
  unfold is_compressor_on in Eon, Hon. rewrite Hon in Eon.
  rewrite decide_eq, Htarget.
  destruct (has_dead_time_elapsed w) eqn:Hdead.
  - rewrite (overrides_max_runtime_releases (base_decision w)); cycle 1.
    { exact Htarget. } { rewrite Eh. exact Hh. } { rewrite Ee. exact He. }
    { exact Ed. }
    cbn [fst snd andb negb].
    unfold set_compressor. cbn. rewrite Eon. cbn. rewrite Hstatus, Em.
    repeat split; reflexivity.
  - rewrite (overrides_max_runtime_holds (base_decision w)); cycle 1.
    { exact Htarget. } { rewrite Eh. exact Hh. } { rewrite Ee. exact He. }
    { exact Ed. }
    cbn [fst snd andb negb].
    unfold set_compressor. cbn. rewrite Eon. cbn.
    repeat split; auto.
Qed.

(** *** Overheat comes first *)

(** X5. With the compressor commanded on and its body at or above the maximum
    safe temperature the status is Overheat and the compressor is off,
    whatever the run time, the latch and the dead time say; the latch is
    left as it was. *)
Theorem overheat_takes_precedence w :
  dwelled w = false ->
  is_compressor_overheating w = true ->
  status (current_state (decide w)) = overheat
  /\ actual_compressor_state (current_state (decide w)) = false
  /\ exceeded_max_runtime_at (decide w) = exceeded_max_runtime_at w.
Proof.
  intros Hd Hh.
  destruct (base_decision_spec w) as (_ & Htarget & _).
  rewrite Hd in Htarget. cbn [negb] in Htarget.
  destruct (base_decision_inputs w) as (Eh & _ & _ & Ee & _).
  rewrite <- Eh in Hh.
  assert (Hov : overrides (base_decision w)
                = (true, set_status overheat (base_decision w))).
  { unfold overrides. rewrite Htarget, Hh. reflexivity. }
  rewrite decide_eq, Hov, Htarget. cbn [fst snd andb negb].
  rewrite set_compressor_status, set_compressor_actual, set_compressor_exceeded.
  split; [reflexivity|]. split; [reflexivity | exact Ee].
Qed.

End ControlFacts.
End FreezerFacts.

(** ** The scenarios, evaluated *)

Module ScenarioFacts.
Import Freezer Scenario FreezerFacts.
Import RecordLog.

(** Scenario A: within target for 59.999 s the status is Cooling and the
    compressor runs; at 60 s the status is ReachedTarget and it is off. *)
Example scenario_A :
  observe (update_state sketch_layout (steady (-20)) (steady 30) dwelling)
  = (false, cooling, true, true, true, 3%nat)
  /\ observe (update_state sketch_layout (steady (-20)) (steady 30) dwelt)
     = (false, reached_target, false, false, false, 3%nat).
Proof. split; vm_compute; reflexivity. Qed.

Lemma target_evaluation_witness :
  exists w',
    update_state sketch_layout (steady (-20)) (steady 30) dwelt = Running w'
    /\ reached_target_temperature_at w' = 1000
    /\ target_compressor_state (current_state w') = false
    /\ status (current_state w') = reached_target.
Proof.
  assert (H1 : ntc1_out_of_range (read_sensors (steady (-20)) (steady 30) dwelt)
               = false) by (vm_compute; reflexivity).
  assert (H2 : ntc2_out_of_range (read_sensors (steady (-20)) (steady 30) dwelt)
               = false) by (vm_compute; reflexivity).
  assert (H3 : is_within_target_temperature
                 (read_sensors (steady (-20)) (steady 30) dwelt) = true)
    by (vm_compute; reflexivity).
  destruct (target_evaluation_of_a_tick sketch_layout (steady (-20)) (steady 30)
              dwelt eq_refl H1 H2) as (w' & Hrun & Hin & _).
  destruct (Hin H3) as [Htimer Hdwell].
  exists w'. split; [exact Hrun|]. split; [exact Htimer|].
  rewrite Htimer in Hdwell. exact Hdwell.
Defined.

(** Scenario D: the primary sensor reads 150 degrees on the first tick. *)
Lemma sensor_fault_witness :
  exists error w',
    loop sketch_layout (at_time 1004 150 30) (Running fresh) = Halted error w'
    /\ error = (if primary_fault (at_time 1004 150 30) then N1 else N2)
    /\ actual_compressor_state (current_state w') = false
    /\ compressor_relay w' = false
    /\ sd w' = sd fresh
    /\ run sketch_layout [at_time 2000 (-10) 30; at_time 3000 (-10) 30]
           (loop sketch_layout (at_time 1004 150 30) (Running fresh))
       = Halted error w'.
Proof.
  apply (sensor_fault_halts_for_good sketch_layout (at_time 1004 150 30) fresh
           [at_time 2000 (-10) 30; at_time 3000 (-10) 30]).
  - apply reach_boot.
  - vm_compute. reflexivity.
  - vm_compute. reflexivity.
Defined.



(** Scenario C. *)
Lemma overheat_takes_precedence_witness :
  status (current_state (decide overheated)) = overheat
  /\ actual_compressor_state (current_state (decide overheated)) = false
  /\ exceeded_max_runtime_at (decide overheated)
     = exceeded_max_runtime_at overheated.
Proof.
  apply (overheat_takes_precedence overheated); vm_compute; reflexivity.
Defined.

(** The worlds of the scenarios are consistent, and so is every machine a
    run reaches from them or from [setup]. *)
Example scenario_worlds_consistent :
  consistent before_wrap /\ consistent overdue /\ consistent cooling_down
  /\ consistent dwelt.
Proof. unfold consistent. cbn. repeat split; auto; discriminate. Qed.

Lemma every_reachable_machine_is_consistent_witness :
  compressor_relay
    (world_of (run sketch_layout [at_time 1004 (-10) 30; at_time 2040 (-10) 30]
                   (Running fresh)))
  = actual_compressor_state
      (current_state
         (world_of (run sketch_layout
                        [at_time 1004 (-10) 30; at_time 2040 (-10) 30]
                        (Running fresh)))).
Proof.
  assert (Hreach : reachable sketch_layout
                     (run sketch_layout
                          [at_time 1004 (-10) 30; at_time 2040 (-10) 30]
                          (Running fresh)))
    by (cbn [run fold_left]; apply reach_loop, reach_loop, reach_boot).
  destruct (every_reachable_machine_is_consistent sketch_layout _ Hreach)
    as [H _].
  exact H.
Defined.

Lemma evaluate_appends_one_record
  (layout : freezer_state_data_point -> list Z) (w0 : world ideal_card) :
  logging_enabled w0 = true ->
  ntc1_out_of_range w0 = false ->
  ntc2_out_of_range w0 = false ->
  let s0 := sector_of_bytes (firstn sizeof_sd_count_sector (blocks (sd w0) 0)) in
  let s1 := sector_of_bytes (firstn sizeof_sd_count_sector (blocks (sd w0) 1)) in
  let winner := if count s0 =? count s1 then s0 else spec_winner s0 s1 in
  let next := advance winner in
  exists w',
    evaluate layout w0 = Running w'
    /\ writes_of (sd w')
       = writes_of (sd w0)
         ++ (if count s0 =? count s1 then [] else [(1, sector_bytes winner)])
         ++ [ (0, sector_bytes next); (1, sector_bytes next);
              (uint32 (count next + 2), layout (data_point_of layout w')) ].
Proof.
  intros Hlog Hn1 Hn2. cbv zeta.
  pose proof (logging_after_sensors layout w0) as H.
  rewrite (evaluate_in_range layout _ Hn1 Hn2) in *. cbv zeta in H.
  set (post := if startup_delay_over w0 then decide w0
               else set_status startup_delay
                      (set_startup_delay_over (is_startup_delay_over w0) w0))
    in *.
  destruct H as (_ & _ & _ & _ & _ & Hcard). rewrite Hlog in Hcard.
  eexists. split; [reflexivity|]. rewrite Hcard.
  rewrite (RecordLogFacts.save_data_point_writes_of
             (layout (data_point_of layout post)) (sd w0)).
  do 2 f_equal. unfold data_point_of.
  destruct (log_state_flags layout post) as (_ & _ & Hc & Hm).
  rewrite Hc, Hm, log_state_current_state. reflexivity.
Qed.

(** X6. With logging enabled and a card that takes every write, a tick
    with readings in range adds exactly the writes of one append: the repair of
    block 1 if the counters disagreed, the advanced counter in blocks 0 and
    1, and the record of the state the tick decided. *)
Theorem tick_appends_one_record
  (layout : freezer_state_data_point -> list Z)
  (ntc_1 ntc_2 : nat -> temperature) (w : world ideal_card) :
  logging_enabled w = true ->
  ntc1_out_of_range (read_sensors ntc_1 ntc_2 w) = false ->
  ntc2_out_of_range (read_sensors ntc_1 ntc_2 w) = false ->
  let s0 := sector_of_bytes (firstn sizeof_sd_count_sector (blocks (sd w) 0)) in
  let s1 := sector_of_bytes (firstn sizeof_sd_count_sector (blocks (sd w) 1)) in
  let winner := if count s0 =? count s1 then s0 else spec_winner s0 s1 in
  let next := advance winner in
  exists w',
    update_state layout ntc_1 ntc_2 w = Running w'
    /\ writes_of (sd w')
       = writes_of (sd w)
         ++ (if count s0 =? count s1 then [] else [(1, sector_bytes winner)])
         ++ [ (0, sector_bytes next); (1, sector_bytes next);
              (uint32 (count next + 2), layout (data_point_of layout w')) ].
Proof.
  cbv zeta. unfold update_state.
  destruct (read_sensors_frame ntc_1 ntc_2 w)
    as (_ & _ & _ & _ & _ & _ & _ & _ & _ & Hl & Hs).
  rewrite <- Hl, <- Hs.
  exact (evaluate_appends_one_record layout (read_sensors ntc_1 ntc_2 w)).
Qed.

Lemma tick_appends_one_record_witness :
  exists w',
    update_state sketch_layout (steady (-10)) (steady 30) dwelt = Running w'
    /\ length (writes_of (sd w')) = 3%nat.
Proof.
  assert (H1 : ntc1_out_of_range (read_sensors (steady (-10)) (steady 30) dwelt)
               = false) by (vm_compute; reflexivity).
  assert (H2 : ntc2_out_of_range (read_sensors (steady (-10)) (steady 30) dwelt)
               = false) by (vm_compute; reflexivity).
  destruct (tick_appends_one_record sketch_layout (steady (-10)) (steady 30)
              dwelt eq_refl H1 H2) as (w' & Hrun & Hw).
  exists w'. split; [exact Hrun|]. rewrite Hw. reflexivity.
Defined.

(** Scenario B away from the wrap of the counter. *)
Lemma max_runtime_trips_witness :
  status (current_state (decide overdue)) = compressor_max_runtime
  /\ actual_compressor_state (current_state (decide overdue)) = false
  /\ target_compressor_state (current_state (decide overdue)) = true
  /\ compressor_turned_off_at (decide overdue) = millis overdue
  /\ exceeded_max_runtime_at (decide overdue) = millis overdue.
Proof.
  apply (max_runtime_trips overdue); vm_compute; reflexivity.
Defined.

Lemma max_runtime_holds_witness :
  if has_dead_time_elapsed cooling_down
  then status (current_state (decide cooling_down)) = cooling
       /\ actual_compressor_state (current_state (decide cooling_down)) = true
       /\ exceeded_max_runtime_at (decide cooling_down) = 0
       /\ compressor_turned_on_at (decide cooling_down) = millis cooling_down
  else status (current_state (decide cooling_down)) = compressor_max_runtime
       /\ actual_compressor_state (current_state (decide cooling_down)) = false
       /\ exceeded_max_runtime_at (decide cooling_down)
          = exceeded_max_runtime_at cooling_down
       /\ compressor_turned_off_at (decide cooling_down)
          = compressor_turned_off_at cooling_down.
Proof.
  apply (max_runtime_holds_until_dead_time cooling_down);
    vm_compute; reflexivity.
Defined.

Example scenario_B :
  observe (update_state sketch_layout (steady (-10)) (steady 30) overdue)
  = (false, compressor_max_runtime, true, false, false, 3%nat)
  /\ observe (update_state sketch_layout (steady (-10)) (steady 30) cooling_down)
     = (false, compressor_max_runtime, true, false, false, 3%nat)
  /\ observe (update_state sketch_layout (steady (-10)) (steady 30) cooled_down)
     = (false, cooling, true, true, true, 3%nat).
Proof. repeat split; vm_compute; reflexivity. Qed.

(** C4, on the code. The maximum run time is reached on the tick at which
    the millisecond counter reads 0. That tick reports MaxRuntime and
    switches the compressor off, but the two timestamps it stores are 0,
    the value that means unset. At the next tick, 1040 ms later, with a dead time of
    300000 ms configured, the latch is found clear and the dead time is
    found elapsed: the status is Cooling and the compressor runs again. Had
    the counter read 1 instead, MaxRuntime would still hold one second
    later. *)
Theorem max_runtime_latch_lost_when_clock_reads_zero :
  dead_time_ms default_config = 300000
  /\ observe (run sketch_layout [at_time 0 (-10) 30] (Running before_wrap))
     = (false, compressor_max_runtime, true, false, false, 3%nat)
  /\ compressor_turned_off_at
       (world_of (run sketch_layout [at_time 0 (-10) 30] (Running before_wrap)))
     = 0
  /\ exceeded_max_runtime_at
       (world_of (run sketch_layout [at_time 0 (-10) 30] (Running before_wrap)))
     = 0
  /\ observe (run sketch_layout [at_time 0 (-10) 30; at_time 1040 (-10) 30]
                  (Running before_wrap))
     = (false, cooling, true, true, true, 6%nat)
  /\ observe (run sketch_layout [at_time 1 (-10) 30; at_time 1041 (-10) 30]
                  (Running before_wrap))
     = (false, compressor_max_runtime, true, false, false, 6%nat).
Proof. repeat split; vm_compute; reflexivity. Qed.

End ScenarioFacts.

(** ** The algebra of the checksum *)

Module CrcAlgebra.
Import Crc CrcFacts.

Lemma crc8_shift_zero : crc8_shift 0 = 0.
Proof. reflexivity. Qed.

Lemma crc8_byte_self (c : Z) : crc8_byte c c = 0.
Proof. unfold crc8_byte. rewrite Z.lxor_nilpotent. reflexivity. Qed.

Lemma crc8_loop_app (xs ys : list Z) :
  forall c, crc8_loop (xs ++ ys) c = crc8_loop ys (crc8_loop xs c).
Proof.
  induction xs as [|x xs IH]; intros c; [reflexivity|].
  cbn [app]. rewrite !crc8_loop_cons. apply IH.
Qed.

(** One round of the register is linear over exclusive-or. *)
Lemma crc8_shift_lxor (a b : Z) :
  is_byte a -> is_byte b ->
  crc8_shift (Z.lxor a b) = Z.lxor (crc8_shift a) (crc8_shift b).
Proof.
  intros Ha Hb. apply Z.eqb_eq.
  apply (bytes_ind2 (fun a b => crc8_shift (Z.lxor a b)
                                =? Z.lxor (crc8_shift a) (crc8_shift b)));
    [vm_compute; reflexivity | exact Ha | exact Hb].
Qed.

Lemma iter_shift_is_byte (n : nat) (a : Z) :
  is_byte a -> is_byte (Nat.iter n crc8_shift a).
Proof.
  intros Ha. destruct n as [|n]; [exact Ha|].
  rewrite Nat.iter_succ. apply crc8_shift_is_byte.
Qed.

Lemma iter_shift_lxor (n : nat) (a b : Z) :
  is_byte a -> is_byte b ->
  Nat.iter n crc8_shift (Z.lxor a b)
  = Z.lxor (Nat.iter n crc8_shift a) (Nat.iter n crc8_shift b).
Proof.
  intros Ha Hb. induction n as [|n IH]; [reflexivity|].
  rewrite !Nat.iter_succ, IH.
  apply crc8_shift_lxor; apply iter_shift_is_byte; assumption.
Qed.

Lemma crc8_byte_lxor (c d x y : Z) :
  is_byte c -> is_byte d -> is_byte x -> is_byte y ->
  crc8_byte (Z.lxor c d) (Z.lxor x y)
  = Z.lxor (crc8_byte c x) (crc8_byte d y).
Proof.
  intros Hc Hd Hx Hy. unfold crc8_byte.
  replace (Z.lxor (Z.lxor c d) (Z.lxor x y))
    with (Z.lxor (Z.lxor c x) (Z.lxor d y)).
  - apply iter_shift_lxor; apply lxor_is_byte; assumption.
  - rewrite !Z.lxor_assoc. f_equal.
    rewrite <- !Z.lxor_assoc. f_equal. apply Z.lxor_comm.
Qed.

Lemma crc8_loop_lxor (xs : list Z) :
  forall ys c d,
  length xs = length ys ->
  Forall is_byte xs -> Forall is_byte ys -> is_byte c -> is_byte d ->
  crc8_loop (map (fun '(x, y) => Z.lxor x y) (combine xs ys)) (Z.lxor c d)
  = Z.lxor (crc8_loop xs c) (crc8_loop ys d).
Proof.
  induction xs as [|x xs IH]; intros [|y ys] c d Hlen Hxs Hys Hc Hd;
    try discriminate; [reflexivity|].
  cbn [combine map]. rewrite !crc8_loop_cons.
  inversion Hxs; subst. inversion Hys; subst.
  rewrite crc8_byte_lxor by assumption.
  apply IH; auto; apply crc8_byte_is_byte.
Qed.

(** X29. The algebra of the checksum. A message followed by its own
    checksum has checksum zero, which is how a reader checks a counter
    sector; and over messages of bytes of the same length the checksum is
    linear: the checksum of the bytewise exclusive-or of two messages is the
    exclusive-or of their checksums. *)
Theorem calculate_crc8_is_linear (xs ys : list Z) :
  length xs = length ys -> Forall is_byte xs -> Forall is_byte ys ->
  calculate_crc8 (xs ++ [calculate_crc8 xs]) = 0
  /\ calculate_crc8 (map (fun '(x, y) => Z.lxor x y) (combine xs ys))
     = Z.lxor (calculate_crc8 xs) (calculate_crc8 ys).
Proof.
  intros Hlen Hxs Hys. unfold calculate_crc8. split.
  - rewrite crc8_loop_app. cbn [crc8_loop]. apply crc8_byte_self.
  - change 0 with (Z.lxor 0 0) at 1.
    apply crc8_loop_lxor; auto; unfold is_byte; lia.
Qed.

End CrcAlgebra.

(** ** Safety of the control loop *)

Module SafetyFacts.
Import Freezer FreezerFacts Safety.

Section ControlSafety.
Context {card : Type} {dev : BlockDevice card}.
Variable layout : freezer_state_data_point -> list Z.

Implicit Types w : world card.

Ltac split_ifs :=
  repeat match goal with
         | |- context [if ?c then _ else _] => destruct c eqn:?
         | H : context [if ?c then _ else _] |- _ => destruct c eqn:?
         end.

Lemma set_compressor_off_when_off w :
  actual_compressor_state (current_state w) = false ->
  set_compressor false w = w.
Proof. intros H. rewrite <- H at 1. apply set_compressor_same. Qed.

Lemma decide_within_dead_time w :
  is_compressor_on w = false ->
  has_dead_time_elapsed w = false ->
  actual_compressor_state (current_state (decide w)) = false
  /\ compressor_relay (decide w) = compressor_relay w
  /\ compressor_turned_off_at (decide w) = compressor_turned_off_at w.
Proof.
  intros Hoff Hdead. rewrite decide_eq.
  pose proof (base_decision_frame w) as Hb. cbv zeta in Hb.
  destruct Hb as (Ha & _ & _ & _ & Hoffat & _ & Hcfg & Hms & Hrel & _).
  set (w1 := base_decision w) in *.
  assert (Hoff1 : is_compressor_on w1 = false)
    by (unfold is_compressor_on in *; congruence).
  assert (Hdead1 : has_dead_time_elapsed w1 = false)
    by (unfold has_dead_time_elapsed in *; rewrite Hoffat, Hcfg, Hms; exact Hdead).
  assert (Hov : target_compressor_state (current_state w1)
                && negb (fst (overrides w1)) = false).
  { unfold overrides, has_compressor_exceeded_max_runtime.
    unfold has_dead_time_elapsed, is_compressor_on in *.
    destruct (target_compressor_state (current_state w1)); [|reflexivity].
    cbn [andb].
    destruct (is_compressor_overheating w1); [reflexivity|].
    destruct (exceeded_max_runtime_at w1 >? 0).
    - rewrite Hdead1. reflexivity.
    - rewrite Hoff1. cbn. rewrite Hoff1. cbn.
      unfold has_dead_time_elapsed. cbn. rewrite Hdead1. reflexivity. }
  rewrite Hov.
  pose proof (overrides_frame w1) as Hf. cbv zeta in Hf.
  destruct Hf as (_ & Ha2 & _ & Hoff2 & _ & _ & Hrel2 & _).
  rewrite set_compressor_off_when_off
    by (rewrite Ha2; exact Hoff1).
  rewrite Ha2, Hoff2, Hrel2. unfold is_compressor_on in Hoff1.
  repeat split; congruence.
Qed.


Lemma evaluate_within_dead_time w0 :
  is_compressor_on w0 = false ->
  has_dead_time_elapsed w0 = false ->
  actual_compressor_state (current_state (world_of (evaluate layout w0))) = false
  /\ compressor_relay (world_of (evaluate layout w0)) = compressor_relay w0
  /\ compressor_turned_off_at (world_of (evaluate layout w0))
     = compressor_turned_off_at w0.
Proof.
  intros Hoff Hdead.
  destruct (evaluate_cases layout w0) as [[_ ->]|(_ & _ & ->)]; cbn [world_of].
  - rewrite set_compressor_off_when_off by exact Hoff. auto.
  - rewrite log_state_current_state, log_state_relay.
    destruct (log_state_timers layout
                (if startup_delay_over w0 then decide w0
                 else set_status startup_delay
                        (set_startup_delay_over (is_startup_delay_over w0) w0)))
      as (_ & -> & _).
    destruct (startup_delay_over w0).
    + apply decide_within_dead_time; assumption.
    + cbn. auto.
Qed.

(** X8. Short-cycle protection. A tick that finds the compressor off and
    the dead time since its last switch-off not yet elapsed leaves it off,
    whatever the sensors read and whichever branch the tick takes; the relay
    pin is not written and the off timestamp is not refreshed, so the dead
    time keeps counting from the original switch-off. *)
Theorem no_restart_within_dead_time (ntc_1 ntc_2 : nat -> temperature) w :
  actual_compressor_state (current_state w) = false ->
  has_dead_time_elapsed w = false ->
  actual_compressor_state
    (current_state (world_of (update_state layout ntc_1 ntc_2 w))) = false
  /\ compressor_relay (world_of (update_state layout ntc_1 ntc_2 w))
     = compressor_relay w
  /\ compressor_turned_off_at (world_of (update_state layout ntc_1 ntc_2 w))
     = compressor_turned_off_at w.
Proof.
  intros Hoff Hdead. unfold update_state.
  destruct (read_sensors_frame ntc_1 ntc_2 w)
    as (_ & _ & Hms & Hcfg & Hoffat & _ & _ & Hact & Hrel & _).
  rewrite <- Hrel, <- Hoffat.
  apply evaluate_within_dead_time.
  - unfold is_compressor_on. rewrite Hact. exact Hoff.
  - unfold has_dead_time_elapsed in *. rewrite Hoffat, Hms, Hcfg. exact Hdead.
Qed.

(** *** The startup gate *)

Lemma set_compressor_flags (state : bool) w :
  startup_delay_over (set_compressor state w) = startup_delay_over w
  /\ logging_enabled (set_compressor state w) = logging_enabled w.
Proof. unfold set_compressor. split_ifs; cbn; auto. Qed.

Lemma decide_startup_flag w :
  startup_delay_over (decide w) = startup_delay_over w.
Proof.
  unfold decide, overrides, has_compressor_exceeded_max_runtime, base_decision,
    set_compressor.
  split_ifs; reflexivity.
Qed.

Lemma evaluate_keeps_startup_latch w0 :
  startup_delay_over w0 = true ->
  startup_delay_over (world_of (evaluate layout w0)) = true.
Proof.
  intros H.
  destruct (evaluate_cases layout w0) as [[_ ->]|(_ & _ & ->)]; cbn [world_of].
  - destruct (set_compressor_flags false w0) as [-> _]. exact H.
  - destruct (log_state_flags layout
                (if startup_delay_over w0 then decide w0
                 else set_status startup_delay
                        (set_startup_delay_over (is_startup_delay_over w0) w0)))
      as (-> & _).
    rewrite H. rewrite decide_startup_flag. exact H.
Qed.

Lemma handle_input_startup_flag (i : input) w :
  startup_delay_over (handle_input i w) = startup_delay_over w.
Proof. unfold handle_input. destruct (in_edit i); reflexivity. Qed.

Lemma loop_keeps_startup_latch (i : input) (m : machine card) :
  startup_delay_over (world_of m) = true ->
  startup_delay_over (world_of (loop layout i m)) = true.
Proof.
  destruct m as [w|e w]; cbn [world_of loop]; [|auto]. intros H.
  destruct (uint32 (uint32 (in_millis i) - state_updated_at w) >=? 1000).
  - unfold update_state.
    set (w1 := set_millis (in_millis_tick i)
                 (if config_is_dirty w
                  then set_configs (dirty_config w) (dirty_config w) false w
                  else w)).
    assert (H1 : startup_delay_over (read_sensors (in_ntc_1 i) (in_ntc_2 i) w1)
                 = true).
    { destruct (read_sensors_frame (in_ntc_1 i) (in_ntc_2 i) w1) as (-> & _).
      unfold w1. destruct (config_is_dirty w); exact H. }
    apply evaluate_keeps_startup_latch in H1.
    destruct (evaluate layout (read_sensors (in_ntc_1 i) (in_ntc_2 i) w1))
      as [w2|e w2]; cbn [world_of] in *; [|exact H1].
    rewrite handle_input_startup_flag. exact H1.
  - cbn [world_of]. rewrite handle_input_startup_flag. exact H.
Qed.

(** X9. The startup gate is passed once. Once a tick has seen the startup
    delay over, the flag stays set through every later pass of the loop,
    whatever the millisecond counter reads afterwards (it may have wrapped
    to a value below the delay), also through a halt. *)
Theorem startup_gate_is_passed_once (inputs : list input) (m : machine card) :
  startup_delay_over (world_of m) = true ->
  startup_delay_over (world_of (run layout inputs m)) = true.
Proof.
  revert m. induction inputs as [|i rest IH]; intros m H; [exact H|].
  cbn [run fold_left]. apply IH. apply loop_keeps_startup_latch, H.
Qed.

(** *** Overheating *)

Lemma decide_when_overheating w :
  is_compressor_overheating w = true ->
  decide w = set_compressor false (snd (overrides (base_decision w))).
Proof.
  intros Hhot. rewrite decide_eq. f_equal.
  pose proof (base_decision_frame w) as Hb. cbv zeta in Hb.
  destruct Hb as (_ & _ & Hn2 & _ & _ & _ & Hcfg & _).
  assert (Hhot1 : is_compressor_overheating (base_decision w) = true)
    by (unfold is_compressor_overheating in *; rewrite Hn2, Hcfg; exact Hhot).
  unfold overrides. rewrite Hhot1.
  destruct (target_compressor_state (current_state (base_decision w)));
    reflexivity.
Qed.

Lemma evaluate_when_overheating w0 :
  consistent w0 ->
  is_compressor_overheating w0 = true ->
  actual_compressor_state (current_state (world_of (evaluate layout w0))) = false
  /\ compressor_relay (world_of (evaluate layout w0)) = false.
Proof.
  intros Hc Hhot.
  destruct (evaluate_cases layout w0) as [[_ ->]|(_ & _ & ->)]; cbn [world_of].
  - split; [apply set_compressor_actual|].
    apply set_compressor_relay. apply Hc.
  - rewrite log_state_current_state, log_state_relay.
    destruct (startup_delay_over w0) eqn:Hs.
    + rewrite decide_when_overheating by exact Hhot.
      split; [apply set_compressor_actual|].
      apply set_compressor_relay.
      assert (Hcore : core (snd (overrides (base_decision w0))) = core w0)
        by (rewrite core_overrides; apply core_base_decision).
      apply (consistent_core _ _ Hcore Hc).
    + destruct Hc as (Hr & _ & _ & Hgate). cbn.
      rewrite Hr. split; apply Hgate, Hs.
Qed.

(** The configuration a tick works with: the edited copy when it is marked
    dirty, the active one otherwise. *)
Lemma config_of_tick (i : input) w :
  active_config
    (read_sensors (in_ntc_1 i) (in_ntc_2 i)
       (set_millis (in_millis_tick i)
          (if config_is_dirty w
           then set_configs (dirty_config w) (dirty_config w) false w
           else w)))
  = if config_is_dirty w then dirty_config w else active_config w.
Proof. destruct (config_is_dirty w); reflexivity. Qed.

(** X10. Overheat protection, end to end. On a tick of a run from [setup]
    whose averaged compressor-body reading is at or above the maximum
    temperature of the configuration in effect, the pass of the loop ends
    with the compressor off, in the recorded state and on the relay pin:
    whether the tick halts on a sensor fault, is still in the startup delay,
    or takes the decision. *)
Theorem overheating_tick_leaves_compressor_off (i : input) w :
  reachable layout (Running w) ->
  tick_due i w = true ->
  SFleb (compressor_max_temp
           (if config_is_dirty w then dirty_config w else active_config w))
        (average10 (in_ntc_2 i)) = true ->
  actual_compressor_state
    (current_state (world_of (loop layout i (Running w)))) = false
  /\ compressor_relay (world_of (loop layout i (Running w))) = false.
Proof.
  intros Hreach Hdue Hhot.
  apply reachable_consistent in Hreach. cbn [world_of] in Hreach.
  rewrite (loop_tick layout i w Hdue). unfold update_state.
  rewrite <- (config_of_tick i w) in Hhot.
  set (w1 := set_millis (in_millis_tick i)
               (if config_is_dirty w
                then set_configs (dirty_config w) (dirty_config w) false w
                else w)) in *.
  assert (Hcore : core (read_sensors (in_ntc_1 i) (in_ntc_2 i) w1) = core w)
    by (unfold w1; destruct (config_is_dirty w); reflexivity).
  assert (Hhot0 : is_compressor_overheating
                    (read_sensors (in_ntc_1 i) (in_ntc_2 i) w1) = true).
  { unfold is_compressor_overheating. 
    unfold read_sensors at 2, set_current_state, with_temperatures.
    cbn [current_state current_ntc2_temperature]. exact Hhot. }
  clear Hhot.
  generalize dependent (read_sensors (in_ntc_1 i) (in_ntc_2 i) w1).
  intros w0 Hcore Hhot0.
  assert (Hc0 : consistent w0) by exact (consistent_core _ _ Hcore Hreach).
  destruct (evaluate_when_overheating w0 Hc0 Hhot0) as [Ha Hr].
  destruct (evaluate layout w0) as [w2|e w2]; cbn [world_of] in *.
  - pose proof (core_handle_input i
                  (set_state_updated_at (uint32 (in_millis_done i)) w2)) as Hk.
    unfold core in Hk. cbn in Hk.
    injection Hk as -> -> _ _ _. auto.
  - auto.
Qed.

(** *** Logging disabled *)

Lemma log_state_disabled w : logging_enabled w = false -> log_state layout w = w.
Proof. intros H. unfold log_state. rewrite H. reflexivity. Qed.

Lemma evaluate_without_logging w0 :
  logging_enabled w0 = false ->
  logging_enabled (world_of (evaluate layout w0)) = false
  /\ sd (world_of (evaluate layout w0)) = sd w0.
Proof.
  intros H.
  destruct (evaluate_cases layout w0) as [[_ ->]|(_ & _ & ->)]; cbn [world_of].
  - destruct (set_compressor_flags false w0) as [_ ->].
    rewrite set_compressor_sd. auto.
  - destruct (startup_delay_over w0).
    + destruct (decide_frame w0) as (Hsd & Hl & _).
      rewrite log_state_disabled by (rewrite Hl; exact H).
      rewrite Hsd, Hl. auto.
    + rewrite log_state_disabled by exact H. auto.
Qed.

Lemma loop_without_logging (i : input) (m : machine card) :
  logging_enabled (world_of m) = false ->
  logging_enabled (world_of (loop layout i m)) = false
  /\ sd (world_of (loop layout i m)) = sd (world_of m).
Proof.
  destruct m as [w|e w]; cbn [world_of loop]; [|auto]. intros H.
  assert (Hin : forall w', logging_enabled (handle_input i w') = logging_enabled w'
                           /\ sd (handle_input i w') = sd w')
    by (intros w'; unfold handle_input; destruct (in_edit i); auto).
  destruct (uint32 (uint32 (in_millis i) - state_updated_at w) >=? 1000).
  - unfold update_state.
    set (w1 := set_millis (in_millis_tick i)
                 (if config_is_dirty w
                  then set_configs (dirty_config w) (dirty_config w) false w
                  else w)).
    destruct (read_sensors_frame (in_ntc_1 i) (in_ntc_2 i) w1)
      as (_ & _ & _ & _ & _ & _ & _ & _ & _ & Hl & Hs).
    assert (Hl1 : logging_enabled w1 = false)
      by (unfold w1; destruct (config_is_dirty w); exact H).
    assert (Hs1 : sd w1 = sd w)
      by (unfold w1; destruct (config_is_dirty w); reflexivity).
    rewrite Hl1 in Hl. rewrite Hs1 in Hs.
    generalize dependent (read_sensors (in_ntc_1 i) (in_ntc_2 i) w1).
    intros w0 Hl Hs.
    destruct (evaluate_without_logging w0 Hl) as [Hl' Hs'].
    destruct (evaluate layout w0) as [w2|e w2]; cbn [world_of] in *.
    + destruct (Hin (set_state_updated_at (uint32 (in_millis_done i)) w2))
        as [-> ->]. cbn. split; congruence.
    + split; congruence.
  - cbn [world_of]. destruct (Hin w) as [-> ->]. auto.
Qed.

(** X11. With logging disabled at [setup] (the card did not initialise) no
    pass of the loop enables it and none touches the card: after any run
    the card is the one [setup] left. *)
Theorem no_card_access_without_logging
  (c : freezer_config) (s : card) (inputs : list input) :
  logging_enabled (world_of (run layout inputs (Running (boot c false s)))) = false
  /\ sd (world_of (run layout inputs (Running (boot c false s)))) = s.
Proof.
  assert (H : forall (m : machine card),
             logging_enabled (world_of m) = false ->
             logging_enabled (world_of (run layout inputs m)) = false
             /\ sd (world_of (run layout inputs m)) = sd (world_of m)).
  { induction inputs as [|i rest IH]; intros m Hm; [auto|].
    cbn [run fold_left].
    destruct (loop_without_logging i m Hm) as [Hl Hs].
    destruct (IH (loop layout i m) Hl) as [Hl' Hs'].
    split; [exact Hl'|]. unfold run in Hs'. congruence. }
  apply (H (Running (boot c false s))). reflexivity.
Qed.

(** *** The status and the compressor *)

Lemma decide_status_tracks_compressor w : status_tracks_compressor (decide w).
Proof.
  unfold status_tracks_compressor. rewrite decide_eq.
  rewrite set_compressor_actual, set_compressor_status.
  pose proof (overrides_status (base_decision w)) as Hst.
  pose proof (base_decision_spec w) as Hb. cbv zeta in Hb.
  destruct Hb as (_ & Ht & Hs).
  destruct (overrides (base_decision w)) as [ov w2]. cbn [fst snd].
  rewrite Ht. destruct ov.
  - rewrite andb_false_r.
    split; [discriminate|]. intros E.
    destruct Hst as [H|[H|H]]; rewrite H in E; discriminate.
  - rewrite Hst, Hs. destruct (dwelled w); cbn; split; auto; discriminate.
Qed.

Lemma evaluate_status_tracks_compressor w0 w' :
  consistent w0 ->
  evaluate layout w0 = Running w' ->
  status_tracks_compressor w'.
Proof.
  intros Hc.
  destruct (evaluate_cases layout w0) as [[_ ->]|(_ & _ & ->)];
    [discriminate|].
  intros E. injection E as <-.
  unfold status_tracks_compressor. rewrite log_state_current_state.
  destruct (startup_delay_over w0) eqn:Hs.
  - apply decide_status_tracks_compressor.
  - destruct Hc as (_ & _ & _ & Hgate). cbn.
    rewrite (Hgate Hs). split; discriminate.
Qed.

Lemma reachable_status_tracks_compressor (m : machine card) :
  reachable layout m ->
  match m with
  | Running w => status_tracks_compressor w
  | Halted _ _ => True
  end.
Proof.
  induction 1 as [c logging s|i m Hreach IH].
  - unfold status_tracks_compressor. cbn. split; discriminate.
  - destruct m as [w|e w]; cbn [loop]; [|exact I].
    assert (Hin : forall w', current_state (handle_input i w') = current_state w')
      by (intros w'; unfold handle_input; destruct (in_edit i); reflexivity).
    apply reachable_consistent in Hreach. cbn [world_of] in Hreach.
    destruct (uint32 (uint32 (in_millis i) - state_updated_at w) >=? 1000).
    + unfold update_state.
      set (w1 := set_millis (in_millis_tick i)
                   (if config_is_dirty w
                    then set_configs (dirty_config w) (dirty_config w) false w
                    else w)).
      assert (Hcore : core (read_sensors (in_ntc_1 i) (in_ntc_2 i) w1) = core w)
        by (unfold w1; destruct (config_is_dirty w); reflexivity).
      generalize dependent (read_sensors (in_ntc_1 i) (in_ntc_2 i) w1).
      intros w0 Hcore.
      assert (Hc0 : consistent w0) by exact (consistent_core _ _ Hcore Hreach).
      destruct (evaluate layout w0) as [w2|e w2] eqn:E; [|exact I].
      pose proof (evaluate_status_tracks_compressor w0 w2 Hc0 E) as Ht.
      unfold status_tracks_compressor in *. rewrite Hin. exact Ht.
    + unfold status_tracks_compressor in *. rewrite Hin. exact IH.
Qed.

(** X12. In every running machine a run from [setup] reaches, the
    compressor is on exactly when the status is Cooling: every other status
    (Off, ReachedTarget, DeadTime, MaxRuntime, StartupDelay, Overheat) goes
    with a compressor that is off. *)
Theorem compressor_runs_iff_status_cooling w :
  reachable layout (Running w) ->
  (actual_compressor_state (current_state w) = true
   <-> status (current_state w) = cooling)
  /\ (compressor_relay w = true <-> status (current_state w) = cooling).
Proof.
  intros Hreach.
  pose proof (reachable_status_tracks_compressor _ Hreach) as Ht.
  apply reachable_consistent in Hreach. cbn [world_of] in Hreach.
  destruct Hreach as (Hr & _). cbn beta iota in Ht.
  split; [exact Ht|]. rewrite Hr. exact Ht.
Qed.


(** *** Cooling *)

(** X27. The compressor cools when nothing forbids it. In a decision with
    the primary reading above the target, the compressor body below its
    maximum temperature, the max-runtime latch clear, and either the
    compressor running for less than the maximum run time or the compressor
    off with its dead time elapsed: the status is Cooling and the compressor
    is on after the decision; one that was off is switched on with the clock
    reading as its start time, one that was on keeps its start time. *)
Theorem compressor_cools_when_nothing_forbids w :
  consistent w ->
  is_within_target_temperature w = false ->
  is_compressor_overheating w = false ->
  exceeded_max_runtime_at w = 0 ->
  (is_compressor_on w = true ->
   (uint32 (millis w - compressor_turned_on_at w)
    >=? max_run_time_ms (active_config w)) = false) ->
  (is_compressor_on w = false -> has_dead_time_elapsed w = true) ->
  status (current_state (decide w)) = cooling
  /\ actual_compressor_state (current_state (decide w)) = true
  /\ compressor_relay (decide w) = true
  /\ compressor_turned_off_at (decide w) = 0
  /\ compressor_turned_on_at (decide w)
     = (if is_compressor_on w then compressor_turned_on_at w else millis w).
Proof.
  intros (Hrel & Hoffat & _ & _) Hwarm Hhot Hlatch Hrun Hdead.
  rewrite decide_eq.
  pose proof (base_decision_spec w) as Hb. cbv zeta in Hb.
  destruct Hb as (_ & Ht & Hs).
  assert (Hdw : dwelled w = false) by (unfold dwelled; rewrite Hwarm; reflexivity).
  rewrite Hdw in Ht, Hs. cbn [negb] in Ht.
  pose proof (base_decision_frame w) as Hf. cbv zeta in Hf.
  destruct Hf as (Ha & _ & Hn2 & Hon & Hoff & Hex & Hcfg & Hms & Hr & _).
  set (w1 := base_decision w) in *.
  assert (Hov : overrides w1 = (false, set_exceeded_max_runtime_at 0 w1)).
  { unfold overrides. rewrite Ht.
    unfold is_compressor_overheating in *. rewrite Hn2, Hcfg, Hhot.
    unfold has_compressor_exceeded_max_runtime. rewrite Hex, Hlatch.
    cbn [Z.gtb Z.compare].
    unfold is_compressor_on in *. rewrite Ha.
    destruct (actual_compressor_state (current_state w)) eqn:Hact.
    - rewrite Hms, Hon, Hcfg, (Hrun eq_refl).
      cbn [current_state set_exceeded_max_runtime_at]. rewrite Ha.
      reflexivity.
    - cbn [current_state set_exceeded_max_runtime_at]. rewrite Ha.
      cbn [negb andb].
      unfold has_dead_time_elapsed in *.
      cbn [compressor_turned_off_at millis active_config
           set_exceeded_max_runtime_at].
      rewrite Hoff, Hms, Hcfg, (Hdead eq_refl). reflexivity. }
  rewrite Hov, Ht. cbn [fst snd negb andb].
  rewrite set_compressor_actual, set_compressor_status.
  cbn [current_state set_exceeded_max_runtime_at]. rewrite Hs.
  split; [reflexivity|]. split; [reflexivity|].
  split.
  { apply set_compressor_relay. cbn. rewrite Hr, Ha. exact Hrel. }
  unfold set_compressor, is_compressor_on.
  cbn [current_state set_exceeded_max_runtime_at]. rewrite Ha.
  destruct (actual_compressor_state (current_state w)) eqn:Hact; cbn.
  - rewrite Hoff, Hon. split; [apply Hoffat; reflexivity|reflexivity].
  - rewrite Hms. split; reflexivity.
Qed.


(** *** The maximum run time *)

(** While the compressor runs the max-runtime latch is clear. *)
Lemma decide_latch w :
  actual_compressor_state (current_state (decide w)) = true ->
  exceeded_max_runtime_at (decide w) = 0.
Proof.
  rewrite decide_eq, set_compressor_actual, set_compressor_exceeded.
  intros H. apply andb_prop in H. destruct H as [Ht Hov].
  unfold overrides, has_compressor_exceeded_max_runtime in *.
  rewrite Ht in *. clear Ht.
  split_ifs; cbn in *; try discriminate; reflexivity.
Qed.

Lemma evaluate_latch w0 :
  consistent w0 ->
  actual_compressor_state (current_state (world_of (evaluate layout w0))) = true ->
  exceeded_max_runtime_at (world_of (evaluate layout w0)) = 0.
Proof.
  intros Hc.
  destruct (evaluate_cases layout w0) as [[_ ->]|(_ & _ & ->)]; cbn [world_of].
  - rewrite set_compressor_actual. discriminate.
  - rewrite log_state_current_state.
    destruct (log_state_timers layout
                (if startup_delay_over w0 then decide w0
                 else set_status startup_delay
                        (set_startup_delay_over (is_startup_delay_over w0) w0)))
      as (_ & _ & _ & ->).
    destruct (startup_delay_over w0) eqn:Hs.
    + apply decide_latch.
    + destruct Hc as (_ & _ & _ & Hgate). cbn. rewrite (Hgate Hs). discriminate.
Qed.

Lemma reachable_latch (m : machine card) :
  reachable layout m ->
  actual_compressor_state (current_state (world_of m)) = true ->
  exceeded_max_runtime_at (world_of m) = 0.
Proof.
  induction 1 as [c logging s|i m Hreach IH]; [discriminate|].
  destruct m as [w|e w]; cbn [loop]; [|exact IH].
  assert (Hin : forall w', current_state (handle_input i w') = current_state w'
                           /\ exceeded_max_runtime_at (handle_input i w')
                              = exceeded_max_runtime_at w')
    by (intros w'; unfold handle_input; destruct (in_edit i); auto).
  apply reachable_consistent in Hreach. cbn [world_of] in Hreach, IH.
  destruct (uint32 (uint32 (in_millis i) - state_updated_at w) >=? 1000).
  - unfold update_state.
    set (w1 := set_millis (in_millis_tick i)
                 (if config_is_dirty w
                  then set_configs (dirty_config w) (dirty_config w) false w
                  else w)).
    assert (Hcore : core (read_sensors (in_ntc_1 i) (in_ntc_2 i) w1) = core w)
      by (unfold w1; destruct (config_is_dirty w); reflexivity).
    generalize dependent (read_sensors (in_ntc_1 i) (in_ntc_2 i) w1).
    intros w0 Hcore.
    assert (Hc0 : consistent w0) by exact (consistent_core _ _ Hcore Hreach).
    pose proof (evaluate_latch w0 Hc0) as Hl.
    destruct (evaluate layout w0) as [w2|e w2]; cbn [world_of] in *;
      [|exact Hl].
    destruct (Hin (set_state_updated_at (uint32 (in_millis_done i)) w2))
      as [-> ->]. exact Hl.
  - cbn [world_of]. destruct (Hin w) as [-> ->]. exact IH.
Qed.

Lemma decide_at_max_run_time w :
  is_compressor_on w = true ->
  exceeded_max_runtime_at w = 0 ->
  (uint32 (millis w - compressor_turned_on_at w)
   >=? max_run_time_ms (active_config w)) = true ->
  decide w = set_compressor false (snd (overrides (base_decision w))).
Proof.
  intros Hon Hlatch Hlong. rewrite decide_eq. f_equal.
  pose proof (base_decision_frame w) as Hb. cbv zeta in Hb.
  destruct Hb as (Ha & _ & _ & Hon_at & _ & Hex & Hcfg & Hms & _).
  unfold overrides, has_compressor_exceeded_max_runtime, is_compressor_on in *.
  destruct (target_compressor_state (current_state (base_decision w)));
    [|reflexivity].
  destruct (is_compressor_overheating (base_decision w)); [reflexivity|].
  rewrite Hex, Hlatch. cbn [Z.gtb Z.compare].
  rewrite Ha, Hon, Hms, Hon_at, Hcfg, Hlong. reflexivity.
Qed.

(** X30. The maximum run time is enforced. On a tick of a run from
    [setup] that finds the compressor on with its run time, measured on the
    clock of the tick, at or over the maximum of the configuration in
    effect, the pass of the loop ends with the compressor off, in the
    recorded state and on the relay pin, whatever the sensors read. *)
Theorem max_run_time_is_enforced (i : input) w :
  reachable layout (Running w) ->
  tick_due i w = true ->
  actual_compressor_state (current_state w) = true ->
  (uint32 (uint32 (in_millis_tick i) - compressor_turned_on_at w)
   >=? max_run_time_ms
         (if config_is_dirty w then dirty_config w else active_config w)) = true ->
  actual_compressor_state
    (current_state (world_of (loop layout i (Running w)))) = false
  /\ compressor_relay (world_of (loop layout i (Running w))) = false.
Proof.
  intros Hreach Hdue Hon Hlong.
  pose proof (reachable_latch _ Hreach Hon) as Hlatch.
  apply reachable_consistent in Hreach. cbn [world_of] in Hreach, Hlatch.
  rewrite (loop_tick layout i w Hdue). unfold update_state.
  rewrite <- (config_of_tick i w) in Hlong.
  set (w1 := set_millis (in_millis_tick i)
               (if config_is_dirty w
                then set_configs (dirty_config w) (dirty_config w) false w
                else w)) in *.
  assert (Hcore : core (read_sensors (in_ntc_1 i) (in_ntc_2 i) w1) = core w)
    by (unfold w1; destruct (config_is_dirty w); reflexivity).
  assert (Hex : exceeded_max_runtime_at (read_sensors (in_ntc_1 i) (in_ntc_2 i) w1)
                = exceeded_max_runtime_at w)
    by (unfold w1; destruct (config_is_dirty w); reflexivity).
  assert (Hms : millis (read_sensors (in_ntc_1 i) (in_ntc_2 i) w1)
                = uint32 (in_millis_tick i))
    by (unfold w1; destruct (config_is_dirty w); reflexivity).
  generalize dependent (read_sensors (in_ntc_1 i) (in_ntc_2 i) w1).
  intros w0 Hlong Hcore Hex Hms.
  assert (Hc0 : consistent w0) by exact (consistent_core _ _ Hcore Hreach).
  unfold core in Hcore. injection Hcore as Hrel Hact Hon_at _ Hstart.
  assert (Hoff : actual_compressor_state
                   (current_state (world_of (evaluate layout w0))) = false
                 /\ compressor_relay (world_of (evaluate layout w0)) = false).
  { destruct (evaluate_cases layout w0) as [[_ ->]|(_ & _ & ->)];
      cbn [world_of].
    - split; [apply set_compressor_actual|].
      apply set_compressor_relay. apply Hc0.
    - rewrite log_state_current_state, log_state_relay.
      destruct (startup_delay_over w0) eqn:Hs.
      + rewrite decide_at_max_run_time.
        * split; [apply set_compressor_actual|].
          apply set_compressor_relay.
          assert (Hk : core (snd (overrides (base_decision w0))) = core w0)
            by (rewrite core_overrides; apply core_base_decision).
          apply (consistent_core _ _ Hk Hc0).
        * unfold is_compressor_on. congruence.
        * congruence.
        * rewrite Hms, Hon_at. exact Hlong.
      + destruct Hc0 as (_ & _ & _ & Hgate). rewrite (Hgate Hs) in Hact.
        congruence. }
  destruct (evaluate layout w0) as [w2|e w2]; cbn [world_of] in *.
  - pose proof (core_handle_input i
                  (set_state_updated_at (uint32 (in_millis_done i)) w2)) as Hk.
    unfold core in Hk. cbn in Hk.
    injection Hk as -> -> _ _ _. exact Hoff.
  - exact Hoff.
Qed.

End ControlSafety.
End SafetyFacts.

(** ** The block driver on a card that answers *)

Module SdDriverFacts.
Import SdCard SdCardFacts.

(** The bus once a list of bytes has been shifted out. *)
Lemma send_bytes_eq (bytes : list Z) :
  forall b,
  send_bytes bytes b
  = {| miso := miso b; clock := clock b;
       transfers := transfers b + length bytes;
       mosi := rev (map uint8 bytes) ++ mosi b; cs := cs b |}.
Proof.
  induction bytes as [|x rest IH]; intros b; cbn [send_bytes].
  - destruct b. cbn. f_equal. lia.
  - rewrite IH. cbn [transfer snd miso clock transfers mosi cs length map rev].
    f_equal; [lia|]. rewrite <- app_assoc. reflexivity.
Qed.

Lemma send_bytes_app (xs ys : list Z) (b : bus) :
  send_bytes (xs ++ ys) b = send_bytes ys (send_bytes xs b).
Proof.
  revert b. induction xs as [|x xs IH]; intros b; cbn [app send_bytes];
    [reflexivity|apply IH].
Qed.

Lemma send_bytes_cs (bytes : list Z) (b : bus) : cs (send_bytes bytes b) = cs b.
Proof. rewrite send_bytes_eq. reflexivity. Qed.

Lemma send_bytes_miso (bytes : list Z) (b : bus) :
  miso (send_bytes bytes b) = miso b.
Proof. rewrite send_bytes_eq. reflexivity. Qed.

Lemma set_cs_miso (level : bool) (b : bus) : miso (set_cs level b) = miso b.
Proof. reflexivity. Qed.

Lemma set_cs_transfers (level : bool) (b : bus) :
  transfers (set_cs level b) = transfers b.
Proof. reflexivity. Qed.

Lemma transfer_eq (x : Z) (b : bus) :
  transfer x b = (uint8 (miso b (transfers b)), send_bytes [x] b).
Proof. reflexivity. Qed.

Lemma repeat_snoc {A} (x : A) (n : nat) : repeat x n ++ [x] = x :: repeat x n.
Proof. induction n as [|n IH]; cbn; [reflexivity|]. rewrite IH. reflexivity. Qed.

(** A card ready at the first poll: the wait takes one transfer. *)
Lemma send_card_command_ready (fuel : nat) (cmd arg crc : Z) (b : bus) :
  (0 < fuel)%nat ->
  uint8 (miso b (transfers b)) = 0xFF ->
  send_card_command fuel cmd arg crc b
  = Some (send_bytes (0xFF :: command_frame cmd arg crc) b).
Proof.
  intros Hfuel Hready. destruct fuel as [|fuel]; [lia|].
  unfold send_card_command, wait_card_busy. cbn [wait_card_busy_loop].
  rewrite transfer_eq, Hready. cbn [Z.eqb Pos.eqb]. reflexivity.
Qed.

(** The response after [j] idle bytes. *)
Lemma read_card_response_loop_after (j : nat) :
  forall (n : nat) (b : bus) (r : Z),
  (j < n)%nat ->
  (forall i, (i < j)%nat -> uint8 (miso b (transfers b + i)) = 0xFF) ->
  uint8 (miso b (transfers b + j)) = r -> r <> 0xFF ->
  read_card_response_loop n b = (r, send_bytes (repeat 0xFF (S j)) b).
Proof.
  induction j as [|j IH]; intros n b r Hn Hidle Hr Hne.
  - destruct n as [|n]; [lia|]. rewrite Nat.add_0_r in Hr.
    rewrite read_card_response_loop_first by congruence.
    rewrite Hr. reflexivity.
  - destruct n as [|n]; [lia|]. cbn [read_card_response_loop].
    rewrite transfer_eq.
    rewrite <- (Nat.add_0_r (transfers b)), (Hidle 0%nat) by lia.
    cbn [Z.eqb Pos.eqb negb].
    rewrite (IH n (send_bytes [255] b) r).
    + cbn [repeat send_bytes]. reflexivity.
    + lia.
    + intros i Hi. rewrite send_bytes_eq. cbn [miso transfers length].
      replace (transfers b + 1 + i)%nat with (transfers b + S i)%nat by lia.
      apply Hidle. lia.
    + rewrite send_bytes_eq. cbn [miso transfers length].
      replace (transfers b + 1 + j)%nat with (transfers b + S j)%nat by lia.
      exact Hr.
    + exact Hne.
Qed.

(** No response within ten bytes. *)
Lemma read_card_response_loop_silent (n : nat) :
  forall b,
  (forall i, (i < n)%nat -> uint8 (miso b (transfers b + i)) = 0xFF) ->
  read_card_response_loop n b = (0xFF, send_bytes (repeat 0xFF n) b).
Proof.
  induction n as [|n IH]; intros b Hidle; [reflexivity|].
  cbn [read_card_response_loop]. rewrite transfer_eq.
  rewrite <- (Nat.add_0_r (transfers b)), (Hidle 0%nat) by lia.
  cbn [Z.eqb Pos.eqb negb]. rewrite IH; [reflexivity|].
  intros i Hi. rewrite send_bytes_eq. cbn [miso transfers length].
  replace (transfers b + 1 + i)%nat with (transfers b + S i)%nat by lia.
  apply Hidle. lia.
Qed.

(** The data token after [k] other bytes. *)
Lemma wait_data_token_after (k : nat) :
  forall (fuel : nat) (b : bus),
  (k < fuel)%nat ->
  (forall i, (i < k)%nat -> uint8 (miso b (transfers b + i)) <> 0xFE) ->
  uint8 (miso b (transfers b + k)) = 0xFE ->
  wait_data_token fuel b = Some (send_bytes (repeat 0xFF (S k)) b).
Proof.
  induction k as [|k IH]; intros fuel b Hfuel Hnot Htok;
    (destruct fuel as [|fuel]; [lia|]); cbn [wait_data_token];
    rewrite transfer_eq.
  - rewrite Nat.add_0_r in Htok. rewrite Htok. reflexivity.
  - assert (H0 : uint8 (miso b (transfers b)) <> 254)
      by (rewrite <- (Nat.add_0_r (transfers b)); apply Hnot; lia).
    apply Z.eqb_neq in H0. rewrite H0. cbn [negb].
    rewrite (IH fuel (send_bytes [255] b)).
    + reflexivity.
    + lia.
    + intros i Hi. rewrite send_bytes_eq. cbn [miso transfers length].
      replace (transfers b + 1 + i)%nat with (transfers b + S i)%nat by lia.
      apply Hnot. lia.
    + rewrite send_bytes_eq. cbn [miso transfers length].
      replace (transfers b + 1 + k)%nat with (transfers b + S k)%nat by lia.
      exact Htok.
Qed.

(** The end of the busy signal after [k] zero bytes. *)
Lemma wait_write_done_after (k : nat) :
  forall (fuel : nat) (b : bus),
  (k < fuel)%nat ->
  (forall i, (i < k)%nat -> uint8 (miso b (transfers b + i)) = 0x00) ->
  uint8 (miso b (transfers b + k)) <> 0x00 ->
  wait_write_done fuel b = Some (send_bytes (repeat 0xFF (S k)) b).
Proof.
  induction k as [|k IH]; intros fuel b Hfuel Hbusy Hdone;
    (destruct fuel as [|fuel]; [lia|]); cbn [wait_write_done];
    rewrite transfer_eq.
  - rewrite Nat.add_0_r in Hdone. apply Z.eqb_neq in Hdone. rewrite Hdone.
    reflexivity.
  - rewrite <- (Nat.add_0_r (transfers b)), (Hbusy 0%nat) by lia.
    cbn [Z.eqb].
    rewrite (IH fuel (send_bytes [255] b)).
    + reflexivity.
    + lia.
    + intros i Hi. rewrite send_bytes_eq. cbn [miso transfers length].
      replace (transfers b + 1 + i)%nat with (transfers b + S i)%nat by lia.
      apply Hbusy. lia.
    + rewrite send_bytes_eq. cbn [miso transfers length].
      replace (transfers b + 1 + k)%nat with (transfers b + S k)%nat by lia.
      exact Hdone.
Qed.

(** The bytes shifted in while the idle byte is sent. *)
Lemma receive_bytes_eq (n : nat) :
  forall b,
  receive_bytes n b
  = (map (fun i => uint8 (miso b (transfers b + i))) (seq 0 n),
     send_bytes (repeat 0xFF n) b).
Proof.
  induction n as [|n IH]; intros b; [reflexivity|].
  cbn [receive_bytes]. rewrite transfer_eq, IH.
  cbn [repeat seq map]. rewrite Nat.add_0_r. f_equal. f_equal.
  rewrite <- seq_shift, map_map. apply map_ext. intros i.
  rewrite (send_bytes_eq [255]). cbn [miso transfers length].
  f_equal. f_equal. lia.
Qed.


Lemma padded_block_length (buffer : list Z) (buffer_size : nat) :
  length (padded_block buffer buffer_size) = 512%nat.
Proof. unfold padded_block. rewrite length_map, length_seq. reflexivity. Qed.

(** X13. A block read on a card that answers delivers the block. The card
    is ready at the first poll, accepts the command after [j] idle bytes
    (fewer than ten), sends the data token after [k] other bytes, then the
    512 bytes of the block. The read returns [true] with the first
    [buffer_size] bytes of the block in the buffer; it has sent the frame of
    CMD17 with the block address and otherwise only idle bytes, has clocked
    out the whole block and the two checksum bytes, and has released chip
    select. *)
Theorem read_card_block_delivers_the_block
  (fuel j k : nat) (block_addr : Z) (buffer_size : nat) (b : bus) :
  (k < fuel)%nat -> (j < 10)%nat ->
  uint8 (miso b (transfers b)) = 0xFF ->
  (forall i, (i < j)%nat -> uint8 (miso b (transfers b + 7 + i)) = 0xFF) ->
  uint8 (miso b (transfers b + 7 + j)) = 0x00 ->
  (forall i, (i < k)%nat -> uint8 (miso b (transfers b + 8 + j + i)) <> 0xFE) ->
  uint8 (miso b (transfers b + 8 + j + k)) = 0xFE ->
  exists b',
    read_card_block fuel block_addr buffer_size b
    = Some (true,
            firstn buffer_size
              (map (fun i => uint8 (miso b (transfers b + 9 + j + k + i)))
                   (seq 0 512)),
            b')
    /\ cs b' = true
    /\ transfers b' = (transfers b + 9 + j + k + 512 + 3)%nat
    /\ mosi b'
       = repeat 0xFF (j + k + 517)
         ++ rev (command_frame 17 block_addr 0x01) ++ 0xFF :: mosi b.
Proof.
  intros Hfuel Hj Hready Hidle Haccept Hnot Htoken.
  unfold read_card_block.
  rewrite send_card_command_ready by (cbn [set_cs miso transfers]; first [lia|exact Hready]).
  set (b1 := send_bytes (255 :: command_frame 17 block_addr 1) (set_cs false b)).
  assert (E1 : b1 = {| miso := miso b; clock := clock b;
                       transfers := transfers b + 7;
                       mosi := rev (command_frame 17 block_addr 1)
                               ++ 255 :: mosi b;
                       cs := false |}).
  { unfold b1. rewrite send_bytes_eq. cbn [set_cs miso clock transfers mosi cs].
    f_equal. cbn [map]. rewrite command_frame_bytes.
    cbn [rev]. rewrite <- !app_assoc. reflexivity. }
  unfold read_card_response.
  rewrite (read_card_response_loop_after j 10 b1 0 Hj)
    by (rewrite ?E1; cbn [miso transfers]; first [exact Hidle|exact Haccept|discriminate]).
  cbn [Z.eqb negb].
  set (b2 := send_bytes (repeat 255 (S j)) b1).
  assert (E2 : b2 = {| miso := miso b; clock := clock b;
                       transfers := transfers b + 8 + j;
                       mosi := repeat 255 (S j)
                               ++ rev (command_frame 17 block_addr 1)
                               ++ 255 :: mosi b;
                       cs := false |}).
  { unfold b2. rewrite send_bytes_eq, E1. cbn [miso clock transfers mosi cs].
    rewrite repeat_length. f_equal; [lia|].
    f_equal. clear. induction (S j) as [|n IH]; cbn; [reflexivity|].
    rewrite IH. rewrite repeat_snoc. reflexivity. }
  rewrite (wait_data_token_after k fuel b2 Hfuel)
    by (rewrite ?E2; cbn [miso transfers]; first [exact Hnot|exact Htoken]).
  rewrite receive_bytes_eq.
  eexists. split.
  { f_equal. f_equal. f_equal. f_equal.
    rewrite send_bytes_eq, E2. cbn [miso transfers]. rewrite repeat_length.
    apply map_ext. intros i. f_equal. f_equal. lia. }
  rewrite !send_bytes_eq, E2.
  cbn [set_cs miso clock transfers mosi cs length].
  rewrite !repeat_length. unfold SD_BLOCK_SIZE.
  split; [reflexivity|]. split; [lia|].
  assert (Hrev : forall n, rev (map uint8 (repeat 255 n)) = repeat 255 n).
  { clear. induction n as [|n IH]; cbn; [reflexivity|].
    rewrite IH. apply repeat_snoc. }
  rewrite !Hrev. cbn [map rev app].
  change (uint8 255) with 255.
  change (255 :: 255 :: 255 :: ?l) with (repeat 255 3 ++ l).
  rewrite !app_assoc. f_equal. f_equal.
  rewrite <- !repeat_app. f_equal. lia.
Qed.


Lemma rev_repeat_idle (n : nat) : rev (map uint8 (repeat 255 n)) = repeat 255 n.
Proof.
  induction n as [|n IH]; cbn; [reflexivity|]. rewrite IH. apply repeat_snoc.
Qed.

Lemma nth_map_seq {A} (f : nat -> A) (d : A) (n : nat) :
  forall start i, (i < n)%nat -> nth i (map f (seq start n)) d = f (start + i)%nat.
Proof.
  induction n as [|n IH]; intros start i Hi; [lia|].
  destruct i as [|i]; cbn [seq map nth].
  - rewrite Nat.add_0_r. reflexivity.
  - rewrite IH by lia. f_equal. lia.
Qed.

(** The block on the wire when the caller's buffer holds at least
    [buffer_size] bytes: those bytes, then zeros, 512 in all (a longer
    buffer is cut at 512). *)
Lemma padded_block_eq (buffer : list Z) (buffer_size : nat) :
  (buffer_size <= length buffer)%nat ->
  padded_block buffer buffer_size
  = firstn 512 (firstn buffer_size buffer ++ repeat 0 512).
Proof.
  intros Hsize.
  assert (Hlen : length (firstn 512 (firstn buffer_size buffer ++ repeat 0 512))
                 = 512%nat).
  { rewrite length_firstn, length_app, repeat_length. lia. }
  apply (nth_ext _ _ 0 0).
  - rewrite padded_block_length, Hlen. reflexivity.
  - intros i Hi. rewrite padded_block_length in Hi.
    unfold padded_block, SD_BLOCK_SIZE.
    rewrite nth_map_seq by exact Hi. cbn [Nat.add].
    rewrite nth_firstn.
    destruct (Nat.ltb_spec i 512) as [_|]; [|lia].
    destruct (Nat.ltb_spec i buffer_size) as [Hlt|Hge].
    + rewrite app_nth1 by (rewrite length_firstn; lia).
      rewrite nth_firstn.
      destruct (Nat.ltb_spec i buffer_size); [reflexivity|lia].
    + rewrite app_nth2 by (rewrite length_firstn; lia).
      rewrite nth_repeat. reflexivity.
Qed.

(** X14. A block write on a card that answers puts the block on the wire.
    The card is ready at the first poll, accepts the command after [j] idle
    bytes (fewer than ten), answers the data with a response whose low five
    bits are 00101 and signals busy with [k] zero bytes. The write returns
    [true]; after the frame of CMD24 with the block address it has sent the
    start token 0xFE, exactly 512 data bytes (the caller's [buffer_size]
    bytes followed by zeros) and two checksum bytes, then idle bytes only,
    and it has released chip select. *)
Theorem write_card_block_sends_the_block
  (fuel j k : nat) (block_addr : Z) (buffer : list Z) (buffer_size : nat)
  (b : bus) :
  (k < fuel)%nat -> (j < 10)%nat -> (buffer_size <= length buffer)%nat ->
  uint8 (miso b (transfers b)) = 0xFF ->
  (forall i, (i < j)%nat -> uint8 (miso b (transfers b + 7 + i)) = 0xFF) ->
  uint8 (miso b (transfers b + 7 + j)) = 0x00 ->
  Z.land (uint8 (miso b (transfers b + 523 + j))) 0x1F = 0x05 ->
  (forall i, (i < k)%nat -> uint8 (miso b (transfers b + 524 + j + i)) = 0x00) ->
  uint8 (miso b (transfers b + 524 + j + k)) <> 0x00 ->
  exists b',
    write_card_block fuel block_addr buffer buffer_size b = Some (true, b')
    /\ cs b' = true
    /\ transfers b' = (transfers b + 526 + j + k)%nat
    /\ mosi b'
       = repeat 0xFF (k + 5)
         ++ rev (map uint8
                   (firstn 512 (firstn buffer_size buffer ++ repeat 0 512)))
         ++ 0xFE :: repeat 0xFF (S j)
         ++ rev (command_frame 24 block_addr 0x01) ++ 0xFF :: mosi b.
Proof.
  intros Hfuel Hj Hsize Hready Hidle Haccept Hdata Hbusy Hdone.
  unfold write_card_block.
  rewrite send_card_command_ready
    by (cbn [set_cs miso transfers]; first [lia|exact Hready]).
  set (b1 := send_bytes (255 :: command_frame 24 block_addr 1) (set_cs false b)).
  assert (E1 : b1 = {| miso := miso b; clock := clock b;
                       transfers := transfers b + 7;
                       mosi := rev (command_frame 24 block_addr 1)
                               ++ 255 :: mosi b;
                       cs := false |}).
  { unfold b1. rewrite send_bytes_eq. cbn [set_cs miso clock transfers mosi cs].
    f_equal. cbn [map]. rewrite command_frame_bytes.
    cbn [rev]. rewrite <- !app_assoc. reflexivity. }
  unfold read_card_response.
  rewrite (read_card_response_loop_after j 10 b1 0 Hj)
    by (rewrite ?E1; cbn [miso transfers];
        first [exact Hidle|exact Haccept|discriminate]).
  cbn [Z.eqb negb].
  rewrite <- !send_bytes_app.
  set (sent := repeat 255 (S j) ++ [254] ++ padded_block buffer buffer_size
               ++ [255; 255]).
  replace (send_bytes [255; 255]
             (send_bytes (padded_block buffer buffer_size)
                (send_bytes [254] (send_bytes (repeat 255 (S j)) b1))))
    with (send_bytes sent b1)
    by (unfold sent; rewrite !send_bytes_app; reflexivity).
  assert (Hsent : length sent = (516 + j)%nat).
  { unfold sent. rewrite !length_app, repeat_length, padded_block_length.
    cbn [length]. lia. }
  set (b5 := send_bytes sent b1).
  assert (E5 : b5 = {| miso := miso b; clock := clock b;
                       transfers := transfers b + 523 + j;
                       mosi := rev (map uint8 sent)
                               ++ rev (command_frame 24 block_addr 1)
                               ++ 255 :: mosi b;
                       cs := false |}).
  { unfold b5. rewrite send_bytes_eq, E1. cbn [miso clock transfers mosi cs].
    rewrite Hsent. f_equal. lia. }
  rewrite transfer_eq.
  replace (uint8 (miso b5 (transfers b5)))
    with (uint8 (miso b (transfers b + 523 + j)))
    by (rewrite E5; reflexivity).
  rewrite Hdata. cbn [Z.eqb Pos.eqb negb].
  rewrite (wait_write_done_after k fuel (send_bytes [255] b5) Hfuel).
  2:{ intros i Hi. rewrite send_bytes_eq, E5. cbn [miso transfers length].
      replace (transfers b + 523 + j + 1 + i)%nat
        with (transfers b + 524 + j + i)%nat by lia.
      apply Hbusy, Hi. }
  2:{ rewrite send_bytes_eq, E5. cbn [miso transfers length].
      replace (transfers b + 523 + j + 1 + k)%nat
        with (transfers b + 524 + j + k)%nat by lia.
      exact Hdone. }
  eexists. split; [reflexivity|].
  rewrite !send_bytes_eq, E5.
  cbn [set_cs miso clock transfers mosi cs length].
  rewrite repeat_length.
  split; [reflexivity|]. split; [lia|].
  unfold sent. rewrite padded_block_eq by exact Hsize.
  rewrite !map_app, !rev_app_distr.
  generalize (rev (map uint8
                     (firstn 512 (firstn buffer_size buffer ++ repeat 0 512)))).
  intros blk. rewrite !rev_repeat_idle. cbn [map rev app].
  change (uint8 255) with 255. change (uint8 254) with 254.
  rewrite <- !app_assoc. cbn [app].
  generalize (blk ++ 254 :: repeat 255 (S j)
              ++ rev (command_frame 24 block_addr 1) ++ 255 :: mosi b).
  intros l. replace (k + 5)%nat with (S (S k + 3)) by lia.
  change (repeat 255 (S (S k + 3))) with (255 :: repeat 255 (S k + 3)).
  rewrite repeat_app. cbn [app]. f_equal. rewrite <- app_assoc. reflexivity.
Qed.


(** *** A command that is not accepted *)

(** X15. A command the card does not accept ends the block operation
    before any data moves. The card is ready, and within ten bytes after the
    frame it answers something other than 0x00 ([j < 10] idle bytes, then a
    byte that is neither idle nor zero) or nothing at all ([j = 10]). Both
    block operations return [false] with chip select released; after the
    frame only the idle bytes of the response poll have been sent (for the
    write: no start token and no data), and a read leaves the caller's buffer
    untouched. *)
Theorem rejected_command_ends_the_operation
  (fuel j : nat) (block_addr : Z) (buffer : list Z) (buffer_size : nat)
  (b : bus) :
  (0 < fuel)%nat -> (j <= 10)%nat ->
  uint8 (miso b (transfers b)) = 0xFF ->
  (forall i, (i < j)%nat -> uint8 (miso b (transfers b + 7 + i)) = 0xFF) ->
  ((j < 10)%nat -> uint8 (miso b (transfers b + 7 + j)) <> 0xFF
                   /\ uint8 (miso b (transfers b + 7 + j)) <> 0x00) ->
  exists b1 b2,
    read_card_block fuel block_addr buffer_size b = Some (false, [], b1)
    /\ write_card_block fuel block_addr buffer buffer_size b = Some (false, b2)
    /\ cs b1 = true /\ cs b2 = true
    /\ mosi b1 = repeat 0xFF (Nat.min (S j) 10)
                 ++ rev (command_frame 17 block_addr 0x01) ++ 0xFF :: mosi b
    /\ mosi b2 = repeat 0xFF (Nat.min (S j) 10)
                 ++ rev (command_frame 24 block_addr 0x01) ++ 0xFF :: mosi b.
Proof.
  intros Hfuel Hj Hready Hidle Hreject.
  assert (Hresp : forall cmd,
            exists r,
              read_card_response_loop 10
                (send_bytes (255 :: command_frame cmd block_addr 1)
                            (set_cs false b))
              = (r, send_bytes (repeat 255 (Nat.min (S j) 10))
                      (send_bytes (255 :: command_frame cmd block_addr 1)
                                  (set_cs false b)))
              /\ r <> 0).
  { intros cmd.
    set (b1 := send_bytes (255 :: command_frame cmd block_addr 1)
                          (set_cs false b)).
    assert (Hm : miso b1 = miso b)
      by (unfold b1; rewrite send_bytes_eq; reflexivity).
    assert (Ht : transfers b1 = (transfers b + 7)%nat)
      by (unfold b1; rewrite send_bytes_eq; reflexivity).
    destruct (Nat.eq_dec j 10) as [->|Hne].
    - exists 255. split; [|discriminate].
      apply read_card_response_loop_silent.
      intros i Hi. rewrite Hm, Ht. apply Hidle, Hi.
    - destruct Hreject as [Hnff Hn0]; [lia|].
      exists (uint8 (miso b (transfers b + 7 + j))). split; [|exact Hn0].
      replace (Nat.min (S j) 10) with (S j) by lia.
      apply read_card_response_loop_after.
      + lia.
      + intros i Hi. rewrite Hm, Ht. apply Hidle, Hi.
      + rewrite Hm, Ht. reflexivity.
      + exact Hnff. }
  destruct (Hresp 17) as (r1 & Hr1 & Hn1).
  destruct (Hresp 24) as (r2 & Hr2 & Hn2).
  apply Z.eqb_neq in Hn1, Hn2.
  eexists _, _.
  unfold read_card_block, write_card_block, read_card_response.
  rewrite !send_card_command_ready
    by (cbn [set_cs miso transfers]; first [lia|exact Hready]).
  rewrite Hr1, Hr2, Hn1, Hn2. cbn [negb].
  split; [reflexivity|]. split; [reflexivity|].
  rewrite !send_bytes_eq. cbn [set_cs miso clock transfers mosi cs].
  split; [reflexivity|]. split; [reflexivity|].
  rewrite rev_repeat_idle. cbn [map]. rewrite !command_frame_bytes.
  cbn [rev]. change (uint8 255) with 255. rewrite <- !app_assoc.
  split; reflexivity.
Qed.

(** *** The response poll *)

Lemma read_card_response_loop_cases (n : nat) :
  forall b,
  exists j,
    (j <= n)%nat
    /\ (forall i, (i < j)%nat -> uint8 (miso b (transfers b + i)) = 0xFF)
    /\ ((j < n)%nat -> uint8 (miso b (transfers b + j)) <> 0xFF)
    /\ read_card_response_loop n b
       = (if (j <? n)%nat then uint8 (miso b (transfers b + j)) else 0xFF,
          send_bytes (repeat 0xFF (Nat.min (S j) n)) b).
Proof.
  induction n as [|n IH]; intros b.
  - exists 0%nat. repeat split; [lia | intros; lia | intros; lia].
  - destruct (Z.eq_dec (uint8 (miso b (transfers b))) 255) as [Hff|Hne].
    + destruct (IH (send_bytes [255] b)) as (j & Hj & Hidle & Hresp & Hrun).
      change (miso (send_bytes [255] b)) with (miso b) in Hidle, Hresp, Hrun.
      change (transfers (send_bytes [255] b)) with (S (transfers b))
        in Hidle, Hresp, Hrun.
      exists (S j). split; [lia|]. split.
      { intros [|i] Hi.
        - rewrite Nat.add_0_r. exact Hff.
        - replace (transfers b + S i)%nat with (S (transfers b) + i)%nat by lia.
          apply Hidle. lia. }
      split.
      { intros Hlt.
        replace (transfers b + S j)%nat with (S (transfers b) + j)%nat by lia.
        apply Hresp. lia. }
      cbn [read_card_response_loop]. rewrite transfer_eq, Hff.
      cbn [Z.eqb Pos.eqb negb]. rewrite Hrun.
      replace (transfers b + S j)%nat with (S (transfers b) + j)%nat by lia.
      change (S j <? S n)%nat with (j <? n)%nat.
      rewrite <- Nat.succ_min_distr. reflexivity.
    + exists 0%nat. split; [lia|]. split; [intros; lia|].
      rewrite Nat.add_0_r. split; [intros _; exact Hne|].
      rewrite read_card_response_loop_first by exact Hne.
      reflexivity.
Qed.

(** X16. The response poll is bounded. [read_card_response] exchanges at
    most ten bytes: it returns the first byte that is not the idle byte
    0xFF, having read only idle bytes before it, or 0xFF once ten idle bytes
    have been read; it sends the idle byte each time and leaves chip select
    as it is. *)
Theorem read_card_response_gives_up_after_ten_bytes (b : bus) :
  exists j,
    (j <= 10)%nat
    /\ (forall i, (i < j)%nat -> uint8 (miso b (transfers b + i)) = 0xFF)
    /\ fst (read_card_response b)
       = (if (j <? 10)%nat then uint8 (miso b (transfers b + j)) else 0xFF)
    /\ ((j < 10)%nat -> fst (read_card_response b) <> 0xFF)
    /\ transfers (snd (read_card_response b))
       = (transfers b + Nat.min (S j) 10)%nat
    /\ mosi (snd (read_card_response b))
       = repeat 0xFF (Nat.min (S j) 10) ++ mosi b
    /\ cs (snd (read_card_response b)) = cs b.
Proof.
  unfold read_card_response.
  destruct (read_card_response_loop_cases 10 b) as (j & Hj & Hidle & Hresp & ->).
  exists j. cbn [fst snd]. rewrite send_bytes_eq.
  cbn [transfers mosi cs]. rewrite repeat_length, rev_repeat_idle.
  repeat split; auto.
  intros Hlt. destruct (Nat.ltb_spec j 10); [auto|lia].
Qed.

End SdDriverFacts.

(** ** Initialisation of the storage card *)

Module SdInitFacts.
Import SdCard SdCardFacts SdDriverFacts SdInit.

Lemma exchange_eq (cmd arg crc : Z) (b : bus) :
  miso (exchange cmd arg crc b) = miso b
  /\ transfers (exchange cmd arg crc b) = (transfers b + 8)%nat
  /\ cs (exchange cmd arg crc b) = cs b.
Proof. unfold exchange. rewrite send_bytes_eq. cbn. auto. Qed.

(** A command to a card that is ready at once and answers with the first
    byte after the frame. *)
Lemma command_exchange (fuel : nat) (cmd arg crc : Z) (b : bus) :
  (0 < fuel)%nat ->
  uint8 (miso b (transfers b)) = 0xFF ->
  uint8 (miso b (transfers b + 7)) <> 0xFF ->
  exists b1,
    send_card_command fuel cmd arg crc b = Some b1
    /\ read_card_response b1
       = (uint8 (miso b (transfers b + 7)), exchange cmd arg crc b).
Proof.
  intros Hfuel Hready Hresp. eexists. split.
  - apply send_card_command_ready; assumption.
  - rewrite read_card_response_first;
      rewrite send_bytes_eq; cbn [miso transfers length]; [|exact Hresp].
    f_equal. unfold exchange.
    change (255 :: command_frame cmd arg crc ++ [255])
      with ((255 :: command_frame cmd arg crc) ++ [255]).
    rewrite send_bytes_app, (send_bytes_eq (255 :: command_frame cmd arg crc)).
    reflexivity.
Qed.

Lemma init_retry_loop_result (fuel : nat) (b : bus) (r : nat -> Z) (t : nat) :
  (0 < fuel)%nat ->
  (forall e, uint8 (miso b (t + 8 * e)) = 0xFF) ->
  (forall e, uint8 (miso b (t + 7 + 8 * e)) = r e /\ r e <> 0xFF) ->
  forall retries e bx,
  miso bx = miso b -> transfers bx = (t + 8 * e)%nat ->
  exists b',
    init_retry_loop fuel retries bx = Some (retries_pass r retries e, b')
    /\ (retries_pass r retries e = false -> cs b' = true).
Proof.
  intros Hfuel Hready Hresp.
  induction retries as [|n IH]; intros e bx Hm Ht.
  - eexists. split; [reflexivity|discriminate].
  - cbn [init_retry_loop retries_pass].
    destruct (Hresp e) as [Hre Hne]. destruct (Hresp (S e)) as [Hre1 Hne1].
    destruct (command_exchange fuel 55 0 1 bx Hfuel) as (b1 & -> & ->).
    { rewrite Hm, Ht. apply Hready. }
    { rewrite Hm, Ht.
      replace (t + 8 * e + 7)%nat with (t + 7 + 8 * e)%nat by lia.
      rewrite Hre. exact Hne. }
    rewrite Hm, Ht.
    replace (t + 8 * e + 7)%nat with (t + 7 + 8 * e)%nat by lia.
    rewrite Hre.
    destruct (exchange_eq 55 0 1 bx) as (Hm1 & Ht1 & _).
    destruct (r e =? 1); cbn [negb andb].
    + destruct (command_exchange fuel 41 1073741824 1 (exchange 55 0 1 bx) Hfuel)
        as (b3 & -> & ->).
      { rewrite Hm1, Ht1, Hm, Ht.
        replace (t + 8 * e + 8)%nat with (t + 8 * S e)%nat by lia.
        apply Hready. }
      { rewrite Hm1, Ht1, Hm, Ht.
        replace (t + 8 * e + 8 + 7)%nat with (t + 7 + 8 * S e)%nat by lia.
        rewrite Hre1. exact Hne1. }
      rewrite Hm1, Ht1, Hm, Ht.
      replace (t + 8 * e + 8 + 7)%nat with (t + 7 + 8 * S e)%nat by lia.
      rewrite Hre1.
      destruct (r (S e) =? 0); cbn [orb].
      * eexists. split; [reflexivity|discriminate].
      * apply IH.
        -- destruct (exchange_eq 41 1073741824 1 (exchange 55 0 1 bx))
             as (-> & _). congruence.
        -- destruct (exchange_eq 41 1073741824 1 (exchange 55 0 1 bx))
             as (_ & -> & _). rewrite Ht1, Ht. lia.
    + eexists. split; [reflexivity|]. intros _. reflexivity.
Qed.

(** A command of [init_sd_card] that must be answered 0x01, followed by
    the rest of the function. *)
Lemma init_step (fuel : nat) (cmd arg crc : Z) (b : bus)
  (rest : bus -> option (bool * bus)) :
  (0 < fuel)%nat ->
  uint8 (miso b (transfers b)) = 0xFF ->
  uint8 (miso b (transfers b + 7)) <> 0xFF ->
  match send_card_command fuel cmd arg crc b with
  | None => None
  | Some b1 =>
    let '(response, b2) := read_card_response b1 in
    if negb (response =? 0x01) then Some (false, set_cs true b2) else rest b2
  end
  = if uint8 (miso b (transfers b + 7)) =? 0x01
    then rest (exchange cmd arg crc b)
    else Some (false, set_cs true (exchange cmd arg crc b)).
Proof.
  intros Hfuel Hready Hresp.
  destruct (command_exchange fuel cmd arg crc b Hfuel Hready Hresp)
    as (b1 & -> & ->).
  destruct (uint8 (miso b (transfers b + 7)) =? 1); reflexivity.
Qed.

(** X17. What decides the result of [init_sd_card]. On a card that is ready
    at each poll and answers each command with the first byte after the
    frame, [r e] being its answer to the [e]-th command sent: the result is
    [true] exactly when CMD0 and CMD8 are answered 0x01, the first CMD55 is
    answered 0x01, and each later CMD55 that is sent (after an ACMD41 not
    answered 0x00) is answered 0x01. The answer to the third ACMD41 is read
    and plays no part: a card that never reports ready is taken as
    initialised. Chip select is released on every outcome. *)
Theorem init_sd_card_result (fuel : nat) (b : bus) (r : nat -> Z) :
  (0 < fuel)%nat ->
  (forall e, uint8 (miso b (transfers b + 10 + 8 * e)) = 0xFF) ->
  (forall e, uint8 (miso b (transfers b + 17 + 8 * e)) = r e /\ r e <> 0xFF) ->
  exists b',
    init_sd_card fuel b
    = Some ((r 0%nat =? 0x01) && (r 1%nat =? 0x01) && (r 2%nat =? 0x01)
            && ((r 3%nat =? 0x00)
                || (r 4%nat =? 0x01)
                   && ((r 5%nat =? 0x00) || (r 6%nat =? 0x01))), b')
    /\ cs b' = true.
Proof.
  intros Hfuel Hready Hresp.
  assert (Hresp' : forall e, uint8 (miso b (transfers b + 10 + 7 + 8 * e)) = r e
                             /\ r e <> 255).
  { intros e. replace (transfers b + 10 + 7 + 8 * e)%nat
      with (transfers b + 17 + 8 * e)%nat by lia. apply Hresp. }
  set (b0 := set_cs false (send_bytes (repeat 255 10) (set_cs true b))).
  assert (Hm0 : miso b0 = miso b).
  { unfold b0. rewrite set_cs_miso, send_bytes_miso, set_cs_miso. reflexivity. }
  assert (Ht0 : transfers b0 = (transfers b + 10)%nat).
  { unfold b0. rewrite set_cs_transfers, send_bytes_transfers, set_cs_transfers.
    rewrite repeat_length. reflexivity. }
  set (b2 := exchange 0 0 149 b0).
  destruct (exchange_eq 0 0 149 b0) as (Hm2 & Ht2 & _). fold b2 in Hm2, Ht2.
  set (b4 := exchange 8 426 135 b2).
  destruct (exchange_eq 8 426 135 b2) as (Hm4 & Ht4 & _). fold b4 in Hm4, Ht4.
  assert (Hat0 : uint8 (miso b0 (transfers b0 + 7)) = r 0%nat).
  { rewrite Hm0, Ht0. destruct (Hresp 0%nat) as [<- _]. f_equal. f_equal. lia. }
  assert (Hat1 : uint8 (miso b2 (transfers b2 + 7)) = r 1%nat).
  { rewrite Hm2, Ht2, Hm0, Ht0. destruct (Hresp 1%nat) as [<- _].
    f_equal. f_equal. lia. }
  destruct (init_retry_loop_result fuel b r (transfers b + 10) Hfuel Hready Hresp'
              3 2%nat b4) as (b5 & Hloop & Hcs).
  { congruence. }
  { rewrite Ht4, Ht2, Ht0. lia. }
  assert (Hpass : retries_pass r 3 2
                  = (r 2%nat =? 1)
                    && ((r 3%nat =? 0)
                        || (r 4%nat =? 1) && ((r 5%nat =? 0) || (r 6%nat =? 1))))
    by (cbn [retries_pass]; rewrite orb_true_r, andb_true_r; reflexivity).
  rewrite Hpass in Hloop, Hcs.
  assert (E : init_sd_card fuel b
              = if r 0%nat =? 1
                then if r 1%nat =? 1
                     then match init_retry_loop fuel 3 b4 with
                          | None => None
                          | Some (false, b5) => Some (false, b5)
                          | Some (true, b5) =>
                            Some (true, send_bytes [255] (set_cs true b5))
                          end
                     else Some (false, set_cs true b4)
                else Some (false, set_cs true b2)).
  { unfold init_sd_card. fold b0.
    rewrite (init_step fuel 0 0 149 b0).
    - rewrite Hat0. fold b2. destruct (r 0%nat =? 1); [|reflexivity].
      rewrite (init_step fuel 8 426 135 b2).
      + rewrite Hat1. reflexivity.
      + exact Hfuel.
      + rewrite Hm2, Ht2, Hm0, Ht0.
        replace (transfers b + 10 + 8)%nat with (transfers b + 10 + 8 * 1)%nat
          by lia. apply Hready.
      + rewrite Hat1. apply Hresp.
    - exact Hfuel.
    - rewrite Hm0, Ht0.
      replace (transfers b + 10)%nat with (transfers b + 10 + 8 * 0)%nat by lia.
      apply Hready.
    - rewrite Hat0. apply Hresp. }
  rewrite E, Hloop.
  destruct (r 0%nat =? 1); cbn [andb]; [|eexists; split; reflexivity].
  destruct (r 1%nat =? 1); cbn [andb]; [|eexists; split; reflexivity].
  generalize dependent ((r 2%nat =? 1)
                        && ((r 3%nat =? 0)
                            || (r 4%nat =? 1)
                               && ((r 5%nat =? 0) || (r 6%nat =? 1)))).
  intros pass H1 H2 H3. destruct pass.
  - eexists. split; [reflexivity|]. rewrite send_bytes_cs. reflexivity.
  - eexists. split; [reflexivity|]. auto.
Qed.

(** *** Chip select *)

Lemma init_retry_loop_cs (fuel retries : nat) :
  forall b b', init_retry_loop fuel retries b = Some (false, b') -> cs b' = true.
Proof.
  induction retries as [|n IH]; intros b b' H; cbn [init_retry_loop] in H;
    [discriminate|].
  destruct (send_card_command fuel 55 0 1 b) as [b1|]; [|discriminate].
  destruct (read_card_response b1) as [r b2].
  destruct (negb (r =? 1)).
  - assert (E : b' = set_cs true b2) by congruence. rewrite E. reflexivity.
  - destruct (send_card_command fuel 41 1073741824 1 b2) as [b3|];
      [|discriminate].
    destruct (read_card_response b3) as [r' b4].
    destruct (r' =? 0); [discriminate|]. exact (IH _ _ H).
Qed.

(** X18. Every return of the three entry points of the driver leaves chip
    select high, whatever the card answered and whether or not a poll timed
    out: the bus is free for the display. *)
Theorem chip_select_is_released
  (fuel : nat) (block_addr : Z) (buffer : list Z) (buffer_size : nat)
  (b : bus) :
  (forall ok b', init_sd_card fuel b = Some (ok, b') -> cs b' = true)
  /\ (forall ok data b',
        read_card_block fuel block_addr buffer_size b = Some (ok, data, b') ->
        cs b' = true)
  /\ (forall ok b',
        write_card_block fuel block_addr buffer buffer_size b = Some (ok, b') ->
        cs b' = true).
Proof.
  split; [|split].
  - intros ok b' H. unfold init_sd_card in H.
    destruct (send_card_command fuel 0 0 149 _) as [b1|]; [|discriminate].
    destruct (read_card_response b1) as [r b2].
    destruct (negb (r =? 1)).
    { assert (E : b' = set_cs true b2) by congruence. rewrite E. reflexivity. }
    destruct (send_card_command fuel 8 426 135 b2) as [b3|]; [|discriminate].
    destruct (read_card_response b3) as [r' b4].
    destruct (negb (r' =? 1)).
    { assert (E : b' = set_cs true b4) by congruence. rewrite E. reflexivity. }
    destruct (init_retry_loop fuel 3 b4) as [[[] b5]|] eqn:Hloop;
      [| |discriminate].
    + assert (E : b' = send_bytes [255] (set_cs true b5)) by congruence.
      rewrite E, send_bytes_cs. reflexivity.
    + assert (E : b' = b5) by congruence. rewrite E.
      exact (init_retry_loop_cs _ _ _ _ Hloop).
  - intros ok data b' H. unfold read_card_block in H.
    destruct (send_card_command fuel 17 block_addr 1 _) as [b1|]; [|discriminate].
    destruct (read_card_response b1) as [r b2].
    destruct (negb (r =? 0)).
    { assert (E : b' = set_cs true b2) by congruence. rewrite E. reflexivity. }
    destruct (wait_data_token fuel b2) as [b3|]; [|discriminate].
    destruct (receive_bytes SD_BLOCK_SIZE b3) as [block b4].
    assert (E : b' = send_bytes [255] (set_cs true (send_bytes [255; 255] b4)))
      by congruence.
    rewrite E, send_bytes_cs. reflexivity.
  - intros ok b' H. unfold write_card_block in H.
    destruct (send_card_command fuel 24 block_addr 1 _) as [b1|]; [|discriminate].
    destruct (read_card_response b1) as [r b2].
    destruct (negb (r =? 0)).
    { assert (E : b' = set_cs true b2) by congruence. rewrite E. reflexivity. }
    destruct (transfer 255 _) as [r' b6].
    destruct (negb (Z.land r' 31 =? 5)).
    { assert (E : b' = set_cs true b6) by congruence. rewrite E. reflexivity. }
    destruct (wait_write_done fuel b6) as [b7|]; [|discriminate].
    assert (E : b' = send_bytes [255] (set_cs true b7)) by congruence.
    rewrite E, send_bytes_cs. reflexivity.
Qed.

End SdInitFacts.

(** ** Runs of the record log *)

Module LogRunFacts.
Import RecordLog RecordLogFacts LogRuns.
Import SdDriverFacts.

(** *** A sector written and read back *)

Lemma le32_decode (z : Z) :
  0 <= z < 4294967296 ->
  uint8 z + 256 * uint8 (Z.shiftr z 8) + 65536 * uint8 (Z.shiftr z 16)
  + 16777216 * uint8 (Z.shiftr z 24) = z.
Proof.
  intros Hz. rewrite !Z.shiftr_div_pow2 by lia. unfold uint8.
  change (2 ^ 8) with 256. change (2 ^ 16) with 65536.
  change (2 ^ 24) with 16777216.
  Z.div_mod_to_equations. lia.
Qed.

Lemma sector_round_trip (s : sd_count_sector) :
  0 <= count s < 4294967296 -> is_byte (crc s) ->
  sector_of_bytes (sector_bytes s) = s.
Proof.
  intros Hc Hb. destruct s as [n k]. cbn [count crc] in *.
  unfold sector_of_bytes, sector_bytes, le32. cbn [app nth].
  rewrite le32_decode by exact Hc. f_equal.
  unfold uint8, is_byte in *. apply Z.mod_small. exact Hb.
Qed.

Lemma firstn_padded_block (buffer : list Z) :
  (length buffer <= 512)%nat ->
  firstn (length buffer) (SdCard.padded_block buffer (length buffer)) = buffer.
Proof.
  intros Hlen. rewrite padded_block_eq by lia.
  rewrite firstn_firstn. replace (Nat.min (length buffer) 512) with (length buffer)
    by lia.
  rewrite firstn_all. rewrite firstn_app, firstn_all, Nat.sub_diag.
  cbn [firstn]. apply app_nil_r.
Qed.

Lemma valid_sector_in_range (n : Z) :
  is_byte (crc (valid_sector n)).
Proof.
  cbn [valid_sector crc]. unfold Crc.calculate_crc8.
  apply CrcFacts.crc8_loop_is_byte. unfold is_byte. lia.
Qed.

(** A metadata block that holds the image of a valid sector reads back as
    that sector. *)
Lemma sector_at_valid (c : ideal_card) (a n : Z) :
  0 <= n < 4294967296 ->
  blocks c a = SdCard.padded_block (sector_bytes (valid_sector n)) 5 ->
  sector_at c a = valid_sector n.
Proof.
  intros Hn Hb. unfold sector_at. rewrite Hb.
  change sizeof_sd_count_sector with (length (sector_bytes (valid_sector n))).
  rewrite firstn_padded_block by (cbn; lia).
  apply sector_round_trip; [exact Hn | apply valid_sector_in_range].
Qed.

Lemma uint32_range (z : Z) : 0 <= uint32 z < 4294967296.
Proof. unfold uint32. apply Z.mod_pos_bound. lia. Qed.

(** *** The blocks after an append *)

Lemma save_data_point_blocks (data : list Z) (c : ideal_card) (a : Z) :
  let s0 := sector_at c 0 in
  let s1 := sector_at c 1 in
  let winner := if count s0 =? count s1 then s0 else spec_winner s0 s1 in
  let next := advance winner in
  blocks (snd (save_data_point data c)) a
  = if a =? uint32 (count next + 2)
    then SdCard.padded_block data (length data)
    else if (a =? 0) || (a =? 1)
         then SdCard.padded_block (sector_bytes next) 5
         else blocks c a.
Proof.
  intros s0 s1 winner next. subst next winner s0 s1. unfold sector_at.
  set (s0 := sector_of_bytes (firstn sizeof_sd_count_sector (blocks c 0))).
  set (s1 := sector_of_bytes (firstn sizeof_sd_count_sector (blocks c 1))).
  unfold save_data_point.
  cbn [read_card_block write_card_block ideal_device ideal_read ideal_write
       negb blocks written].
  fold s0. fold s1.
  destruct (count s0 =? count s1) eqn:Hc; cbn [negb].
  - cbn [fst snd blocks].
    destruct (a =? uint32 (count (advance s0) + 2)); [reflexivity|].
    destruct (a =? 1); destruct (a =? 0); reflexivity.
  - rewrite reconcile_winner. cbn [fst snd blocks negb].
    destruct (a =? uint32 (count (advance (spec_winner s0 s1)) + 2));
      [reflexivity|].
    destruct (a =? 1); destruct (a =? 0); reflexivity.
Qed.

Lemma advance_is_valid (s : sd_count_sector) :
  advance s = valid_sector (uint32 (count s + 1)).
Proof. reflexivity. Qed.

(** The append on any counters: the result, the two counters and the
    record afterwards. *)
Lemma save_data_point_outcome (data : list Z) (c : ideal_card) (m : Z) :
  let s0 := sector_at c 0 in
  let s1 := sector_at c 1 in
  count (if count s0 =? count s1 then s0 else spec_winner s0 s1) = m ->
  0 <= m < 4294967296 - 3 ->
  let c' := snd (save_data_point data c) in
  fst (save_data_point data c) = true
  /\ sector_at c' 0 = valid_sector (m + 1)
  /\ sector_at c' 1 = valid_sector (m + 1)
  /\ blocks c' (m + 3) = SdCard.padded_block data (length data)
  /\ (forall a, a <> 0 -> a <> 1 -> a <> m + 3 -> blocks c' a = blocks c a).
Proof.
  intros s0 s1 Hm Hrange c'.
  pose proof (save_data_point_blocks data c) as Hb. cbv zeta in Hb.
  fold s0 s1 in Hb. rewrite advance_is_valid, Hm in Hb.
  assert (Hu : uint32 (m + 1) = m + 1) by (unfold uint32; apply Z.mod_small; lia).
  rewrite Hu in Hb. cbn [valid_sector count] in Hb.
  assert (Hu2 : uint32 (m + 1 + 2) = m + 3)
    by (unfold uint32; rewrite Z.mod_small; lia).
  rewrite Hu2 in Hb. fold (valid_sector (m + 1)) in Hb.
  split; [apply save_data_point_ideal|].
  split; [|split; [|split]].
  - apply sector_at_valid; [lia|]. unfold c'. rewrite Hb.
    destruct (Z.eqb_spec 0 (m + 3)); [lia|]. reflexivity.
  - apply sector_at_valid; [lia|]. unfold c'. rewrite Hb.
    destruct (Z.eqb_spec 1 (m + 3)); [lia|]. reflexivity.
  - unfold c'. rewrite Hb. rewrite Z.eqb_refl. reflexivity.
  - intros a H0 H1 H3. unfold c'. rewrite Hb.
    destruct (Z.eqb_spec a (m + 3)); [contradiction|].
    destruct (Z.eqb_spec a 0); [contradiction|].
    destruct (Z.eqb_spec a 1); [contradiction|]. reflexivity.
Qed.

(** X19. One append on a card whose two counters agree on [n] (their
    checksums are not looked at). The append succeeds; both metadata blocks
    then hold [n + 1] with the checksum of [n + 1]; the record, padded with
    zeros, is in block [n + 3]; every other block is as it was. *)
Theorem append_on_agreeing_counters (data : list Z) (c : ideal_card) (n : Z) :
  count (sector_at c 0) = n -> count (sector_at c 1) = n ->
  0 <= n < 4294967296 - 3 ->
  let c' := snd (save_data_point data c) in
  fst (save_data_point data c) = true
  /\ sector_at c' 0 = valid_sector (n + 1)
  /\ sector_at c' 1 = valid_sector (n + 1)
  /\ blocks c' (n + 3) = SdCard.padded_block data (length data)
  /\ (forall a, a <> 0 -> a <> 1 -> a <> n + 3 -> blocks c' a = blocks c a).
Proof.
  intros H0 H1 Hn. apply save_data_point_outcome; [|exact Hn].
  rewrite H0, H1, Z.eqb_refl. exact H0.
Qed.


(** *** A sequence of appends *)

(** X20. The log only grows. Starting from a card whose counters agree on
    [n], a sequence of appends leaves both counters at [n] plus the number of
    records, the i-th record (padded with zeros) in block [n + 3 + i], and
    every block outside the two counters and the new records as it was: no
    append overwrites a record written before it. *)
Theorem appended_records_are_kept
  (records : list (list Z)) (c : ideal_card) (n : Z) :
  count (sector_at c 0) = n -> count (sector_at c 1) = n ->
  0 <= n -> n + Z.of_nat (length records) < 4294967296 - 2 ->
  let c' := append_all records c in
  count (sector_at c' 0) = n + Z.of_nat (length records)
  /\ count (sector_at c' 1) = n + Z.of_nat (length records)
  /\ (forall i, (i < length records)%nat ->
        blocks c' (n + 3 + Z.of_nat i)
        = SdCard.padded_block (nth i records []) (length (nth i records [])))
  /\ (forall a, a <> 0 -> a <> 1 ->
        ~ (n + 3 <= a < n + 3 + Z.of_nat (length records)) ->
        blocks c' a = blocks c a).
Proof.
  revert c n.
  induction records as [|d rest IH]; intros c n H0 H1 Hn Hlen.
  - cbn [append_all fold_left length Z.of_nat]. rewrite Z.add_0_r.
    repeat split; auto. intros i Hi. cbn in Hi. lia.
  - cbn [length] in Hlen. rewrite Nat2Z.inj_succ in Hlen.
    destruct (save_data_point_outcome d c n) as (_ & Hs0 & Hs1 & Hrec & Hframe).
    { rewrite H0, H1, Z.eqb_refl. exact H0. }
    { lia. }
    cbn [append_all fold_left]. fold (append_all rest (snd (save_data_point d c))).
    set (c1 := snd (save_data_point d c)) in *.
    destruct (IH c1 (n + 1)) as (Hc0 & Hc1 & Hrecs & Hrest).
    { rewrite Hs0. reflexivity. }
    { rewrite Hs1. reflexivity. }
    { lia. }
    { lia. }
    cbn [length]. rewrite Nat2Z.inj_succ.
    split; [rewrite Hc0; lia|]. split; [rewrite Hc1; lia|]. split.
    + intros [|i] Hi.
      * cbn [nth Z.of_nat]. rewrite Z.add_0_r.
        rewrite Hrest by lia. exact Hrec.
      * cbn [nth]. rewrite Nat2Z.inj_succ.
        replace (n + 3 + Z.succ (Z.of_nat i)) with (n + 1 + 3 + Z.of_nat i) by lia.
        apply Hrecs. cbn [length] in Hi. lia.
    + intros a Ha0 Ha1 Hout.
      rewrite Hrest by lia. apply Hframe; lia.
Qed.


(** *** A card that stops answering *)

Lemma failing_append_outcome (data : list Z) (c : ideal_card) (k : nat) :
  let writes := append_writes (sector_at c 0) (sector_at c 1) data in
  let r := save_data_point data {| inner := c; budget := k |} in
  fst r = (2 + length writes <=? k)%nat
  /\ writes_of (inner (snd r)) = writes_of c ++ firstn (k - 2) writes
  /\ (forall a, blocks (inner (snd r)) a
                = replay (firstn (k - 2) writes) (blocks c) a).
Proof.
  cbv zeta. unfold append_writes, sector_at.
  set (s0 := sector_of_bytes (firstn sizeof_sd_count_sector (blocks c 0))).
  set (s1 := sector_of_bytes (firstn sizeof_sd_count_sector (blocks c 1))).
  unfold save_data_point, writes_of.
  destruct k as [|[|k]].
  - cbn. rewrite app_nil_r. auto.
  - cbn. rewrite app_nil_r. auto.
  - cbn [read_card_block write_card_block failing_device failing_read
         failing_write ideal_read ideal_write budget inner negb blocks written].
    fold s0. fold s1.
    replace (S (S k) - 2)%nat with k by lia.
    destruct (count s0 =? count s1) eqn:Hc; cbn [negb app length].
    + destruct k as [|[|[|k]]];
        cbn [write_card_block failing_device failing_write ideal_write
             budget inner fst snd negb written blocks firstn rev app
             Nat.leb Nat.add replay fold_left];
        rewrite ?firstn_nil, ?app_nil_r, ?firstn_sector_bytes, ?firstn_all,
          ?sector_bytes_length;
        repeat split; auto; rewrite <- ?app_assoc; reflexivity.
    + rewrite reconcile_winner.
      destruct k as [|[|[|[|k]]]];
        cbn [write_card_block failing_device failing_write ideal_write
             budget inner fst snd negb written blocks firstn rev app
             Nat.leb Nat.add replay fold_left];
        rewrite ?firstn_nil, ?app_nil_r, ?firstn_sector_bytes, ?firstn_all,
          ?sector_bytes_length;
        repeat split; auto; rewrite <- ?app_assoc; reflexivity.
Qed.


(** X21. An append stops at the first operation that fails. On a card that
    takes [k] more block operations and fails every later one, the append
    returns [true] exactly when [k] covers its two reads and all its writes;
    otherwise it returns [false], and the writes the card has taken are the
    first [k - 2] writes of the complete append, in order, and nothing after
    them: the blocks are those these writes leave. *)
Theorem append_stops_at_the_first_failure
  (data : list Z) (c : ideal_card) (k : nat) :
  let writes := append_writes (sector_at c 0) (sector_at c 1) data in
  let r := save_data_point data {| inner := c; budget := k |} in
  fst r = (2 + length writes <=? k)%nat
  /\ writes_of (inner (snd r)) = writes_of c ++ firstn (k - 2) writes
  /\ (forall a, blocks (inner (snd r)) a
                = replay (firstn (k - 2) writes) (blocks c) a).
Proof. apply failing_append_outcome. Qed.

(** *** Recovery after an interrupted append *)

(** X22. An append cut short does not cost an earlier record. The counters
    agree on [n]; an append of [d1] runs on a card that fails after [k]
    operations; then the card works again and [d2] is appended. The second
    append succeeds and leaves both counters equal, with a valid checksum,
    at [n + 1] when no write of the first append went through and at
    [n + 2] otherwise; [d2] is in block (count + 2); the blocks of the
    records written before (2 to [n + 2]) are untouched; [d1] is in block
    [n + 3] if the first append completed, and if it was cut after the
    first counter write its block is skipped and stays as it was. *)
Theorem interrupted_append_recovers
  (d1 d2 : list Z) (c : ideal_card) (n : Z) (k : nat) :
  count (sector_at c 0) = n -> count (sector_at c 1) = n ->
  0 <= n < 4294967296 - 4 ->
  let c1 := inner (snd (save_data_point d1 {| inner := c; budget := k |})) in
  let c2 := snd (save_data_point d2 c1) in
  let m := if (k <? 3)%nat then n + 1 else n + 2 in
  fst (save_data_point d2 c1) = true
  /\ sector_at c2 0 = valid_sector m
  /\ sector_at c2 1 = valid_sector m
  /\ blocks c2 (m + 2) = SdCard.padded_block d2 (length d2)
  /\ (forall a, 2 <= a < n + 3 -> blocks c2 a = blocks c a)
  /\ ((5 <= k)%nat -> blocks c2 (n + 3) = SdCard.padded_block d1 (length d1))
  /\ ((3 <= k < 5)%nat -> blocks c2 (n + 3) = blocks c (n + 3)).
Proof.
  intros H0 H1 Hn c1 c2 m.
  destruct (failing_append_outcome d1 c k) as (_ & _ & Hb).
  fold c1 in Hb. unfold append_writes in Hb.
  rewrite H0, H1, Z.eqb_refl in Hb. cbn [app] in Hb.
  rewrite advance_is_valid, H0 in Hb.
  assert (Hu : uint32 (n + 1) = n + 1) by (unfold uint32; apply Z.mod_small; lia).
  rewrite Hu in Hb. cbn [valid_sector count] in Hb.
  fold (valid_sector (n + 1)) in Hb.
  assert (Hu2 : uint32 (n + 1 + 2) = n + 3)
    by (unfold uint32; rewrite Z.mod_small; lia).
  rewrite Hu2 in Hb.
  assert (Hcases : (k < 3)%nat \/ k = 3%nat \/ k = 4%nat \/ (5 <= k)%nat) by lia.
  destruct Hcases as [Hk|[Hk|[Hk|Hk]]].
  - (* no write went through *)
    assert (Hb' : forall a, blocks c1 a = blocks c a).
    { intros a. rewrite Hb. replace (k - 2)%nat with 0%nat by lia. reflexivity. }
    assert (Hm : m = n + 1)
      by (unfold m; destruct (Nat.ltb_spec k 3); [reflexivity|lia]).
    rewrite Hm.
    destruct (save_data_point_outcome d2 c1 n) as (Hok & Hs0 & Hs1 & Hrec & Hfr).
    { unfold sector_at. rewrite !Hb'. fold (sector_at c 0) (sector_at c 1).
      rewrite H0, H1, Z.eqb_refl. exact H0. }
    { lia. }
    fold c2 in Hs0, Hs1, Hrec, Hfr.
    split; [exact Hok|]. split; [exact Hs0|]. split; [exact Hs1|].
    split; [replace (n + 1 + 2) with (n + 3) by lia; exact Hrec|].
    split; [intros a Ha; rewrite Hfr by lia; apply Hb'|].
    split; intros; lia.
  - (* block 0 written, block 1 not *)
    subst k. cbn [Nat.sub firstn replay fold_left] in Hb.
    assert (Hm : m = n + 2) by reflexivity. rewrite Hm.
    assert (Hs0 : sector_at c1 0 = valid_sector (n + 1)).
    { apply sector_at_valid; [lia|]. rewrite Hb. reflexivity. }
    assert (Hs1 : sector_at c1 1 = sector_at c 1).
    { unfold sector_at. rewrite Hb. reflexivity. }
    destruct (save_data_point_outcome d2 c1 (n + 1))
      as (Hok & Hs0' & Hs1' & Hrec & Hfr).
    { rewrite Hs0, Hs1, H1. cbn [valid_sector count].
      destruct (Z.eqb_spec (n + 1) n); [lia|].
      unfold spec_winner, count_crc. cbn [count crc].
      rewrite Z.eqb_refl. reflexivity. }
    { lia. }
    fold c2 in Hs0', Hs1', Hrec, Hfr.
    replace (n + 1 + 1) with (n + 2) in * by lia.
    replace (n + 1 + 3) with (n + 2 + 2) in * by lia.
    split; [exact Hok|]. split; [exact Hs0'|]. split; [exact Hs1'|].
    split; [exact Hrec|].
    assert (Hold : forall a, 2 <= a < n + 4 -> blocks c2 a = blocks c a).
    { intros a Ha. rewrite Hfr by lia. rewrite Hb.
      destruct (Z.eqb_spec a 0); [lia|]. reflexivity. }
    split; [intros a Ha; apply Hold; lia|].
    split; [intros; lia|]. intros _. apply Hold. lia.
  - (* both counters written, the record not *)
    subst k. cbn [Nat.sub firstn replay fold_left] in Hb.
    assert (Hm : m = n + 2) by reflexivity. rewrite Hm.
    assert (Hs0 : sector_at c1 0 = valid_sector (n + 1)).
    { apply sector_at_valid; [lia|]. rewrite Hb. reflexivity. }
    assert (Hs1 : sector_at c1 1 = valid_sector (n + 1)).
    { apply sector_at_valid; [lia|]. rewrite Hb. reflexivity. }
    destruct (save_data_point_outcome d2 c1 (n + 1))
      as (Hok & Hs0' & Hs1' & Hrec & Hfr).
    { rewrite Hs0, Hs1, Z.eqb_refl. reflexivity. }
    { lia. }
    fold c2 in Hs0', Hs1', Hrec, Hfr.
    replace (n + 1 + 1) with (n + 2) in * by lia.
    replace (n + 1 + 3) with (n + 2 + 2) in * by lia.
    split; [exact Hok|]. split; [exact Hs0'|]. split; [exact Hs1'|].
    split; [exact Hrec|].
    assert (Hold : forall a, 2 <= a < n + 4 -> blocks c2 a = blocks c a).
    { intros a Ha. rewrite Hfr by lia. rewrite Hb.
      destruct (Z.eqb_spec a 1); [lia|].
      destruct (Z.eqb_spec a 0); [lia|]. reflexivity. }
    split; [intros a Ha; apply Hold; lia|].
    split; [intros; lia|]. intros _. apply Hold. lia.
  - (* the first append completed *)
    replace (firstn (k - 2) _)
      with [(0, sector_bytes (valid_sector (n + 1)));
            (1, sector_bytes (valid_sector (n + 1))); (n + 3, d1)] in Hb
      by (destruct k as [|[|[|[|[|k]]]]]; try lia; cbn [Nat.sub firstn];
          rewrite ?firstn_nil; reflexivity).
    cbn [replay fold_left] in Hb.
    assert (Hm : m = n + 2)
      by (unfold m; destruct (Nat.ltb_spec k 3); [lia|reflexivity]).
    rewrite Hm.
    assert (Hs0 : sector_at c1 0 = valid_sector (n + 1)).
    { apply sector_at_valid; [lia|]. rewrite Hb.
      destruct (Z.eqb_spec 0 (n + 3)); [lia|]. reflexivity. }
    assert (Hs1 : sector_at c1 1 = valid_sector (n + 1)).
    { apply sector_at_valid; [lia|]. rewrite Hb.
      destruct (Z.eqb_spec 1 (n + 3)); [lia|]. reflexivity. }
    destruct (save_data_point_outcome d2 c1 (n + 1))
      as (Hok & Hs0' & Hs1' & Hrec & Hfr).
    { rewrite Hs0, Hs1, Z.eqb_refl. reflexivity. }
    { lia. }
    fold c2 in Hs0', Hs1', Hrec, Hfr.
    replace (n + 1 + 1) with (n + 2) in * by lia.
    replace (n + 1 + 3) with (n + 2 + 2) in * by lia.
    split; [exact Hok|]. split; [exact Hs0'|]. split; [exact Hs1'|].
    split; [exact Hrec|].
    split.
    { intros a Ha. rewrite Hfr by lia. rewrite Hb.
      destruct (Z.eqb_spec a (n + 3)); [lia|].
      destruct (Z.eqb_spec a 1); [lia|].
      destruct (Z.eqb_spec a 0); [lia|]. reflexivity. }
    split; [|intros; lia].
    intros _. rewrite Hfr by lia. rewrite Hb. rewrite Z.eqb_refl. reflexivity.
Qed.

End LogRunFacts.

(** ** Configuration menu *)

Module MenuFacts.
Import Freezer Menu.

(** *** The screen index and the table of entries *)

Lemma entry_at_config_screen (i : Z) :
  1 <= i <= 6 -> exists e, entry_at (i - 1) = Some e.
Proof.
  intros Hi. unfold entry_at.
  destruct (Z.ltb_spec (i - 1) 0); [lia|].
  assert (H6 : (Z.to_nat (i - 1) < 6)%nat) by lia.
  destruct (Z.to_nat (i - 1)) as [|[|[|[|[|[|n]]]]]]; try lia;
    eexists; reflexivity.
Qed.

Lemma handle_input_in_bounds (p : Z) (u : ui) :
  in_bounds u -> exists u', handle_input p u = Some u' /\ in_bounds u'.
Proof.
  intros [Hidx Hedit]. unfold handle_input.
  destruct (p =? last_encoder_position u); [exists u; split; [reflexivity|split; assumption]|].
  destruct (negb (Z.rem p 4 =? 0)); [exists u; split; [reflexivity|split; assumption]|].
  destruct (edit_mode u) eqn:He; cbn [negb].
  - destruct (entry_at_config_screen (screen_index u) (Hedit eq_refl)) as [e ->].
    eexists. split; [reflexivity|]. split; cbn; auto.
  - eexists. split; [reflexivity|]. split; cbn; [|discriminate].
    destruct (int32 (p - last_encoder_position u) <? 0).
    + assert (E : int8 (screen_index u + 1) = screen_index u + 1)
        by (unfold int8; rewrite Z.mod_small; lia).
      rewrite E.
      destruct (Z.ltb_spec (screen_index u + 1) 0); [lia|].
      destruct (Z.gtb_spec (screen_index u + 1) 7); lia.
    + assert (E : int8 (screen_index u + -1) = screen_index u - 1)
        by (unfold int8; rewrite Z.mod_small; lia).
      rewrite E.
      destruct (Z.ltb_spec (screen_index u - 1) 0); [lia|].
      destruct (Z.gtb_spec (screen_index u - 1) 7); lia.
Qed.

Lemma on_button_pressed_in_bounds (now : Z) (u : ui) :
  in_bounds u -> in_bounds (on_button_pressed now u).
Proof.
  intros [Hidx Hedit]. unfold on_button_pressed, HOME_SCREEN, INFO_SCREEN.
  destruct (Z.eqb_spec (screen_index u) 0) as [H0|H0]; cbn [negb andb];
    [split; assumption|].
  destruct (Z.eqb_spec (screen_index u) 7) as [H7|H7]; cbn [negb andb];
    [split; assumption|].
  destruct (uint32 (now - edit_mode_toggled_at u) <? 500); [split; assumption|].
  destruct (edit_mode u); split; cbn; intros; lia.
Qed.

Lemma apply_dirty_config_in_bounds (u : ui) :
  in_bounds u -> in_bounds (apply_dirty_config u).
Proof.
  unfold apply_dirty_config. destruct (config_is_dirty u); [|auto].
  intros H. exact H.
Qed.

Lemma react_in_bounds (e : event) (u : ui) :
  in_bounds u -> exists u', react e u = Some u' /\ in_bounds u'.
Proof.
  intros H. destruct e as [p|now| |refresh new_screen]; cbn [react].
  - apply handle_input_in_bounds, H.
  - eexists. split; [reflexivity|]. apply on_button_pressed_in_bounds, H.
  - eexists. split; [reflexivity|]. apply apply_dirty_config_in_bounds, H.
  - eexists. split; [reflexivity|]. exact H.
Qed.

Lemma reacts_in_bounds (events : list event) :
  forall u, in_bounds u -> exists u', reacts events u = Some u' /\ in_bounds u'.
Proof.
  induction events as [|e rest IH]; intros u H; cbn [reacts].
  - exists u. auto.
  - destruct (react_in_bounds e u H) as (u1 & -> & H1). apply IH, H1.
Qed.

Lemma setup_in_bounds (e : eeprom_image) : in_bounds (setup e).
Proof.
  unfold setup. destruct (load_config e) as [[a d] e'].
  split; cbn; [lia|discriminate].
Qed.

(** X23. The menu never indexes outside its table. From [setup], with any
    EEPROM contents, through any sequence of encoder polls, button presses,
    ticks and redraws (each button interrupt served between two polls), the screen
    index stays among the eight screens, edit mode is only ever on while a
    configuration screen (1 to 6) is shown, and so every access
    [menu_entries[screen_index - 1]] of [handle_input] falls inside the six
    entries. *)
Theorem menu_stays_inside_its_table (e : eeprom_image) (events : list event) :
  exists u,
    reacts events (setup e) = Some u
    /\ 0 <= screen_index u <= 7
    /\ (edit_mode u = true -> 1 <= screen_index u <= 6).
Proof. apply reacts_in_bounds, setup_in_bounds. Qed.


(** *** The limits of the values *)

Lemma step_float_within (e : menu_entry) (direction : bool) (v : temperature) :
  SFltb (max e) (min e) = false ->
  SFltb (min e) (min e) = false ->
  SFltb (max e) (max e) = false ->
  negb (SFltb (step_float e direction v) (min e))
  && negb (SFltb (max e) (step_float e direction v)) = true.
Proof.
  intros Hmm Hmin Hmax. unfold step_float.
  set (v1 := if direction then SFadd 24 128 v (increment e)
             else SFsub 24 128 v (increment e)).
  destruct (SFltb v1 (min e)) eqn:Hlo.
  - rewrite Hmm, Hmax. reflexivity.
  - destruct (SFltb (max e) v1) eqn:Hhi.
    + rewrite Hmin, Hmm. reflexivity.
    + rewrite Hlo, Hhi. reflexivity.
Qed.

Lemma step_int16_within (e : menu_entry) (direction : bool) (v : Z) :
  int16 (truncate (min e)) <= int16 (truncate (max e)) ->
  (int16 (truncate (min e)) <=? step_int16 e direction v)
  && (step_int16 e direction v <=? int16 (truncate (max e))) = true.
Proof.
  intros Hmm. unfold step_int16.
  set (v1 := if direction then int16 (v + int16 (truncate (increment e)))
             else int16 (v - int16 (truncate (increment e)))).
  apply andb_true_intro.
  destruct (Z.ltb_spec v1 (int16 (truncate (min e)))).
  - split; apply Z.leb_le; lia.
  - destruct (Z.gtb_spec v1 (int16 (truncate (max e)))).
    + split; apply Z.leb_le; lia.
    + split; apply Z.leb_le; lia.
Qed.

(** The limits of every entry of the table are in order. *)
Lemma menu_entries_limits (e : menu_entry) :
  In e menu_entries ->
  SFltb (max e) (min e) = false
  /\ SFltb (min e) (min e) = false
  /\ SFltb (max e) (max e) = false
  /\ int16 (truncate (min e)) <= int16 (truncate (max e)).
Proof.
  intros Hin. cbn [menu_entries In] in Hin.
  repeat (destruct Hin as [<-|Hin];
          [repeat split; vm_compute; solve [reflexivity | discriminate]|]).
  destruct Hin.
Qed.

Lemma entry_at_in (i : Z) (e : menu_entry) :
  entry_at i = Some e -> In e menu_entries.
Proof.
  unfold entry_at. destruct (i <? 0); [discriminate|].
  apply nth_error_In.
Qed.

(** X24. An edit keeps the value within its limits. In edit mode a step of
    the encoder changes the value of the entry shown and nothing else in the
    edited copy; whatever the value was, afterwards it is not below the
    entry's minimum and not above its maximum (a step past one limit lands
    on the other); the active configuration, the dirty flag and the EEPROM
    are not touched. *)
Theorem edit_keeps_the_value_within_its_limits
  (current_position : Z) (u : ui) (e : menu_entry) :
  edit_mode u = true ->
  entry_at (screen_index u - 1) = Some e ->
  current_position <> last_encoder_position u ->
  Z.rem current_position 4 = 0 ->
  exists u',
    handle_input current_position u = Some u'
    /\ within_limits e (dirty_config u') = true
    /\ (forall f, float_value f <> value e ->
                  read_float f (dirty_config u') = read_float f (dirty_config u))
    /\ (forall f, int16_value f <> value e ->
                  read_int16 f (dirty_config u') = read_int16 f (dirty_config u))
    /\ active_config u' = active_config u
    /\ config_is_dirty u' = config_is_dirty u
    /\ eeprom u' = eeprom u
    /\ screen_index u' = screen_index u
    /\ edit_mode u' = true.
Proof.
  intros Hedit Hentry Hmoved Hdetent.
  destruct (menu_entries_limits e (entry_at_in _ _ Hentry))
    as (Hmm & Hmin & Hmax & Hint).
  unfold handle_input.
  apply Z.eqb_neq in Hmoved. rewrite Hmoved, Hdetent, Hedit, Hentry.
  cbn [Z.eqb negb].
  set (direction := int32 (current_position - last_encoder_position u) <? 0).
  eexists. split; [reflexivity|]. cbn [dirty_config active_config
    config_is_dirty eeprom screen_index edit_mode].
  unfold within_limits.
  destruct (value e) as [f|f] eqn:Hv.
  - split.
    { replace (read_float f (write_float f _ (dirty_config u)))
        with (step_float e direction (read_float f (dirty_config u)))
        by (destruct f; reflexivity).
      apply step_float_within; assumption. }
    split.
    { intros f' Hne. destruct f, f'; try reflexivity; congruence. }
    split; [intros f' _; destruct f, f'; reflexivity|].
    repeat split; auto.
  - split.
    { replace (read_int16 f (write_int16 f _ (dirty_config u)))
        with (step_int16 e direction (read_int16 f (dirty_config u)))
        by (destruct f; reflexivity).
      apply step_int16_within; assumption. }
    split; [intros f' _; destruct f, f'; reflexivity|].
    split.
    { intros f' Hne. destruct f, f'; try reflexivity; congruence. }
    repeat split; auto.
Qed.

(** *** The configuration in the EEPROM *)

Lemma setup_settled (e : eeprom_image) : settled (setup e).
Proof.
  unfold setup, load_config, same_bytes.
  destruct (list_eq_dec Z.eq_dec (magic_bytes e) F002) as [Hm|Hm]; cbn [negb].
  - split; cbn; intros; [|reflexivity]. destruct e as [m c]. cbn in *.
    subst m. reflexivity.
  - split; cbn; intros; reflexivity.
Qed.

Lemma handle_input_settled (p : Z) (u u' : ui) :
  handle_input p u = Some u' -> settled u -> settled u'.
Proof.
  unfold handle_input. intros H [He Ha].
  destruct (p =? last_encoder_position u);
    [injection H as <-; split; assumption|].
  destruct (negb (Z.rem p 4 =? 0)); [injection H as <-; split; assumption|].
  destruct (edit_mode u) eqn:Hedit; cbn [negb] in H.
  - destruct (entry_at (screen_index u - 1)); [|discriminate].
    injection H as <-. split; cbn; intros; congruence.
  - injection H as <-. split; cbn; auto.
Qed.

Lemma on_button_pressed_settled (now : Z) (u : ui) :
  settled u -> settled (on_button_pressed now u).
Proof.
  intros [He Ha]. unfold on_button_pressed.
  destruct (negb (screen_index u =? HOME_SCREEN)
            && negb (screen_index u =? INFO_SCREEN)); [|split; assumption].
  destruct (uint32 (now - edit_mode_toggled_at u) <? 500); [split; assumption|].
  destruct (edit_mode u) eqn:Hedit; split; cbn; rewrite ?Hedit; cbn;
    intros; auto; congruence.
Qed.

Lemma apply_dirty_config_settled (u : ui) :
  settled u -> settled (apply_dirty_config u).
Proof.
  intros Hs. unfold apply_dirty_config.
  destruct (config_is_dirty u) eqn:Hd; [|exact Hs].
  destruct Hs as [He Ha]. split; cbn; auto.
Qed.

Lemma reacts_settled (events : list event) :
  forall u u', reacts events u = Some u' -> settled u -> settled u'.
Proof.
  induction events as [|e rest IH]; intros u u' H Hs; cbn [reacts] in H.
  - injection H as <-. exact Hs.
  - destruct (react e u) as [u1|] eqn:Hr; [|discriminate].
    apply (IH u1 u' H).
    destruct e as [p|now| |refresh new_screen]; cbn [react] in Hr.
    + exact (handle_input_settled p u u1 Hr Hs).
    + injection Hr as <-. apply on_button_pressed_settled, Hs.
    + injection Hr as <-. apply apply_dirty_config_settled, Hs.
    + injection Hr as <-. exact Hs.
Qed.

(** X25. An edit that has been confirmed survives a restart. After any
    sequence of polls, presses, ticks and redraws from [setup] (with any EEPROM
    contents), whenever the menu is not in edit mode the EEPROM holds the
    edited copy under valid magic bytes, so that [load_config] at the next
    start restores it as both copies without resetting to the defaults or
    writing the EEPROM; and when no change is pending the active
    configuration is that same copy. *)
Theorem confirmed_edit_survives_restart
  (e : eeprom_image) (events : list event) (u : ui) :
  reacts events (setup e) = Some u ->
  edit_mode u = false ->
  load_config (eeprom u) = (dirty_config u, dirty_config u, eeprom u)
  /\ (config_is_dirty u = false -> active_config u = dirty_config u).
Proof.
  intros Hrun Hedit.
  destruct (reacts_settled events _ _ Hrun (setup_settled e)) as [He Ha].
  split; [|exact (Ha Hedit)].
  rewrite (He Hedit). unfold load_config, same_bytes. cbn [magic_bytes stored].
  destruct (list_eq_dec Z.eq_dec F002 F002) as [_|Hne]; [reflexivity|].
  destruct (Hne eq_refl).
Qed.

(** *** The button *)

(** X26. The button is debounced. A press that is accepted (on a
    configuration screen, 500 ms or more after the last toggle) flips edit
    mode, and leaving edit mode stores the edited copy and marks it dirty; a
    second press less than 500 ms later changes nothing at all. *)
Theorem second_press_within_500_ms_is_ignored (now later : Z) (u : ui) :
  screen_index u <> HOME_SCREEN -> screen_index u <> INFO_SCREEN ->
  uint32 (now - edit_mode_toggled_at u) >= 500 ->
  uint32 (later - uint32 now) < 500 ->
  let u1 := on_button_pressed now u in
  edit_mode u1 = negb (edit_mode u)
  /\ (edit_mode u = true ->
      stored (eeprom u1) = dirty_config u /\ config_is_dirty u1 = true)
  /\ (edit_mode u = false ->
      eeprom u1 = eeprom u /\ config_is_dirty u1 = config_is_dirty u)
  /\ on_button_pressed later u1 = u1.
Proof.
  intros H0 H7 Hfirst Hsecond. cbv zeta.
  apply Z.eqb_neq in H0, H7.
  apply Z.ltb_lt in Hsecond.
  assert (Hf : (uint32 (now - edit_mode_toggled_at u) <? 500) = false)
    by (apply Z.ltb_ge; lia).
  assert (E : on_button_pressed now u
              = let u1 := if edit_mode u then save_dirty_config u else u in
                {| screen_index := screen_index u1;
                   edit_mode := negb (edit_mode u1);
                   screen_should_refresh := true;
                   showing_new_screen := showing_new_screen u1;
                   last_encoder_position := last_encoder_position u1;
                   edit_mode_toggled_at := uint32 now;
                   active_config := active_config u1;
                   dirty_config := dirty_config u1;
                   config_is_dirty :=
                     if edit_mode u then true else config_is_dirty u1;
                   eeprom := eeprom u1 |}).
  { unfold on_button_pressed. rewrite H0, H7, Hf. reflexivity. }
  rewrite E. cbv zeta.
  split; [destruct (edit_mode u) eqn:He; cbn; rewrite He; reflexivity|].
  split; [intros He; rewrite He; split; reflexivity|].
  split; [intros He; rewrite He; split; reflexivity|].
  unfold on_button_pressed at 1.
  cbn [screen_index edit_mode_toggled_at].
  replace (screen_index (if edit_mode u then save_dirty_config u else u))
    with (screen_index u) by (destruct (edit_mode u); reflexivity).
  rewrite H0, H7, Hsecond. reflexivity.
Qed.

End MenuFacts.

(** ** The ring around the home screen *)

Module DisplayFacts.
Import Freezer Menu Display.

Lemma in_below (n : nat) (z : Z) : 0 <= z < Z.of_nat n -> In z (below n).
Proof.
  intros Hz. unfold below. apply in_map_iff. exists (Z.to_nat z).
  split; [lia|]. apply in_seq. lia.
Qed.

Lemma blend_checked :
  forallb (fun s => forallb (fun e => blend_ok s e) (below 64)) (below 64) = true.
Proof. vm_compute. reflexivity. Qed.

Lemma blend_between (s e i : Z) :
  0 <= s < 64 -> 0 <= e < 64 -> 0 <= i < 8 ->
  blend s e 0 = s /\ blend s e 7 = e
  /\ Z.min s e <= blend s e i <= Z.max s e.
Proof.
  intros Hs He Hi.
  pose proof blend_checked as H.
  rewrite forallb_forall in H. specialize (H s (in_below 64 s Hs)).
  rewrite forallb_forall in H. specialize (H e (in_below 64 e He)).
  unfold blend_ok in H. apply andb_prop in H. destruct H as [H Hall].
  apply andb_prop in H. destruct H as [H0 H7].
  rewrite forallb_forall in Hall. specialize (Hall i (in_below 8 i Hi)).
  apply andb_prop in Hall. lia.
Qed.

Lemma channels_checked :
  forallb (fun r =>
    forallb (fun g =>
      forallb (fun b =>
        (red (compose r g b) =? r) && (green (compose r g b) =? g)
        && (blue (compose r g b) =? b))
      (below 32)) (below 64)) (below 32) = true.
Proof. vm_compute. reflexivity. Qed.

Lemma channels_of_compose (r g b : Z) :
  0 <= r < 32 -> 0 <= g < 64 -> 0 <= b < 32 ->
  red (compose r g b) = r /\ green (compose r g b) = g
  /\ blue (compose r g b) = b.
Proof.
  intros Hr Hg Hb. pose proof channels_checked as H.
  rewrite forallb_forall in H. specialize (H r (in_below 32 r Hr)).
  rewrite forallb_forall in H. specialize (H g (in_below 64 g Hg)).
  rewrite forallb_forall in H. specialize (H b (in_below 32 b Hb)).
  apply andb_prop in H. destruct H as [H Hbl].
  apply andb_prop in H. lia.
Qed.

Lemma colours_checked :
  forallb (fun hi =>
    forallb (fun lo => let c := 256 * hi + lo - 32768 in
                       compose (red c) (green c) (blue c) =? uint16 c)
            all_bytes) all_bytes = true.
Proof. vm_compute. reflexivity. Qed.

Lemma compose_of_channels (c : Z) :
  -32768 <= c < 32768 ->
  compose (red c) (green c) (blue c) = uint16 c.
Proof.
  intros Hc. pose proof colours_checked as H.
  assert (Hhi : is_byte ((c + 32768) / 256)).
  { unfold is_byte. split; [apply Z.div_pos; lia|].
    apply Z.div_lt_upper_bound; lia. }
  assert (Hlo : is_byte ((c + 32768) mod 256))
    by (unfold is_byte; apply Z.mod_pos_bound; lia).
  rewrite forallb_forall in H.
  specialize (H _ (CrcFacts.in_all_bytes _ Hhi)).
  rewrite forallb_forall in H.
  specialize (H _ (CrcFacts.in_all_bytes _ Hlo)).
  cbv zeta in H.
  replace (256 * ((c + 32768) / 256) + (c + 32768) mod 256 - 32768) with c in H
    by (rewrite <- Z.div_mod by lia; lia).
  apply Z.eqb_eq, H.
Qed.

Lemma red_range (c : Z) : 0 <= red c < 32.
Proof.
  unfold red. change 31 with (Z.ones 5). rewrite Z.land_ones by lia.
  apply Z.mod_pos_bound. lia.
Qed.

Lemma green_range (c : Z) : 0 <= green c < 64.
Proof.
  unfold green. change 63 with (Z.ones 6). rewrite Z.land_ones by lia.
  apply Z.mod_pos_bound. lia.
Qed.

Lemma blue_range (c : Z) : 0 <= blue c < 32.
Proof.
  unfold blue. change 31 with (Z.ones 5). rewrite Z.land_ones by lia.
  apply Z.mod_pos_bound. lia.
Qed.

(** X28. The ring runs from the start colour to the end colour. The eight
    circles have the radii 120 down to 113; the outermost has exactly the
    start colour and the innermost exactly the end colour; and in every
    circle each of the three channels lies between its start and its end
    value: the rounding of the blend in [float] never pushes a channel out
    of its bit field. *)
Theorem outer_ring_runs_from_start_to_end (start_color end_color : Z) :
  -32768 <= start_color < 32768 -> -32768 <= end_color < 32768 ->
  map fst (draw_outer_ring start_color end_color)
  = [120; 119; 118; 117; 116; 115; 114; 113]
  /\ nth 0 (map snd (draw_outer_ring start_color end_color)) 0
     = uint16 start_color
  /\ nth 7 (map snd (draw_outer_ring start_color end_color)) 0
     = uint16 end_color
  /\ (forall radius color,
        In (radius, color) (draw_outer_ring start_color end_color) ->
        Z.min (red start_color) (red end_color) <= red color
        <= Z.max (red start_color) (red end_color)
        /\ Z.min (green start_color) (green end_color) <= green color
           <= Z.max (green start_color) (green end_color)
        /\ Z.min (blue start_color) (blue end_color) <= blue color
           <= Z.max (blue start_color) (blue end_color)).
Proof.
  intros Hs He.
  pose proof (red_range start_color) as Hrs.
  pose proof (red_range end_color) as Hre.
  pose proof (green_range start_color) as Hgs.
  pose proof (green_range end_color) as Hge.
  pose proof (blue_range start_color) as Hbs.
  pose proof (blue_range end_color) as Hbe.
  unfold draw_outer_ring. cbv zeta.
  fold (compose (blend (red start_color) (red end_color) 0)
                (blend (green start_color) (green end_color) 0)
                (blend (blue start_color) (blue end_color) 0)).
  rewrite map_map. cbn [map fst nth snd].
  split; [reflexivity|].
  assert (Hr : forall i, 0 <= i < 8 ->
             blend (red start_color) (red end_color) 0 = red start_color
             /\ blend (red start_color) (red end_color) 7 = red end_color
             /\ Z.min (red start_color) (red end_color)
                <= blend (red start_color) (red end_color) i
                <= Z.max (red start_color) (red end_color))
    by (intros i Hi; apply blend_between; lia).
  assert (Hg : forall i, 0 <= i < 8 ->
             blend (green start_color) (green end_color) 0 = green start_color
             /\ blend (green start_color) (green end_color) 7 = green end_color
             /\ Z.min (green start_color) (green end_color)
                <= blend (green start_color) (green end_color) i
                <= Z.max (green start_color) (green end_color))
    by (intros i Hi; apply blend_between; lia).
  assert (Hb : forall i, 0 <= i < 8 ->
             blend (blue start_color) (blue end_color) 0 = blue start_color
             /\ blend (blue start_color) (blue end_color) 7 = blue end_color
             /\ Z.min (blue start_color) (blue end_color)
                <= blend (blue start_color) (blue end_color) i
                <= Z.max (blue start_color) (blue end_color))
    by (intros i Hi; apply blend_between; lia).
  generalize dependent (blend (red start_color) (red end_color)).
  generalize dependent (blend (green start_color) (green end_color)).
  generalize dependent (blend (blue start_color) (blue end_color)).
  intros fb Hb fg Hg fr Hr.
  split.
  { destruct (Hr 0 ltac:(lia)) as (-> & _). destruct (Hg 0 ltac:(lia)) as (-> & _).
    destruct (Hb 0 ltac:(lia)) as (-> & _).
    apply compose_of_channels, Hs. }
  split.
  { fold (compose (fr 7) (fg 7) (fb 7)).
    destruct (Hr 0 ltac:(lia)) as (_ & -> & _).
    destruct (Hg 0 ltac:(lia)) as (_ & -> & _).
    destruct (Hb 0 ltac:(lia)) as (_ & -> & _).
    apply compose_of_channels, He. }
  intros radius color Hin.
  assert (Hex : exists i, 0 <= i < 8 /\ color = compose (fr i) (fg i) (fb i)).
  { cbn [In] in Hin.
    repeat (destruct Hin as [Hin|Hin];
            [injection Hin as _ <-; eexists; split; [|reflexivity]; lia|]).
    destruct Hin. }
  destruct Hex as (i & Hi & ->).
  destruct (Hr i Hi) as (_ & _ & Hri). destruct (Hg i Hi) as (_ & _ & Hgi).
  destruct (Hb i Hi) as (_ & _ & Hbi).
  destruct (channels_of_compose (fr i) (fg i) (fb i)) as (-> & -> & ->); lia.
Qed.

End DisplayFacts.

(** ** The properties above on concrete runs *)

Module SafetyExamples.
Import Freezer Scenario FreezerFacts SafetyFacts Runs.
Import RecordLog.

Lemma two_minutes_in_reachable : reachable sketch_layout (Running two_minutes_in).
Proof.
  assert (E : Running two_minutes_in
              = run sketch_layout
                    [at_time 120004 (-10) 30; at_time 121040 (-10) 30]
                    (Running fresh))
    by (vm_compute; reflexivity).
  rewrite E. cbn [run fold_left]. apply reach_loop, reach_loop, reach_boot.
Qed.

Example two_minutes_in_observed :
  observe (Running two_minutes_in) = (false, cooling, true, true, true, 6%nat).
Proof. vm_compute. reflexivity. Qed.

Lemma no_restart_within_dead_time_witness :
  actual_compressor_state
    (current_state
       (world_of (update_state sketch_layout (steady (-10)) (steady 30)
                               cooling_down))) = false
  /\ compressor_relay
       (world_of (update_state sketch_layout (steady (-10)) (steady 30)
                               cooling_down))
     = compressor_relay cooling_down
  /\ compressor_turned_off_at
       (world_of (update_state sketch_layout (steady (-10)) (steady 30)
                               cooling_down))
     = compressor_turned_off_at cooling_down.
Proof.
  apply (no_restart_within_dead_time sketch_layout (steady (-10)) (steady 30)
           cooling_down); vm_compute; reflexivity.
Defined.

Lemma startup_gate_is_passed_once_witness :
  startup_delay_over
    (world_of (run sketch_layout [at_time 0 (-10) 30; at_time 1040 150 30]
                   (Running dwelt))) = true.
Proof.
  apply (startup_gate_is_passed_once sketch_layout
           [at_time 0 (-10) 30; at_time 1040 150 30] (Running dwelt)).
  reflexivity.
Defined.

Lemma overheating_tick_leaves_compressor_off_witness :
  actual_compressor_state
    (current_state
       (world_of (loop sketch_layout (at_time 122080 (-10) 61)
                       (Running two_minutes_in)))) = false
  /\ compressor_relay
       (world_of (loop sketch_layout (at_time 122080 (-10) 61)
                       (Running two_minutes_in))) = false.
Proof.
  apply (overheating_tick_leaves_compressor_off sketch_layout
           (at_time 122080 (-10) 61) two_minutes_in).
  - exact two_minutes_in_reachable.
  - vm_compute. reflexivity.
  - vm_compute. reflexivity.
Defined.

Lemma compressor_runs_iff_status_cooling_witness :
  (actual_compressor_state (current_state two_minutes_in) = true
   <-> status (current_state two_minutes_in) = cooling)
  /\ (compressor_relay two_minutes_in = true
      <-> status (current_state two_minutes_in) = cooling).
Proof.
  apply (compressor_runs_iff_status_cooling sketch_layout two_minutes_in).
  exact two_minutes_in_reachable.
Defined.

Lemma compressor_cools_when_nothing_forbids_witness :
  status (current_state (decide dwelling)) = cooling
  /\ actual_compressor_state (current_state (decide dwelling)) = true
  /\ compressor_relay (decide dwelling) = true
  /\ compressor_turned_off_at (decide dwelling) = 0
  /\ compressor_turned_on_at (decide dwelling)
     = (if is_compressor_on dwelling then compressor_turned_on_at dwelling
        else millis dwelling).
Proof.
  apply (compressor_cools_when_nothing_forbids dwelling).
  - unfold consistent. cbn. repeat split; auto; discriminate.
  - vm_compute. reflexivity.
  - vm_compute. reflexivity.
  - reflexivity.
  - intros _. vm_compute. reflexivity.
  - intros H. vm_compute in H. discriminate H.
Defined.

(** The compressor has been on since the tick at 121040 ms; the next tick
    comes 300 minutes later. *)
Lemma max_run_time_is_enforced_witness :
  actual_compressor_state
    (current_state
       (world_of (loop sketch_layout (at_time 18121040 (-10) 30)
                       (Running two_minutes_in)))) = false
  /\ compressor_relay
       (world_of (loop sketch_layout (at_time 18121040 (-10) 30)
                       (Running two_minutes_in))) = false.
Proof.
  apply (max_run_time_is_enforced sketch_layout (at_time 18121040 (-10) 30)
           two_minutes_in).
  - exact two_minutes_in_reachable.
  - vm_compute. reflexivity.
  - vm_compute. reflexivity.
  - vm_compute. reflexivity.
Defined.

End SafetyExamples.

Module DriverExamples.
Import SdCard SdCardFacts SdDriverFacts SdInit SdInitFacts.

Lemma read_card_block_delivers_the_block_witness :
  exists b',
    read_card_block 2 0 5 answering_card = Some (true, [10; 11; 12; 13; 14], b')
    /\ cs b' = true
    /\ transfers b' = 525%nat.
Proof.
  destruct (read_card_block_delivers_the_block 2 0 1 0 5 answering_card)
    as (b' & Hrun & Hcs & Ht & _).
  - lia.
  - lia.
  - reflexivity.
  - intros i Hi. lia.
  - reflexivity.
  - intros i Hi. replace i with 0%nat by lia. vm_compute. discriminate.
  - reflexivity.
  - exists b'. split; [exact Hrun|]. split; [exact Hcs | exact Ht].
Defined.

Lemma write_card_block_sends_the_block_witness :
  exists b',
    write_card_block 3 8 [70; 90; 90; 88] 4 accepting_card = Some (true, b')
    /\ cs b' = true
    /\ transfers b' = 528%nat.
Proof.
  destruct (write_card_block_sends_the_block 3 0 2 8 [70; 90; 90; 88] 4
              accepting_card) as (b' & Hrun & Hcs & Ht & _).
  - lia.
  - lia.
  - cbn. lia.
  - reflexivity.
  - intros i Hi. lia.
  - reflexivity.
  - reflexivity.
  - intros i Hi.
    assert (Hc : i = 0%nat \/ i = 1%nat) by lia.
    destruct Hc as [->| ->]; reflexivity.
  - vm_compute. discriminate.
  - exists b'. split; [exact Hrun|]. split; [exact Hcs | exact Ht].
Defined.

Lemma rejected_command_ends_the_operation_witness :
  exists b1 b2,
    read_card_block 1 8 5 rejecting_card = Some (false, [], b1)
    /\ write_card_block 1 8 [70; 90; 90; 88] 4 rejecting_card = Some (false, b2)
    /\ cs b1 = true /\ cs b2 = true
    /\ transfers b1 = 8%nat /\ transfers b2 = 8%nat.
Proof.
  destruct (rejected_command_ends_the_operation 1 0 8 [70; 90; 90; 88] 4
              rejecting_card) as (b1 & b2 & Hr & Hw & Hc1 & Hc2 & _).
  - lia.
  - lia.
  - reflexivity.
  - intros i Hi. lia.
  - intros _. split; vm_compute; discriminate.
  - exists b1, b2. split; [exact Hr|]. split; [exact Hw|].
    split; [exact Hc1|]. split; [exact Hc2|].
    assert (E1 : Some (transfers b1) = Some 8%nat).
    { change (Some (transfers b1))
        with (option_map (fun '(_, _, b) => transfers b) (Some (false, @nil Z, b1))).
      rewrite <- Hr. vm_compute. reflexivity. }
    assert (E2 : Some (transfers b2) = Some 8%nat).
    { change (Some (transfers b2))
        with (option_map (fun '(_, b) => transfers b) (Some (false, b2))).
      rewrite <- Hw. vm_compute. reflexivity. }
    split; congruence.
Defined.

Lemma init_sd_card_result_witness :
  exists b', init_sd_card 1 never_ready_card = Some (true, b') /\ cs b' = true.
Proof.
  destruct (init_sd_card_result 1 never_ready_card (fun _ => 1))
    as (b' & Hrun & Hcs).
  - lia.
  - intros e. cbn [never_ready_card idle_bus miso transfers].
    replace ((0 + 10 + 8 * e) mod 8)%nat with 2%nat; [reflexivity|].
    replace (0 + 10 + 8 * e)%nat with (2 + (e + 1) * 8)%nat by lia.
    rewrite Nat.Div0.mod_add. reflexivity.
  - intros e. cbn [never_ready_card idle_bus miso transfers].
    replace ((0 + 17 + 8 * e) mod 8)%nat with 1%nat;
      [split; [reflexivity|discriminate]|].
    replace (0 + 17 + 8 * e)%nat with (1 + (e + 2) * 8)%nat by lia.
    rewrite Nat.Div0.mod_add. reflexivity.
  - exists b'. split; [exact Hrun | exact Hcs].
Defined.

End DriverExamples.

Module LogRunExamples.
Import RecordLog RecordLogFacts LogRuns LogRunFacts Scenario.

Lemma append_on_agreeing_counters_witness :
  fst (save_data_point sample_record empty_card) = true
  /\ sector_at (snd (save_data_point sample_record empty_card)) 0 = valid_sector 1
  /\ sector_at (snd (save_data_point sample_record empty_card)) 1 = valid_sector 1
  /\ blocks (snd (save_data_point sample_record empty_card)) 3
     = SdCard.padded_block sample_record (length sample_record).
Proof.
  destruct (append_on_agreeing_counters sample_record empty_card 0)
    as (Hok & H0 & H1 & Hrec & _).
  - reflexivity.
  - reflexivity.
  - lia.
  - repeat split; assumption.
Defined.

Lemma appended_records_are_kept_witness :
  count (sector_at (append_all [[1; 2; 3]; [4; 5; 6]; [7; 8; 9]] empty_card) 0) = 3
  /\ blocks (append_all [[1; 2; 3]; [4; 5; 6]; [7; 8; 9]] empty_card) 3
     = SdCard.padded_block [1; 2; 3] 3
  /\ blocks (append_all [[1; 2; 3]; [4; 5; 6]; [7; 8; 9]] empty_card) 5
     = SdCard.padded_block [7; 8; 9] 3.
Proof.
  destruct (appended_records_are_kept [[1; 2; 3]; [4; 5; 6]; [7; 8; 9]]
              empty_card 0) as (H0 & _ & Hrec & _).
  - reflexivity.
  - reflexivity.
  - lia.
  - cbn. lia.
  - split; [exact H0|].
    split; [exact (Hrec 0%nat ltac:(cbn; lia)) | exact (Hrec 2%nat ltac:(cbn; lia))].
Defined.

Lemma interrupted_append_recovers_witness :
  let c1 := inner (snd (save_data_point [1; 2; 3]
                          {| inner := empty_card; budget := 3 |})) in
  let c2 := snd (save_data_point [4; 5; 6] c1) in
  fst (save_data_point [4; 5; 6] c1) = true
  /\ sector_at c2 0 = valid_sector 2
  /\ sector_at c2 1 = valid_sector 2
  /\ blocks c2 4 = SdCard.padded_block [4; 5; 6] 3
  /\ blocks c2 3 = blocks empty_card 3.
Proof.
  destruct (interrupted_append_recovers [1; 2; 3] [4; 5; 6] empty_card 0 3)
    as (Hok & H0 & H1 & Hrec & _ & _ & Hskip).
  - reflexivity.
  - reflexivity.
  - lia.
  - cbv zeta. split; [exact Hok|]. split; [exact H0|]. split; [exact H1|].
    split; [exact Hrec|]. apply Hskip. lia.
Defined.

End LogRunExamples.

Module MenuExamples.
Import Freezer Menu MenuFacts.

Example editing_hysteresis_reached :
  reacts to_hysteresis (setup blank_eeprom) = Some editing_hysteresis.
Proof. vm_compute. reflexivity. Qed.

Lemma edit_keeps_the_value_within_its_limits_witness :
  exists u',
    handle_input (-12) editing_hysteresis = Some u'
    /\ target_temperature_hysteresis_time (dirty_config u') = 70
    /\ active_config u' = default_config.
Proof.
  destruct (edit_keeps_the_value_within_its_limits (-12) editing_hysteresis
              {| value := int16_value hysteresis_time_field;
                 increment := celsius 10; min := celsius 5; max := celsius 350 |})
    as (u' & Hrun & _ & _ & _ & Hactive & _).
  - reflexivity.
  - reflexivity.
  - discriminate.
  - reflexivity.
  - exists u'. split; [exact Hrun|]. split; [|exact Hactive].
    assert (E : Some u' = handle_input (-12) editing_hysteresis)
      by (symmetry; exact Hrun).
    vm_compute in E. injection E as ->. reflexivity.
Defined.

Lemma confirmed_edit_survives_restart_witness :
  reacts edit_and_confirm (setup blank_eeprom) = Some confirmed
  /\ load_config (eeprom confirmed) = (hysteresis_70, hysteresis_70, eeprom confirmed)
  /\ active_config confirmed = hysteresis_70.
Proof.
  assert (Hrun : reacts edit_and_confirm (setup blank_eeprom) = Some confirmed)
    by (vm_compute; reflexivity).
  destruct (confirmed_edit_survives_restart blank_eeprom edit_and_confirm
              confirmed Hrun eq_refl) as [Hload Hactive].
  split; [exact Hrun|]. split; [exact Hload | exact (Hactive eq_refl)].
Defined.

Lemma second_press_within_500_ms_is_ignored_witness :
  edit_mode (on_button_pressed 2000 editing_hysteresis) = false
  /\ on_button_pressed 2100 (on_button_pressed 2000 editing_hysteresis)
     = on_button_pressed 2000 editing_hysteresis.
Proof.
  destruct (second_press_within_500_ms_is_ignored 2000 2100 editing_hysteresis)
    as (Hedit & _ & _ & Hsame).
  - discriminate.
  - discriminate.
  - vm_compute. discriminate.
  - vm_compute. reflexivity.
  - split; [exact Hedit | exact Hsame].
Defined.

End MenuExamples.

Module ChecksumAndRingExamples.
Import Crc CrcFacts CrcAlgebra Display DisplayFacts.

Lemma calculate_crc8_is_linear_witness :
  calculate_crc8 ([1; 2; 3; 4] ++ [calculate_crc8 [1; 2; 3; 4]]) = 0
  /\ calculate_crc8
       (map (fun '(x, y) => Z.lxor x y) (combine [1; 2; 3; 4] [5; 6; 7; 8]))
     = Z.lxor (calculate_crc8 [1; 2; 3; 4]) (calculate_crc8 [5; 6; 7; 8]).
Proof.
  apply (calculate_crc8_is_linear [1; 2; 3; 4] [5; 6; 7; 8]).
  - reflexivity.
  - repeat constructor; unfold is_byte; lia.
  - repeat constructor; unfold is_byte; lia.
Defined.

(** The ring of the Cooling status: from blue (0x001F) to purple
    (0x780F). *)
Lemma outer_ring_runs_from_start_to_end_witness :
  map fst (draw_outer_ring 0x001F 0x780F)
  = [120; 119; 118; 117; 116; 115; 114; 113]
  /\ nth 0 (map snd (draw_outer_ring 0x001F 0x780F)) 0 = 0x001F
  /\ nth 7 (map snd (draw_outer_ring 0x001F 0x780F)) 0 = 0x780F.
Proof.
  destruct (outer_ring_runs_from_start_to_end 0x001F 0x780F)
    as (Hradii & Hfirst & Hlast & _).
  - lia.
  - lia.
  - split; [exact Hradii|]. split; [exact Hfirst | exact Hlast].
Defined.

End ChecksumAndRingExamples.
